(** * Stock analysis pipeline: prompt loading, model fallback, coercion and
      aggregation

    A shallow embedding of [src/app.py], [src/models/ai_client.py],
    [src/models/prompt_loader.py] and [src/models/database.py].

    Conventions of the embedding.
    - Python values that travel through [json.loads], [yaml.safe_load] and
      the dictionaries of the program are values of [pyval].
    - A Python [str] is a [string]: the UTF-8 bytes of the text.  Functions
      that depend on the character (white space, case, digits) read the
      bytes as code points.
    - A Python [int] is a [Z].  A Python [float] is a [pyfloat]: a binary64
      number given by its exact rational value, the negative zero, an
      infinity or the NaN.  Every float operation rounds its exact result
      to the nearest binary64 number, ties to even ([b64]).
    - What depends on the interpreter and not on the program (the Unicode
      tables, the limit on the digits of an integer literal, the nesting
      [json.loads] has stack for) is a parameter, [Python].
    - Code that can raise returns a [result]; code that also touches the
      random generator, the console, the backend or the run store runs in
      the state-and-exception monad [M] over [world]. *)

From Stdlib Require Import List String Ascii ZArith QArith Qround Qabs Lia Lqa
  Bool Permutation Sorted DecimalString Arith.
Import ListNotations.

#[local] Open Scope string_scope.
#[local] Open Scope Z_scope.
#[local] Open Scope list_scope.

(* ================================================================== *)
(** ** Exceptions and results *)

Inductive exn : Type :=
| RuntimeError (msg : string)
| RecursionError (msg : string)
| ValueError (msg : string)
| JSONDecodeError (msg : string)
| UnicodeEncodeError (msg : string)
| TypeError (msg : string)
| AttributeError (msg : string)
| OverflowError (msg : string)
| ZeroDivisionError (msg : string)
| IndexError (msg : string)
| FileNotFoundError (msg : string)
| OSError (msg : string)
| YAMLError (msg : string)
| TemplateError (msg : string)
| ValidationError (msg : string)
| SchemaError (msg : string)
| KeyError (msg : string)
| AssertionError (msg : string)
| IntegrityError (msg : string)
| ProgrammingError (msg : string)
| BackendError (msg : string).

Inductive result (A : Type) : Type :=
| Ok (a : A)
| Raise (e : exn).
Arguments Ok {A} a.
Arguments Raise {A} e.

Definition is_ok {A} (r : result A) : bool :=
  match r with Ok _ => true | Raise _ => false end.

Definition rbind {A B} (r : result A) (k : A -> result B) : result B :=
  match r with Ok a => k a | Raise e => Raise e end.

(* ================================================================== *)
(** ** Python values *)

Inductive pyfloat : Type :=
| Fin (q : Q)
| NegZero
| Inf (negative : bool)
| NaN.

#[local] Set Warnings "-register-all".

Inductive pyval : Type :=
| PNone
| PBool (b : bool)
| PInt (z : Z)
| PFloat (f : pyfloat)
| PStr (s : string)
| PList (l : list pyval)
| PDict (d : list (string * pyval)).

(** A [dict] keeps its keys in insertion order: an association list with
    at most one binding per key. *)
Definition pydict := list (string * pyval).

Fixpoint dict_get (d : pydict) (k : string) : option pyval :=
  match d with
  | [] => None
  | (k', v) :: d' => if String.eqb k' k then Some v else dict_get d' k
  end.

(** [d.get(k, default)] *)
Definition dict_get_default (d : pydict) (k : string) (default : pyval) : pyval :=
  match dict_get d k with Some v => v | None => default end.

(** [d[k] = v]: overwrite in place, or append a new key. *)
Fixpoint dict_set (d : pydict) (k : string) (v : pyval) : pydict :=
  match d with
  | [] => [(k, v)]
  | (k', v') :: d' =>
      if String.eqb k' k then (k', v) :: d' else (k', v') :: dict_set d' k v
  end.

(** [k in d] *)
Definition dict_mem (d : pydict) (k : string) : bool :=
  match dict_get d k with Some _ => true | None => false end.

(* ================================================================== *)
(** ** Aggregator: majority vote ([app.py], lines 102-112) *)

(** [collections.Counter]: counts in first-seen order. *)
Fixpoint counter_add (x : string) (c : list (string * nat)) : list (string * nat) :=
  match c with
  | [] => [(x, 1%nat)]
  | (k, n) :: c' =>
      if String.eqb k x then (k, S n) :: c' else (k, n) :: counter_add x c'
  end.

Definition Counter (l : list string) : list (string * nat) :=
  fold_left (fun c x => counter_add x c) l [].

(** [Counter.most_common()] is [sorted(items, key=count, reverse=True)]:
    a stable sort by decreasing count, so equal counts stay in first-seen
    order. *)
Fixpoint insert_desc (x : string * nat) (l : list (string * nat)) : list (string * nat) :=
  match l with
  | [] => [x]
  | y :: l' =>
      if (snd y <=? snd x)%nat then x :: l else y :: insert_desc x l'
  end.

Definition most_common (c : list (string * nat)) : list (string * nat) :=
  fold_right insert_desc [] c.

(** [seq[i]] on a list, raising [IndexError] out of range. *)
Definition item {A} (l : list A) (i : nat) : result A :=
  match nth_error l i with
  | Some a => Ok a
  | None => Raise (IndexError "list index out of range")
  end.

Definition final_rating (ratings : list string) : result string :=
  let rating_counts := Counter ratings in
  let most_common := most_common rating_counts in
  if (List.length most_common =? 1)%nat then
    rbind (item most_common 0) (fun top => Ok (fst top))
  else
    if (2 <=? List.length most_common)%nat
       && match item most_common 0, item most_common 1 with
          | Ok a, Ok b => (snd a =? snd b)%nat
          | _, _ => false
          end
    then Ok "HOLD"
    else rbind (item most_common 0) (fun top => Ok (fst top)).

(** Number of occurrences of a rating in the sequence. *)
Definition occurrences (ratings : list string) (r : string) : nat :=
  count_occ string_dec ratings r.

(** Look-up of a count, and the invariant of a counter, for the proofs. *)
Fixpoint cnt (c : list (string * nat)) (r : string) : nat :=
  match c with
  | [] => 0%nat
  | (k, n) :: c' => if String.eqb k r then n else cnt c' r
  end.

Definition counter_wf (c : list (string * nat)) : Prop :=
  NoDup (map fst c) /\ Forall (fun kn => (0 < snd kn)%nat) c.

Definition count_ge (a b : string * nat) : Prop := (snd b <= snd a)%nat.

(* ================================================================== *)
(** ** Floats: binary64 with rounding to nearest, ties to even *)

(** [2 ** e] for an integer exponent of either sign. *)
Definition pow2 (e : Z) : Q :=
  if 0 <=? e then inject_Z (2 ^ e) else 1 # Z.to_pos (2 ^ (- e)).

(** Whether [2 ** k <= n / d]. *)
Definition reaches (n d : positive) (k : Z) : bool :=
  if 0 <=? k then Zpos d * 2 ^ k <=? Zpos n else Zpos d <=? Zpos n * 2 ^ (- k).

(** [floor(log2(n / d))] *)
Definition ilog2 (n d : positive) : Z :=
  let k := Z.log2 (Zpos n) - Z.log2 (Zpos d) in
  if reaches n d k then k else k - 1.

(** The exponent of the last mantissa bit of the binary64 numbers around
    [n / d]: 52 places below the leading bit, and never below that of the
    subnormal numbers. *)
Definition quantum (n d : positive) : Z := Z.max (ilog2 n d - 52) (- 1074).

(** [num / den] rounded to the nearest integer, ties to the even one. *)
Definition round_half_even_div (num den : Z) : Z :=
  let m := num / den in
  let r := num mod den in
  match 2 * r ?= den with
  | Lt => m
  | Gt => m + 1
  | Eq => if Z.even m then m else m + 1
  end.

Definition scale_num (n : positive) (e : Z) : Z :=
  if 0 <=? e then Zpos n else Zpos n * 2 ^ (- e).

Definition scale_den (d : positive) (e : Z) : Z :=
  if 0 <=? e then Zpos d * 2 ^ e else Zpos d.

(** The mantissa and the value of the binary64 number nearest to [n / d],
    before the check of the range. *)
Definition b64_mantissa (n d : positive) : Z :=
  round_half_even_div (scale_num n (quantum n d)) (scale_den d (quantum n d)).

Definition b64_candidate (n d : positive) : Q :=
  inject_Z (b64_mantissa n d) * pow2 (quantum n d).

(** The binary64 number nearest to [n / d], or [None] when that is beyond
    the largest one. *)
Definition b64_mag (n d : positive) : option Q :=
  if (971 <? quantum n d)
     || ((quantum n d =? 971) && (b64_mantissa n d =? 2 ^ 53))
  then None
  else Some (Qred (b64_candidate n d)).

(** Rounding of an exact value to binary64: overflow gives an infinity,
    underflow a zero of the same sign. *)
Definition b64 (q : Q) : pyfloat :=
  match Qnum q with
  | Z0 => Fin 0
  | Zpos n =>
      match b64_mag n (Qden q) with
      | Some v => Fin v
      | None => Inf false
      end
  | Zneg n =>
      match b64_mag n (Qden q) with
      | Some v => if Qeq_bool v 0 then NegZero else Fin (Qred (- v))
      | None => Inf true
      end
  end.

(** The same for a magnitude and a sign given apart, as products and
    quotients have them: a zero result keeps the sign. *)
Definition b64_signed (negative : bool) (magnitude : Q) : pyfloat :=
  if Qeq_bool magnitude 0 then (if negative then NegZero else Fin 0)
  else b64 (if negative then - magnitude else magnitude).

(** The exact value of a finite float. *)
Definition float_value (f : pyfloat) : option Q :=
  match f with
  | Fin q => Some q
  | NegZero => Some 0%Q
  | Inf _ | NaN => None
  end.

Definition sign_bit (f : pyfloat) : bool :=
  match f with
  | Fin q => Qnum q <? 0
  | NegZero => true
  | Inf s => s
  | NaN => false
  end.

Definition is_zero (f : pyfloat) : bool :=
  match f with
  | Fin q => Qeq_bool q 0
  | NegZero => true
  | Inf _ | NaN => false
  end.

(** [a + b] *)
Definition fadd (a b : pyfloat) : pyfloat :=
  match a, b with
  | NaN, _ | _, NaN => NaN
  | Inf s, Inf t => if Bool.eqb s t then Inf s else NaN
  | Inf s, _ | _, Inf s => Inf s
  | NegZero, NegZero => NegZero
  | NegZero, Fin y => Fin y
  | Fin x, NegZero => Fin x
  | Fin x, Fin y => b64 (x + y)
  end.

(** [- a] *)
Definition fneg (a : pyfloat) : pyfloat :=
  match a with
  | Fin q => if Qeq_bool q 0 then NegZero else Fin (Qred (- q))
  | NegZero => Fin 0
  | Inf s => Inf (negb s)
  | NaN => NaN
  end.

(** [a - b] *)
Definition fsub (a b : pyfloat) : pyfloat := fadd a (fneg b).

(** [a * b] *)
Definition fmul (a b : pyfloat) : pyfloat :=
  let s := xorb (sign_bit a) (sign_bit b) in
  match a, b with
  | NaN, _ | _, NaN => NaN
  | Inf _, y => if is_zero y then NaN else Inf s
  | x, Inf _ => if is_zero x then NaN else Inf s
  | _, _ =>
      match float_value a, float_value b with
      | Some x, Some y => b64_signed s (Qabs x * Qabs y)
      | _, _ => NaN
      end
  end.

(** The values of a binary64: [m * 2 ** e] with a mantissa below
    [2 ** 53] and an exponent between that of the subnormal numbers and
    that of the largest ones. *)
Definition b64_value (g : Q) : Prop :=
  exists m e, Z.abs m < 2 ^ 53 /\ - 1074 <= e <= 971
              /\ (g == inject_Z m * pow2 e)%Q.

(** [f] is a binary64 number and no binary64 number is closer to [q]. *)
Definition nearest_b64 (q f : Q) : Prop :=
  b64_value f /\ forall g, b64_value g -> (Qabs (q - f) <= Qabs (q - g))%Q.

(** [a / b] *)
Definition fdiv (a b : pyfloat) : result pyfloat :=
  let s := xorb (sign_bit a) (sign_bit b) in
  if is_zero b then Raise (ZeroDivisionError "float division by zero")
  else
    Ok match a, b with
       | NaN, _ | _, NaN => NaN
       | Inf _, Inf _ => NaN
       | Inf _, _ => Inf s
       | _, Inf _ => if s then NegZero else Fin 0
       | _, _ =>
           match float_value a, float_value b with
           | Some x, Some y => b64_signed s (Qabs x / Qabs y)
           | _, _ => NaN
           end
       end.

(** [float(z)] for an [int]. *)
Definition float_of_int (z : Z) : result pyfloat :=
  match b64 (inject_Z z) with
  | Inf _ => Raise (OverflowError "int too large to convert to float")
  | f => Ok f
  end.

(** [round(x, ndigits)]: the exact value of [x] rounded to [ndigits]
    decimal places, ties to even, and that decimal as a float. *)
Definition py_round (x : pyfloat) (ndigits : nat) : pyfloat :=
  match x with
  | Fin q =>
      let scale := 10 ^ Z.of_nat ndigits in
      let k := round_half_even_div (Qnum q * scale) (Zpos (Qden q)) in
      if k =? 0 then (if Qnum q <? 0 then NegZero else Fin 0)
      else b64 (k # Z.to_pos scale)
  | _ => x
  end.

(* ================================================================== *)
(** ** The interpreter

    What Python itself brings and the program does not decide: the
    Unicode tables behind [str.upper], [int], [float] and [repr] for
    characters outside ASCII, the limit on the number of digits of an
    integer literal ([sys.get_int_max_str_digits()], 4300 unless changed,
    0 for none), and how many containers [json.loads] can still nest at
    the place of the call before the recursion limit is hit. *)
Record Python : Type := {
  unicode_upper : N -> list N;
  unicode_decimal : N -> option Z;
  unicode_printable : N -> bool;
  int_max_str_digits : N;
  json_depth : nat
}.

(* ================================================================== *)
(** ** Text: characters, whitespace, case *)

Definition ord (c : ascii) : N := N_of_ascii c.
Definition chr (n : N) : ascii := ascii_of_N n.

(** The double quote character and a way to write text that contains it:
    [dq] turns every apostrophe of a literal into a double quote. *)
Definition dquote : ascii := chr 34.
Definition squote : ascii := chr 39.
Definition backslash : ascii := chr 92.

Fixpoint dq (s : string) : string :=
  match s with
  | EmptyString => EmptyString
  | String c r => String (if Ascii.eqb c squote then dquote else c) (dq r)
  end.

(** The UTF-8 bytes of a code point. *)
Definition utf8_encode (cp : N) : list ascii :=
  (if cp <? 128 then [chr cp]
   else if cp <? 2048 then [chr (192 + cp / 64); chr (128 + cp mod 64)]
   else if cp <? 65536 then
     [chr (224 + cp / 4096); chr (128 + (cp / 64) mod 64); chr (128 + cp mod 64)]
   else
     [chr (240 + cp / 262144); chr (128 + (cp / 4096) mod 64);
      chr (128 + (cp / 64) mod 64); chr (128 + cp mod 64)])%N.

(** The characters of UTF-8 text, each with its bytes.  A byte that starts
    no sequence is a character of its own, numbered as the codec's
    [surrogateescape] does ([U+DC00] plus the byte). *)
Fixpoint utf8_chars (s : list ascii) : list (N * list ascii) :=
  match s with
  | [] => []
  | b0 :: r =>
      let n0 := ord b0 in
      let cont (b : ascii) := (ord b mod 64)%N in
      let is_cont (b : ascii) := ((128 <=? ord b) && (ord b <? 192))%N in
      let single :=
        ((if n0 <? 128 then n0 else 56320 + n0)%N, [b0]) :: utf8_chars r in
      match r with
      | b1 :: r1 =>
          if ((192 <=? n0) && (n0 <? 224))%N && is_cont b1 then
            (((n0 - 192) * 64 + cont b1)%N, [b0; b1]) :: utf8_chars r1
          else
            match r1 with
            | b2 :: r2 =>
                if ((224 <=? n0) && (n0 <? 240))%N && is_cont b1 && is_cont b2 then
                  ((((n0 - 224) * 64 + cont b1) * 64 + cont b2)%N, [b0; b1; b2])
                    :: utf8_chars r2
                else
                  match r2 with
                  | b3 :: r3 =>
                      if ((240 <=? n0) && (n0 <? 248))%N
                         && is_cont b1 && is_cont b2 && is_cont b3 then
                        (((((n0 - 240) * 64 + cont b1) * 64 + cont b2) * 64
                          + cont b3)%N, [b0; b1; b2; b3])
                          :: utf8_chars r3
                      else single
                  | [] => single
                  end
            | [] => single
            end
      | [] => single
      end
  end.

Definition chars_of (s : string) : list (N * list ascii) :=
  utf8_chars (list_ascii_of_string s).

Definition text_of (cs : list (N * list ascii)) : string :=
  string_of_list_ascii (List.concat (map snd cs)).

(** Code points of UTF-8 text. *)
Definition utf8_decode (s : list ascii) : list N := map fst (utf8_chars s).

(** [str.isspace] of a character: the white space of Unicode. *)
Definition is_space (n : N) : bool :=
  ((9 <=? n) && (n <=? 13) || (28 <=? n) && (n <=? 32)
   || (n =? 133) || (n =? 160) || (n =? 5760)
   || (8192 <=? n) && (n <=? 8202)
   || (n =? 8232) || (n =? 8233) || (n =? 8239) || (n =? 8287)
   || (n =? 12288))%N.

Fixpoint lstrip (cs : list (N * list ascii)) : list (N * list ascii) :=
  match cs with
  | c :: r => if is_space (fst c) then lstrip r else cs
  | [] => []
  end.

(** [s.strip()] *)
Definition strip (s : string) : string :=
  text_of (rev (lstrip (rev (lstrip (chars_of s))))).

Definition upper_char (c : ascii) : ascii :=
  let n := ord c in
  if ((97 <=? n) && (n <=? 122))%N then chr (n - 32) else c.

Definition lower_char (c : ascii) : ascii :=
  let n := ord c in
  if ((65 <=? n) && (n <=? 90))%N then chr (n + 32) else c.

Fixpoint eqb_codes (a b : list N) : bool :=
  match a, b with
  | [], [] => true
  | x :: a', y :: b' => (x =? y)%N && eqb_codes a' b'
  | _, _ => false
  end.

(** [s.upper()]: ASCII letters by the ASCII rule, every other character by
    the full upper-case mapping of the Unicode tables; a character the
    tables map to itself keeps its bytes. *)
Definition upper_bytes (py : Python) (c : N * list ascii) : list ascii :=
  let '(n, bytes) := c in
  if (n <? 128)%N then map upper_char bytes
  else if eqb_codes (unicode_upper py n) [n] then bytes
  else flat_map utf8_encode (unicode_upper py n).

Definition upper (py : Python) (s : string) : string :=
  string_of_list_ascii (flat_map (upper_bytes py) (chars_of s)).

(** [sep.join(parts)] *)
Fixpoint join (sep : string) (parts : list string) : string :=
  match parts with
  | [] => ""
  | [p] => p
  | p :: ps => p ++ sep ++ join sep ps
  end.

(** [s.endswith(suffix)] *)
Definition endswith (s suffix : string) : bool :=
  let n := String.length s in
  let m := String.length suffix in
  (m <=? n)%nat && String.eqb (substring (n - m) m s) suffix.

(* ================================================================== *)
(** ** Numbers written in text *)

Definition digit_val (c : ascii) : option Z :=
  let n := ord c in
  if ((48 <=? n) && (n <=? 57))%N then Some (Z.of_N (n - 48)) else None.

Definition digits_value (ds : list Z) : Z :=
  fold_left (fun acc d => 10 * acc + d) ds 0.

(** The longest run of digits at the head of the text. *)
Fixpoint take_digits (s : list ascii) : list Z * list ascii :=
  match s with
  | c :: r =>
      match digit_val c with
      | Some d => let '(ds, r') := take_digits r in (d :: ds, r')
      | None => ([], s)
      end
  | [] => ([], [])
  end.

(** Python's [digitpart]: digits, each pair possibly separated by one
    underscore. *)
Fixpoint digit_run_tail (s : list ascii) : list Z * list ascii :=
  match s with
  | c :: r =>
      match digit_val c with
      | Some d => let '(ds, r') := digit_run_tail r in (d :: ds, r')
      | None =>
          if Ascii.eqb c "_" then
            match r with
            | c2 :: r2 =>
                match digit_val c2 with
                | Some d => let '(ds, r') := digit_run_tail r2 in (d :: ds, r')
                | None => ([], s)
                end
            | [] => ([], s)
            end
          else ([], s)
      end
  | [] => ([], [])
  end.

Definition digit_run (s : list ascii) : option (list Z * list ascii) :=
  match s with
  | c :: _ =>
      match digit_val c with
      | Some _ => Some (digit_run_tail s)
      | None => None
      end
  | [] => None
  end.

Definition read_sign (s : list ascii) : bool * list ascii :=
  match s with
  | c :: r =>
      if Ascii.eqb c "-" then (true, r)
      else if Ascii.eqb c "+" then (false, r)
      else (false, s)
  | [] => (false, [])
  end.

Definition digit_char (d : Z) : ascii := chr (48 + Z.to_N d).

(** What [int] and [float] read of a [str]: ASCII as it is, any other
    white space as a space, any other decimal digit as the ASCII digit of
    its value, and anything else as a character no number contains. *)
Definition number_char (py : Python) (c : N * list ascii) : list ascii :=
  let '(n, bytes) := c in
  if (n <? 128)%N then bytes
  else if is_space n then [" "%char]
  else
    match unicode_decimal py n with
    | Some d => if (0 <=? d) && (d <=? 9) then [digit_char d] else ["?"%char]
    | None => ["?"%char]
    end.

Definition number_text (py : Python) (s : string) : list ascii :=
  flat_map (number_char py) (chars_of s).

(** The white space [int] and [float] skip around the number. *)
Definition is_c_space (c : ascii) : bool :=
  let n := ord c in ((9 <=? n) && (n <=? 13) || (n =? 32))%N.

Fixpoint c_lstrip (s : list ascii) : list ascii :=
  match s with
  | c :: r => if is_c_space c then c_lstrip r else s
  | [] => []
  end.

Definition c_strip (s : list ascii) : list ascii :=
  rev (c_lstrip (rev (c_lstrip s))).

(** The limit on the digits of an integer literal; the interpreter checks
    it on literals of more than 640 digits. *)
Definition too_many_digits (py : Python) (digits : nat) : bool :=
  let limit := int_max_str_digits py in
  ((640 <? N.of_nat digits) && negb (limit =? 0) && (limit <? N.of_nat digits))%N.

Definition digits_limit_message (py : Python) (digits : nat) : string :=
  "Exceeds the limit (" ++ NilZero.string_of_uint (N.to_uint (int_max_str_digits py))
    ++ " digits) for integer string conversion: value has "
    ++ NilZero.string_of_uint (Nat.to_uint digits)
    ++ " digits; use sys.set_int_max_str_digits() to increase the limit".

Inductive int_literal : Type :=
| IntValue (z : Z)
| IntInvalid
| IntTooLong (digits : nat).

(** The text accepted by [int(s)] in base 10, and its value. *)
Definition int_of_string (py : Python) (s : string) : int_literal :=
  let '(neg, r) := read_sign (c_strip (number_text py s)) in
  match digit_run r with
  | Some (ds, rest) =>
      if too_many_digits py (List.length ds) then IntTooLong (List.length ds)
      else
        match rest with
        | [] => IntValue (if neg then - digits_value ds else digits_value ds)
        | _ => IntInvalid
        end
  | None => IntInvalid
  end.

(** The float of a decimal literal: sign, integer digits, fraction digits
    and exponent.  The exact value [m * 10 ** e] is rounded once; exponents
    far outside the range of binary64 are decided without computing the
    power. *)
Definition decimal_float (neg : bool) (ds fs : list Z) (e : Z) : pyfloat :=
  let m := digits_value (ds ++ fs) in
  let len := Z.of_nat (List.length (ds ++ fs)) in
  let e' := e - Z.of_nat (List.length fs) in
  if m =? 0 then (if neg then NegZero else Fin 0)
  else if 400 <? e' then Inf neg
  else if e' <? - (400 + len) then (if neg then NegZero else Fin 0)
  else
    b64_signed neg
      (if 0 <=? e' then inject_Z (m * 10 ^ e') else m # Z.to_pos (10 ^ (- e'))).

(** An optional exponent part after a mantissa: [None] when a marker is
    there without digits. *)
Definition read_exponent (s : list ascii) : option (Z * list ascii) :=
  match s with
  | c :: r =>
      if Ascii.eqb (lower_char c) "e" then
        let '(neg, r1) := read_sign r in
        match digit_run r1 with
        | Some (es, r2) =>
            Some (if neg then - digits_value es else digits_value es, r2)
        | None => None
        end
      else Some (0, s)
  | [] => Some (0, [])
  end.

Definition lower_chars (s : list ascii) : string :=
  string_of_list_ascii (map lower_char s).

(** The text accepted by [float(s)], and its value. *)
Definition float_of_string (py : Python) (s : string) : option pyfloat :=
  let '(neg, r) := read_sign (c_strip (number_text py s)) in
  let word := lower_chars r in
  if String.eqb word "inf" || String.eqb word "infinity" then Some (Inf neg)
  else if String.eqb word "nan" then Some NaN
  else
    let '(ds, r1) := match digit_run r with Some p => p | None => ([], r) end in
    let '(fs, r2) :=
      match r1 with
      | c :: r1' =>
          if Ascii.eqb c "." then
            match digit_run r1' with Some p => p | None => ([], r1') end
          else ([], r1)
      | [] => ([], [])
      end in
    match ds, fs with
    | [], [] => None
    | _, _ =>
        match read_exponent r2 with
        | Some (e, []) => Some (decimal_float neg ds fs e)
        | _ => None
        end
    end.

(* ================================================================== *)
(** ** Built-in conversions of Python values *)

Definition string_of_Z (z : Z) : string := NilZero.string_of_int (Z.to_int z).

Definition hex_char (d : N) : ascii :=
  if (d <? 10)%N then chr (48 + d) else chr (87 + d).

(** [10 ** e] for an integer exponent of either sign. *)
Definition pow10 (e : Z) : Q :=
  if 0 <=? e then inject_Z (10 ^ e) else 1 # Z.to_pos (10 ^ (- e)).

(** The position [p] of the decimal point of a positive [q]:
    [10 ** (p - 1) <= q < 10 ** p]. *)
Definition decimal_point (q : Q) : Z :=
  let p0 := (ilog2 (Z.to_pos (Qnum q)) (Qden q) * 30103) / 100000 in
  if negb (Qle_bool (pow10 p0) q) then p0
  else if negb (Qle_bool (pow10 (p0 + 1)) q) then p0 + 1
  else p0 + 2.

(** Whether the decimal [k * 10 ** e] reads back as the float of value [q]. *)
Definition reads_back (q : Q) (k e : Z) : bool :=
  match b64 (inject_Z k * pow10 e) with
  | Fin v => Qeq_bool v q
  | _ => false
  end.

(** The decimal of [n] digits that reads back as [q], if there is one: the
    one below [q] or the one above, and the nearer when both do. *)
Definition shortest_try (q : Q) (p n : Z) : option Z :=
  let e := p - n in
  let x := (q * pow10 (- e))%Q in
  let lo := Qfloor x in
  let hi := lo + 1 in
  match reads_back q lo e, reads_back q hi e with
  | true, true =>
      match (x - inject_Z lo ?= 1 # 2)%Q with
      | Lt => Some lo
      | Gt => Some hi
      | Eq => Some (if Z.even lo then lo else hi)
      end
  | true, false => Some lo
  | false, true => Some hi
  | false, false => None
  end.

Fixpoint shortest_from (fuel : nat) (q : Q) (p n : Z) : Z * Z :=
  match fuel with
  | O => (Qfloor (q * pow10 (n - p)), n)
  | S fuel' =>
      match shortest_try q p n with
      | Some k => (k, n)
      | None => shortest_from fuel' q p (n + 1)
      end
  end.

Fixpoint strip_trailing_zeros (rev_digits : list ascii) : list ascii :=
  match rev_digits with
  | c :: r => if Ascii.eqb c "0" then strip_trailing_zeros r else rev_digits
  | [] => []
  end.

(** The shortest digits that read back as the positive float of value [q],
    and the position of the decimal point before them. *)
Definition shortest_digits (q : Q) : list ascii * Z :=
  let p := decimal_point q in
  let '(k, n) := shortest_from 17 q p 1 in
  let ds := list_ascii_of_string (string_of_Z k) in
  (rev (strip_trailing_zeros (rev ds)), p - n + Z.of_nat (List.length ds)).

Definition zeros (n : Z) : list ascii := repeat "0"%char (Z.to_nat n).

Definition two_digits (z : Z) : string :=
  if z <? 10 then "0" ++ string_of_Z z else string_of_Z z.

(** [repr] of a positive float from its shortest digits: positional when
    the decimal point falls within [-4 < p <= 16], with an exponent
    otherwise. *)
Definition format_digits (ds : list ascii) (p : Z) : string :=
  let len := Z.of_nat (List.length ds) in
  if (- 4 <? p) && (p <=? 16) then
    if p <=? 0 then "0." ++ string_of_list_ascii (zeros (- p) ++ ds)
    else if len <=? p then string_of_list_ascii (ds ++ zeros (p - len)) ++ ".0"
    else string_of_list_ascii (firstn (Z.to_nat p) ds) ++ "."
           ++ string_of_list_ascii (skipn (Z.to_nat p) ds)
  else
    let x := p - 1 in
    string_of_list_ascii (firstn 1 ds)
      ++ (match skipn 1 ds with
          | [] => ""
          | rest => "." ++ string_of_list_ascii rest
          end)
      ++ "e" ++ (if x <? 0 then "-" else "+") ++ two_digits (Z.abs x).

(** [repr] of a float: the shortest decimal that reads back as it. *)
Definition float_repr (f : pyfloat) : string :=
  match f with
  | Fin q =>
      if Qeq_bool q 0 then "0.0"
      else
        let '(ds, p) := shortest_digits (Qabs q) in
        (if Qnum q <? 0 then "-" else "") ++ format_digits ds p
  | NegZero => "-0.0"
  | Inf false => "inf"
  | Inf true => "-inf"
  | NaN => "nan"
  end.

Fixpoint contains_char (c : ascii) (s : string) : bool :=
  match s with
  | EmptyString => false
  | String c' r => Ascii.eqb c c' || contains_char c r
  end.

Fixpoint hex_string (width : nat) (n : N) : string :=
  match width with
  | O => ""
  | S w => hex_string w (n / 16) ++ String (hex_char (n mod 16)) ""
  end.

Definition repr_char (py : Python) (quote : ascii) (c : N * list ascii) : string :=
  let '(n, bytes) := c in
  (if n =? 92 then String backslash (String backslash "")
   else if n =? ord quote then String backslash (String quote "")
   else if n =? 10 then "\n"
   else if n =? 13 then "\r"
   else if n =? 9 then "\t"
   else if (n <? 32) || (n =? 127) then "\x" ++ hex_string 2 n
   else if n <? 128 then string_of_list_ascii bytes
   else if unicode_printable py n then string_of_list_ascii bytes
   else if n <? 256 then "\x" ++ hex_string 2 n
   else if n <? 65536 then "\u" ++ hex_string 4 n
   else "\U" ++ hex_string 8 n)%N%string.

(** [repr] of a [str]: single quotes unless the text has an apostrophe and
    no double quote. *)
Definition str_repr (py : Python) (s : string) : string :=
  let quote :=
    if contains_char squote s && negb (contains_char dquote s)
    then dquote else squote in
  String quote
    (String.concat "" (map (repr_char py quote) (chars_of s)) ++ String quote "").

Fixpoint py_repr (py : Python) (v : pyval) : string :=
  match v with
  | PNone => "None"
  | PBool true => "True"
  | PBool false => "False"
  | PInt z => string_of_Z z
  | PFloat f => float_repr f
  | PStr s => str_repr py s
  | PList l => "[" ++ join ", " (map (py_repr py) l) ++ "]"
  | PDict d =>
      "{" ++ join ", "
               (map (fun '(k, x) => (str_repr py k ++ ": " ++ py_repr py x)%string) d)
          ++ "}"
  end.

(** [str(v)] *)
Definition py_str (py : Python) (v : pyval) : string :=
  match v with
  | PStr s => s
  | _ => py_repr py v
  end.

(** [type(v).__name__] *)
Definition type_name (v : pyval) : string :=
  match v with
  | PNone => "NoneType"
  | PBool _ => "bool"
  | PInt _ => "int"
  | PFloat _ => "float"
  | PStr _ => "str"
  | PList _ => "list"
  | PDict _ => "dict"
  end.

(** [bool(v)] *)
Definition py_truthy (v : pyval) : bool :=
  match v with
  | PNone => false
  | PBool b => b
  | PInt z => negb (z =? 0)
  | PFloat f => negb (is_zero f)
  | PStr s => negb (String.eqb s "")
  | PList l => match l with [] => false | _ => true end
  | PDict d => match d with [] => false | _ => true end
  end.

(** [int(v)]: truncation toward zero on floats. *)
Definition py_int (py : Python) (v : pyval) : result Z :=
  match v with
  | PInt z => Ok z
  | PBool b => Ok (if b then 1 else 0)
  | PFloat (Fin q) => Ok (Z.quot (Qnum q) (Zpos (Qden q)))
  | PFloat NegZero => Ok 0
  | PFloat (Inf _) =>
      Raise (OverflowError "cannot convert float infinity to integer")
  | PFloat NaN => Raise (ValueError "cannot convert float NaN to integer")
  | PStr s =>
      match int_of_string py s with
      | IntValue z => Ok z
      | IntInvalid =>
          Raise (ValueError ("invalid literal for int() with base 10: "
                               ++ str_repr py s))
      | IntTooLong digits => Raise (ValueError (digits_limit_message py digits))
      end
  | PNone | PList _ | PDict _ =>
      Raise (TypeError ("int() argument must be a string, a bytes-like object or a real number, not '"
                          ++ type_name v ++ "'"))
  end.

(** [float(v)] *)
Definition py_float (py : Python) (v : pyval) : result pyfloat :=
  match v with
  | PFloat f => Ok f
  | PInt z => float_of_int z
  | PBool b => Ok (Fin (inject_Z (if b then 1 else 0)))
  | PStr s =>
      match float_of_string py s with
      | Some f => Ok f
      | None =>
          Raise (ValueError ("could not convert string to float: "
                               ++ str_repr py s))
      end
  | PNone | PList _ | PDict _ =>
      Raise (TypeError ("float() argument must be a string or a real number, not '"
                          ++ type_name v ++ "'"))
  end.

(* ================================================================== *)
(** ** [json.loads]

    The decoder of the standard library for the grammar it accepts,
    including its [NaN], [Infinity] and [-Infinity] literals.  Text is
    read as UTF-8 bytes; a [\u] escape is stored as the UTF-8 encoding of
    its code point.  A document that is not well formed ends in
    [JSONDecodeError]; an integer literal with more digits than the
    interpreter converts ends in [ValueError], and a document nested deeper
    than the interpreter has stack for in [RecursionError]: these two are
    not [JSONDecodeError]s. *)

Inductive parse (A : Type) : Type :=
| Parsed (a : A) (rest : list ascii)
| Malformed
| Failed (e : exn).
Arguments Parsed {A} a rest.
Arguments Malformed {A}.
Arguments Failed {A} e.

Definition hex_val (c : ascii) : option N :=
  let n := ord c in
  (if (48 <=? n) && (n <=? 57) then Some (n - 48)
   else if (97 <=? n) && (n <=? 102) then Some (n - 87)
   else if (65 <=? n) && (n <=? 70) then Some (n - 55)
   else None)%N.

Definition hex4 (s : list ascii) : option (N * list ascii) :=
  match s with
  | a :: b :: c :: d :: r =>
      match hex_val a, hex_val b, hex_val c, hex_val d with
      | Some x, Some y, Some z, Some w =>
          Some (((x * 16 + y) * 16 + z) * 16 + w, r)%N
      | _, _, _, _ => None
      end
  | _ => None
  end.

Definition simple_escape (e : ascii) : option ascii :=
  if Ascii.eqb e dquote then Some dquote
  else if Ascii.eqb e backslash then Some backslash
  else if Ascii.eqb e "/" then Some "/"%char
  else if Ascii.eqb e "b" then Some (chr 8)
  else if Ascii.eqb e "f" then Some (chr 12)
  else if Ascii.eqb e "n" then Some (chr 10)
  else if Ascii.eqb e "r" then Some (chr 13)
  else if Ascii.eqb e "t" then Some (chr 9)
  else None.

(** The low half of a surrogate pair that follows a high half [u]. *)
Definition low_surrogate (u : N) (s : list ascii) : option (N * list ascii) :=
  if ((55296 <=? u) && (u <=? 56319))%N then
    match s with
    | b :: c :: r =>
        if Ascii.eqb b backslash && Ascii.eqb c "u" then
          match hex4 r with
          | Some (u2, r') =>
              if ((56320 <=? u2) && (u2 <=? 57343))%N
              then Some (65536 + ((u - 55296) * 1024 + (u2 - 56320)), r')%N
              else None
          | None => None
          end
        else None
    | _ => None
    end
  else None.

(** The body of a string, after its opening quote. *)
Fixpoint scan_string (fuel : nat) (s acc : list ascii) : option (string * list ascii) :=
  match fuel with
  | O => None
  | S fuel' =>
      match s with
      | [] => None
      | c :: r =>
          if Ascii.eqb c dquote then Some (string_of_list_ascii (rev acc), r)
          else if Ascii.eqb c backslash then
            match r with
            | [] => None
            | e :: r' =>
                if Ascii.eqb e "u" then
                  match hex4 r' with
                  | None => None
                  | Some (u, r2) =>
                      match low_surrogate u r2 with
                      | Some (cp, r4) =>
                          scan_string fuel' r4 (rev (utf8_encode cp) ++ acc)
                      | None =>
                          scan_string fuel' r2 (rev (utf8_encode u) ++ acc)
                      end
                  end
                else
                  match simple_escape e with
                  | Some ch => scan_string fuel' r' (ch :: acc)
                  | None => None
                  end
            end
          else if (ord c <? 32)%N then None
          else scan_string fuel' r (c :: acc)
      end
  end.

Definition json_string (s : list ascii) : option (string * list ascii) :=
  scan_string (S (List.length s)) s [].

Definition is_json_ws (c : ascii) : bool :=
  let n := ord c in ((n =? 32) || (n =? 9) || (n =? 10) || (n =? 13))%N.

Fixpoint skip_ws (s : list ascii) : list ascii :=
  match s with
  | c :: r => if is_json_ws c then skip_ws r else s
  | [] => []
  end.

Fixpoint strip_prefix (p : list ascii) (s : list ascii) : option (list ascii) :=
  match p, s with
  | [], _ => Some s
  | a :: p', b :: s' => if Ascii.eqb a b then strip_prefix p' s' else None
  | _ :: _, [] => None
  end.

Definition keyword (w : string) (s : list ascii) : option (list ascii) :=
  strip_prefix (list_ascii_of_string w) s.

(** A number: an optional minus, then a zero or a digit run without
    leading zero, then optionally a point with one digit or more, then
    optionally an exponent marker, sign and one digit or more.  A fraction
    or exponent that lacks its digits is not part of the number.  The value
    is an [int] unless it has a fraction or an exponent. *)
Definition json_number (py : Python) (s : list ascii) : parse pyval :=
  let '(neg, r) :=
    match s with
    | c :: r => if Ascii.eqb c "-" then (true, r) else (false, s)
    | [] => (false, s)
    end in
  match r with
  | [] => Malformed
  | c :: r1 =>
      match digit_val c with
      | None => Malformed
      | Some d =>
          let '(ds, r2) :=
            if d =? 0 then ([0], r1)
            else let '(t, r2) := take_digits r1 in (d :: t, r2) in
          let '(fs, r3) :=
            match r2 with
            | c :: r2' =>
                if Ascii.eqb c "." then
                  match take_digits r2' with
                  | ([], _) => ([], r2)
                  | p => p
                  end
                else ([], r2)
            | [] => ([], r2)
            end in
          let '(ex, r4) :=
            match r3 with
            | c :: r3' =>
                if Ascii.eqb (lower_char c) "e" then
                  let '(eneg, r3'') := read_sign r3' in
                  match take_digits r3'' with
                  | ([], _) => (None, r3)
                  | (es, r4) =>
                      (Some (if eneg then - digits_value es else digits_value es), r4)
                  end
                else (None, r3)
            | [] => (None, r3)
            end in
          match fs, ex with
          | [], None =>
              if too_many_digits py (List.length ds)
              then Failed (ValueError (digits_limit_message py (List.length ds)))
              else Parsed (PInt (if neg then - digits_value ds else digits_value ds)) r4
          | _, _ =>
              Parsed (PFloat (decimal_float neg ds fs
                                (match ex with Some e => e | None => 0 end))) r4
          end
      end
  end.

(** [dict(pairs)]: a later duplicate key replaces the value in place. *)
Definition dict_of_pairs (pairs : list (string * pyval)) : pydict :=
  fold_left (fun d '(k, v) => dict_set d k v) pairs [].

Definition too_deep (container : string) : exn :=
  RecursionError ("maximum recursion depth exceeded while decoding a JSON "
                    ++ container ++ " from a unicode string").

(** One value.  [depth] is the number of containers that may still be
    entered; the scanner checks it as it enters an object or an array. *)
Fixpoint json_value (py : Python) (fuel depth : nat) (s : list ascii) {struct fuel}
  : parse pyval :=
  match fuel with
  | O => Malformed
  | S fuel' =>
      match s with
      | [] => Malformed
      | c :: r =>
          if Ascii.eqb c dquote then
            match json_string r with
            | Some (str, r') => Parsed (PStr str) r'
            | None => Malformed
            end
          else if Ascii.eqb c "{" then
            match depth with
            | O => Failed (too_deep "object")
            | S depth' =>
                match skip_ws r with
                | c' :: r' =>
                    if Ascii.eqb c' "}" then Parsed (PDict []) r'
                    else
                      match json_members py fuel' depth' (c' :: r') with
                      | Parsed pairs r'' => Parsed (PDict (dict_of_pairs pairs)) r''
                      | Malformed => Malformed
                      | Failed e => Failed e
                      end
                | [] => Malformed
                end
            end
          else if Ascii.eqb c "[" then
            match depth with
            | O => Failed (too_deep "array")
            | S depth' =>
                match skip_ws r with
                | c' :: r' =>
                    if Ascii.eqb c' "]" then Parsed (PList []) r'
                    else
                      match json_elements py fuel' depth' (c' :: r') with
                      | Parsed vs r'' => Parsed (PList vs) r''
                      | Malformed => Malformed
                      | Failed e => Failed e
                      end
                | [] => Malformed
                end
            end
          else
            match keyword "null" s, keyword "true" s, keyword "false" s with
            | Some r', _, _ => Parsed PNone r'
            | _, Some r', _ => Parsed (PBool true) r'
            | _, _, Some r' => Parsed (PBool false) r'
            | None, None, None =>
                match json_number py s with
                | Parsed v r' => Parsed v r'
                | Failed e => Failed e
                | Malformed =>
                    match keyword "NaN" s, keyword "Infinity" s,
                          keyword "-Infinity" s with
                    | Some r', _, _ => Parsed (PFloat NaN) r'
                    | _, Some r', _ => Parsed (PFloat (Inf false)) r'
                    | _, _, Some r' => Parsed (PFloat (Inf true)) r'
                    | None, None, None => Malformed
                    end
                end
            end
      end
  end

(** The elements of an array, from its first value to the closing bracket. *)
with json_elements (py : Python) (fuel depth : nat) (s : list ascii) {struct fuel}
  : parse (list pyval) :=
  match fuel with
  | O => Malformed
  | S fuel' =>
      match json_value py fuel' depth s with
      | Malformed => Malformed
      | Failed e => Failed e
      | Parsed v r =>
          match skip_ws r with
          | c :: r' =>
              if Ascii.eqb c "]" then Parsed [v] r'
              else if Ascii.eqb c "," then
                match json_elements py fuel' depth (skip_ws r') with
                | Parsed vs r'' => Parsed (v :: vs) r''
                | Malformed => Malformed
                | Failed e => Failed e
                end
              else Malformed
          | [] => Malformed
          end
      end
  end

(** The members of an object, from the quote of its first key to the
    closing brace. *)
with json_members (py : Python) (fuel depth : nat) (s : list ascii) {struct fuel}
  : parse (list (string * pyval)) :=
  match fuel with
  | O => Malformed
  | S fuel' =>
      match s with
      | c :: r =>
          if Ascii.eqb c dquote then
            match json_string r with
            | None => Malformed
            | Some (k, r1) =>
                match skip_ws r1 with
                | c1 :: r2 =>
                    if Ascii.eqb c1 ":" then
                      match json_value py fuel' depth (skip_ws r2) with
                      | Malformed => Malformed
                      | Failed e => Failed e
                      | Parsed v r3 =>
                          match skip_ws r3 with
                          | c3 :: r4 =>
                              if Ascii.eqb c3 "}" then Parsed [(k, v)] r4
                              else if Ascii.eqb c3 "," then
                                match json_members py fuel' depth (skip_ws r4) with
                                | Parsed ps r5 => Parsed ((k, v) :: ps) r5
                                | Malformed => Malformed
                                | Failed e => Failed e
                                end
                              else Malformed
                          | [] => Malformed
                          end
                      end
                    else Malformed
                | [] => Malformed
                end
            end
          else Malformed
      | [] => Malformed
      end
  end.

(** The error of a document that is not well formed.  [generate] catches
    it and drops it, so that its message is never seen: one message stands
    for all of them. *)
Definition not_json : exn := JSONDecodeError "Expecting value".

(** [json.loads(text)]: one value between optional whitespace, nothing
    after it. *)
Definition json_loads (py : Python) (text : string) : result pyval :=
  let s := list_ascii_of_string text in
  match json_value py (2 * List.length s + 2) (json_depth py) (skip_ws s) with
  | Parsed v r => match skip_ws r with [] => Ok v | _ => Raise not_json end
  | Malformed => Raise not_json
  | Failed e => Raise e
  end.

(* ================================================================== *)
(** ** [json.dumps] (default options: ASCII output, [", "] and [": "]) *)

Definition hex4_string (n : N) : string := hex_string 4 n.

Definition json_escape (cp : N) : string :=
  (if cp =? 34 then String backslash (String dquote "")
   else if cp =? 92 then String backslash (String backslash "")
   else if cp =? 10 then "\n"
   else if cp =? 13 then "\r"
   else if cp =? 9 then "\t"
   else if cp =? 8 then "\b"
   else if cp =? 12 then "\f"
   else if (32 <=? cp) && (cp <=? 126) then String (chr cp) ""
   else if cp <? 65536 then ("\u" ++ hex4_string cp)%string
   else
     let v := cp - 65536 in
     ("\u" ++ hex4_string (55296 + v / 1024)
        ++ "\u" ++ hex4_string (56320 + v mod 1024))%string)%N.

Definition json_quote (s : string) : string :=
  String dquote
    (String.concat "" (map json_escape (utf8_decode (list_ascii_of_string s)))
       ++ String dquote "").

Definition json_float (f : pyfloat) : string :=
  match f with
  | Fin _ | NegZero => float_repr f
  | Inf false => "Infinity"
  | Inf true => "-Infinity"
  | NaN => "NaN"
  end.

Fixpoint json_dumps (v : pyval) : string :=
  match v with
  | PNone => "null"
  | PBool true => "true"
  | PBool false => "false"
  | PInt z => string_of_Z z
  | PFloat f => json_float f
  | PStr s => json_quote s
  | PList l => "[" ++ join ", " (map json_dumps l) ++ "]"
  | PDict d =>
      "{" ++ join ", "
               (map (fun '(k, x) => (json_quote k ++ ": " ++ json_dumps x)%string) d)
          ++ "}"
  end.

(* ================================================================== *)
(** ** What a run returns and what the page shows *)

Record result_entry : Type := {
  e_prompt_id : string;
  e_prompt_name : string;
  e_prompt_version : Z;
  e_score : Z;
  e_rating : string;
  e_target_buy_price : pyfloat;
  e_rationale : pyval
}.

Record summary : Type := {
  s_average_score : pyfloat;
  s_final_rating : string;
  s_final_target_price : pyfloat
}.

(** The variables handed to the page template. *)
Record page : Type := {
  page_results : option (list result_entry);
  page_summary : option summary;
  page_ticker : option string;
  page_error : option string
}.

(* ================================================================== *)
(** ** The outside world

    [Env] holds what the program reads from outside: the interpreter, the
    process environment, the prompts directory, and the answers of the
    libraries and services it calls (the [n]-th reply of the chat endpoint,
    the [n]-th random draw, UUID and clock reading, Jinja2, jsonschema,
    Flask's page rendering, SQLite's text form of a real).  [world] is what
    a run changes: the database, and the record of what was done in which
    order. *)

(** A file of the prompts directory: what reading it as text gives, and
    what [yaml.safe_load] makes of it. *)
Record file : Type := {
  file_text : result string;
  file_yaml : result pyval
}.

Record Env : Type := {
  env_python : Python;
  env_OPENAI_API_KEY : option string;
  env_openai_installed : bool;
  env_chat_completion : nat -> string -> result string;
  env_jinja_render : string -> pydict -> result string;
  env_validate : pyval -> pyval -> result unit;
  env_random : nat -> Z;
  env_uuid4 : nat -> string;
  env_utcnow : nat -> string;
  env_prompts_path : string;
  env_prompts_exists : bool;
  env_prompts_dir : list (string * file);
  env_sqlite_real_text : pyfloat -> string;
  env_render_template : string -> page -> result string
}.

(** Rows of the two tables of [database.py], as a [SELECT] returns them:
    a column holds what its declared affinity makes of the bound value. *)
Record run_row : Type := {
  run_id : string;
  run_ticker : string;
  run_context_json : string;
  run_started_at : string;
  run_finished_at : option string;
  run_average_score : option pyfloat;
  run_final_rating : option string;
  run_final_target_price : option pyfloat
}.

Record prompt_result_row : Type := {
  pr_id : Z;
  pr_run_id : string;
  pr_prompt_id : string;
  pr_prompt_version : Z;
  pr_prompt_name : string;
  pr_score : Z;
  pr_rating : string;
  pr_target_buy_price : option pyfloat;
  pr_rationale : option string;
  pr_raw_response : option string;
  pr_created_at : string
}.

Record database : Type := {
  runs : list run_row;
  prompt_results : list prompt_result_row;
  last_id : Z
}.

(** What a run does that can be seen from outside, in the order it is
    done. *)
Inductive event : Type :=
| EvPrint (line : string)
| EvRender (template : string)
| EvChat (rendered : string)
| EvStartRun (run : string)
| EvSavePromptResult (run prompt : string)
| EvFinishRun (run : string).

Record world : Type := {
  db : database;
  trace : list event;
  chat_used : nat;
  random_used : nat;
  uuid_used : nat;
  clock_used : nat
}.

Definition empty_db : database :=
  {| runs := []; prompt_results := []; last_id := 0 |}.

Definition initial_world : world :=
  {| db := empty_db; trace := []; chat_used := 0; random_used := 0;
     uuid_used := 0; clock_used := 0 |}.

Definition set_db (d : database) (w : world) : world :=
  {| db := d; trace := trace w; chat_used := chat_used w;
     random_used := random_used w; uuid_used := uuid_used w;
     clock_used := clock_used w |}.

Definition log_event (e : event) (w : world) : world :=
  {| db := db w; trace := trace w ++ [e]; chat_used := chat_used w;
     random_used := random_used w; uuid_used := uuid_used w;
     clock_used := clock_used w |}.

(** ** The state-and-exception monad *)

Definition M (A : Type) : Type := world -> result A * world.

Definition ret {A} (a : A) : M A := fun w => (Ok a, w).

Definition bind {A B} (m : M A) (k : A -> M B) : M B :=
  fun w =>
    match m w with
    | (Ok a, w') => k a w'
    | (Raise e, w') => (Raise e, w')
    end.

Definition raise {A} (e : exn) : M A := fun w => (Raise e, w).

Definition lift {A} (r : result A) : M A := fun w => (r, w).

(** [try: m except Exception as e: handler e] *)
Definition try_except {A} (m : M A) (handler : exn -> M A) : M A :=
  fun w =>
    match m w with
    | (Ok a, w') => (Ok a, w')
    | (Raise e, w') => handler e w'
    end.

Definition emit (e : event) : M unit := fun w => (Ok tt, log_event e w).

(** [print(line)] *)
Definition print (line : string) : M unit := emit (EvPrint line).

Declare Scope monad_scope.
Delimit Scope monad_scope with M.
Notation "x <- m ;; k" := (bind m (fun x => k))
  (at level 61, m at next level, right associativity) : monad_scope.
Notation "' pat <- m ;; k" := (bind m (fun x => match x with pat => k end))
  (at level 61, pat pattern, m at next level, right associativity) : monad_scope.
Notation "m ;;; k" := (bind m (fun _ => k))
  (at level 61, right associativity) : monad_scope.

(** [str(exc)] *)
Definition exn_str (e : exn) : string :=
  match e with
  | RuntimeError m | RecursionError m | ValueError m | JSONDecodeError m
  | UnicodeEncodeError m | TypeError m | AttributeError m
  | OverflowError m | ZeroDivisionError m | IndexError m
  | FileNotFoundError m | OSError m | YAMLError m | TemplateError m
  | ValidationError m | SchemaError m | KeyError m | AssertionError m
  | IntegrityError m | ProgrammingError m | BackendError m => m
  end.

Section Program.

Variable env : Env.

#[local] Open Scope monad_scope.

(** Reading the clock, the UUID source and the random generator: the next
    unused answer of the environment. *)
Definition utcnow_isoformat : M string :=
  fun w =>
    (Ok (env_utcnow env (clock_used w)),
     {| db := db w; trace := trace w; chat_used := chat_used w;
        random_used := random_used w; uuid_used := uuid_used w;
        clock_used := S (clock_used w) |}).

Definition uuid4 : M string :=
  fun w =>
    (Ok (env_uuid4 env (uuid_used w)),
     {| db := db w; trace := trace w; chat_used := chat_used w;
        random_used := random_used w; uuid_used := S (uuid_used w);
        clock_used := clock_used w |}).

Definition next_random : M Z :=
  fun w =>
    (Ok (env_random env (random_used w)),
     {| db := db w; trace := trace w; chat_used := chat_used w;
        random_used := S (random_used w); uuid_used := uuid_used w;
        clock_used := clock_used w |}).

(* ================================================================== *)
(** ** [models/database.py] *)

(** What [sqlite3] accepts as a bound parameter, and what the column keeps
    of it.  A [str] with a surrogate cannot be encoded; an [int] must fit
    64 bits; a NaN is stored as NULL and a negative zero reads back as
    [0.0]; a column of TEXT affinity keeps numbers as text.  The run identifier and the time stamps are the text
    of a UUID and of [isoformat()], which hold ASCII characters only: they
    are bound as they are. *)
Definition is_surrogate (n : N) : bool := ((55296 <=? n) && (n <=? 57343))%N.

Definition has_surrogate (s : string) : bool :=
  existsb (fun c => is_surrogate (fst c)) (chars_of s).

Fixpoint surrogate_run (cs : list (N * list ascii)) : nat :=
  match cs with
  | c :: r => if is_surrogate (fst c) then S (surrogate_run r) else O
  | [] => O
  end.

(** [str(exc)] of the error of the UTF-8 codec: it names the first run of
    surrogates of the text. *)
Fixpoint encode_error_at (pos : nat) (cs : list (N * list ascii)) : string :=
  match cs with
  | [] => ""
  | c :: r =>
      if is_surrogate (fst c) then
        match surrogate_run r with
        | O =>
            "'utf-8' codec can't encode character '\u" ++ hex_string 4 (fst c)
              ++ "' in position " ++ NilZero.string_of_uint (Nat.to_uint pos)
              ++ ": surrogates not allowed"
        | S n =>
            "'utf-8' codec can't encode characters in position "
              ++ NilZero.string_of_uint (Nat.to_uint pos) ++ "-"
              ++ NilZero.string_of_uint (Nat.to_uint (pos + S n))
              ++ ": surrogates not allowed"
        end
      else encode_error_at (S pos) r
  end.

Definition encode_error (s : string) : exn :=
  UnicodeEncodeError (encode_error_at 0 (chars_of s)).

Definition sqlite_str (s : string) : result string :=
  if has_surrogate s then Raise (encode_error s) else Ok s.

Definition sqlite_opt_str (s : option string) : result (option string) :=
  match s with
  | Some s => rbind (sqlite_str s) (fun s => Ok (Some s))
  | None => Ok None
  end.

Definition sqlite_int (z : Z) : result Z :=
  if (- 2 ^ 63 <=? z) && (z <? 2 ^ 63) then Ok z
  else Raise (OverflowError "Python int too large to convert to SQLite INTEGER").

Definition sqlite_real (f : pyfloat) : option pyfloat :=
  match f with
  | NaN => None
  | NegZero => Some (Fin 0)
  | _ => Some f
  end.

(** A value bound to a column of TEXT affinity. *)
Definition sqlite_text (v : pyval) : result (option string) :=
  match v with
  | PNone => Ok None
  | PStr s => rbind (sqlite_str s) (fun s => Ok (Some s))
  | PInt z => rbind (sqlite_int z) (fun z => Ok (Some (string_of_Z z)))
  | PBool b => Ok (Some (if b then "1" else "0"))
  | PFloat f =>
      Ok match sqlite_real f with
         | Some f => Some (env_sqlite_real_text env f)
         | None => None
         end
  | PList _ | PDict _ =>
      Raise (ProgrammingError
               ("Error binding parameter 8: type '" ++ type_name v
                  ++ "' is not supported"))
  end.

(** One statement in its own connection: the change is committed when the
    statement succeeds, and nothing is written when it raises. *)
Definition execute (stmt : database -> result database) (e : event) : M unit :=
  fun w =>
    match stmt (db w) with
    | Ok d => (Ok tt, log_event e (set_db d w))
    | Raise x => (Raise x, w)
    end.

Definition insert_run (rid ticker context_json started_at : string)
    (d : database) : result database :=
  rbind (sqlite_str ticker) (fun ticker =>
  rbind (sqlite_str context_json) (fun context_json =>
  if existsb (fun r => String.eqb (run_id r) rid) (runs d)
  then Raise (IntegrityError "UNIQUE constraint failed: runs.run_id")
  else Ok {| runs :=
               runs d ++
               [{| run_id := rid; run_ticker := ticker;
                   run_context_json := context_json;
                   run_started_at := started_at;
                   run_finished_at := None; run_average_score := None;
                   run_final_rating := None; run_final_target_price := None |}];
             prompt_results := prompt_results d;
             last_id := last_id d |})).

Definition start_run (ticker context_json : string) : M string :=
  run_id <- uuid4 ;;
  started_at <- utcnow_isoformat ;;
  execute (insert_run run_id ticker context_json started_at) (EvStartRun run_id) ;;;
  ret run_id.

Definition update_run (rid finished_at : string) (average_score : pyfloat)
    (final_rating : string) (final_target_price : pyfloat) (d : database)
  : result database :=
  rbind (sqlite_str final_rating) (fun final_rating =>
  Ok {| runs :=
          map (fun r =>
                 if String.eqb (run_id r) rid then
                   {| run_id := run_id r; run_ticker := run_ticker r;
                      run_context_json := run_context_json r;
                      run_started_at := run_started_at r;
                      run_finished_at := Some finished_at;
                      run_average_score := sqlite_real average_score;
                      run_final_rating := Some final_rating;
                      run_final_target_price := sqlite_real final_target_price |}
                 else r)
              (runs d);
        prompt_results := prompt_results d;
        last_id := last_id d |}).

Definition finish_run (run_id : string) (average_score : pyfloat)
    (final_rating : string) (final_target_price : pyfloat) : M unit :=
  finished_at <- utcnow_isoformat ;;
  execute
    (update_run run_id finished_at average_score final_rating final_target_price)
    (EvFinishRun run_id).

Definition insert_prompt_result (run_id prompt_id : string) (prompt_version : Z)
    (prompt_name : string) (score : Z) (rating : string)
    (target_buy_price : pyfloat) (rationale : pyval)
    (raw_response : option string) (created_at : string) (d : database)
  : result database :=
  rbind (sqlite_str prompt_id) (fun prompt_id =>
  rbind (sqlite_int prompt_version) (fun prompt_version =>
  rbind (sqlite_str prompt_name) (fun prompt_name =>
  rbind (sqlite_int score) (fun score =>
  rbind (sqlite_str rating) (fun rating =>
  rbind (sqlite_text rationale) (fun rationale =>
  rbind (sqlite_opt_str raw_response) (fun raw_response =>
  Ok {| runs := runs d;
        prompt_results :=
          prompt_results d ++
          [{| pr_id := last_id d + 1; pr_run_id := run_id;
              pr_prompt_id := prompt_id; pr_prompt_version := prompt_version;
              pr_prompt_name := prompt_name; pr_score := score;
              pr_rating := rating;
              pr_target_buy_price := sqlite_real target_buy_price;
              pr_rationale := rationale; pr_raw_response := raw_response;
              pr_created_at := created_at |}];
        last_id := last_id d + 1 |}))))))).

Definition save_prompt_result (run_id prompt_id : string) (prompt_version : Z)
    (prompt_name : string) (score : Z) (rating : string)
    (target_buy_price : pyfloat) (rationale : pyval)
    (raw_response : option string) : M unit :=
  created_at <- utcnow_isoformat ;;
  execute
    (insert_prompt_result run_id prompt_id prompt_version prompt_name score
       rating target_buy_price rationale raw_response created_at)
    (EvSavePromptResult run_id prompt_id).

(** [ORDER BY id ASC] *)
Fixpoint insert_by_id (x : prompt_result_row) (l : list prompt_result_row)
  : list prompt_result_row :=
  match l with
  | [] => [x]
  | y :: l' => if pr_id x <? pr_id y then x :: l else y :: insert_by_id x l'
  end.

Definition order_by_id (l : list prompt_result_row) : list prompt_result_row :=
  fold_right insert_by_id [] l.

Definition get_prompt_results (run_id : string) : M (list prompt_result_row) :=
  fun w =>
    (Ok (order_by_id
           (filter (fun r => String.eqb (pr_run_id r) run_id)
                   (prompt_results (db w)))),
     w).

(* ================================================================== *)
(** ** [models/prompt_loader.py] *)

Record Prompt : Type := {
  prompt_id : string;
  name : string;
  version : Z;
  template : string;
  schema : pyval
}.

(** [d[k]] *)
Definition dict_item (d : pydict) (k : string) : result pyval :=
  match dict_get d k with
  | Some v => Ok v
  | None => Raise (KeyError (str_repr (env_python env) k))
  end.

Definition required : list string := ["prompt_id"; "name"; "version"; "template"].

Definition from_dict (data : pydict) : result Prompt :=
  match find (fun key => negb (dict_mem data key)) required with
  | Some key =>
      Raise (ValueError ("Missing required key '" ++ key ++ "' in prompt definition"))
  | None =>
      rbind (dict_item data "prompt_id") (fun prompt_id =>
      rbind (dict_item data "name") (fun name =>
      rbind (dict_item data "version") (fun version =>
      rbind (py_int (env_python env) version) (fun version =>
      rbind (dict_item data "template") (fun template =>
      Ok {| prompt_id := py_str (env_python env) prompt_id;
            name := py_str (env_python env) name;
            version := version;
            template := py_str (env_python env) template;
            schema := dict_get_default data "schema" PNone |})))))
  end.

Fixpoint assoc {A} (k : string) (l : list (string * A)) : option A :=
  match l with
  | [] => None
  | (k', a) :: l' => if String.eqb k' k then Some a else assoc k l'
  end.

(** [sorted(directory.glob("*" + suffix))]: the entries of the directory
    itself whose name ends with the suffix, by name. *)
Fixpoint insert_by_name (x : string * file) (l : list (string * file))
  : list (string * file) :=
  match l with
  | [] => [x]
  | y :: l' => if String.leb (fst x) (fst y) then x :: l else y :: insert_by_name x l'
  end.

Definition sorted_glob (suffix : string) : list (string * file) :=
  fold_right insert_by_name []
    (filter (fun '(n, _) => endswith n suffix && negb (contains_char "/" n))
            (env_prompts_dir env)).

(** The body of the [try] block of [load_prompts] for one file. *)
Definition load_file (file_name : string) (f : file) : result Prompt :=
  rbind (file_yaml f) (fun data =>
  match data with
  | PDict data =>
      let template_file := dict_get_default data "template_file" PNone in
      rbind
        (if py_truthy template_file then
           match template_file with
           | PStr tf =>
               match assoc tf (env_prompts_dir env) with
               | None =>
                   Raise (FileNotFoundError
                            ("Template file '" ++ tf ++ "' referenced in "
                               ++ file_name ++ " does not exist"))
               | Some t =>
                   rbind (file_text t) (fun text =>
                   Ok (dict_set data "template" (PStr text)))
               end
           | _ =>
               Raise (TypeError
                        ("unsupported operand type(s) for /: 'PosixPath' and '"
                           ++ type_name template_file ++ "'"))
           end
         else Ok data)
        (fun data => from_dict data)
  | _ =>
      Raise (ValueError ("YAML file " ++ file_name
                           ++ " must contain a mapping at top level"))
  end).

Fixpoint load_files (files : list (string * file)) (prompts : list Prompt)
  : M (list Prompt) :=
  match files with
  | [] => ret prompts
  | (file_name, f) :: rest =>
      prompts <-
        try_except
          (prompt <- lift (load_file file_name f) ;; ret (prompts ++ [prompt]))
          (fun exc =>
             print ("Error loading prompt from " ++ env_prompts_path env ++ "/"
                      ++ file_name ++ ": " ++ exn_str exc) ;;;
             ret prompts) ;;
      load_files rest prompts
  end.

Definition load_prompts : M (list Prompt) :=
  if negb (env_prompts_exists env) then ret []
  else load_files (sorted_glob ".yml" ++ sorted_glob ".yaml") [].

(* ================================================================== *)
(** ** [models/ai_client.py] *)

(** [random.randint(a, b)], [random.random()] and [random.uniform(a, b)]:
    the next draw of the generator, reduced to the range asked for. *)
Definition randbelow (n : Z) : M Z :=
  r <- next_random ;; ret (r mod n).

Definition randint (a b : Z) : M Z :=
  r <- randbelow (b - a + 1) ;; ret (a + r).

Definition random_unit : M pyfloat :=
  r <- next_random ;; ret (Fin (Qred ((r mod 2 ^ 53) # (2 ^ 53)))).

Definition uniform (a b : pyfloat) : M pyfloat :=
  u <- random_unit ;; ret (fadd a (fmul (fsub b a) u)).

Record AIClient : Type := {
  api_key : option string;
  llm_available : bool
}.

(** [AIClient.__init__] *)
Definition AIClient_init : AIClient :=
  let api_key := env_OPENAI_API_KEY env in
  let key_given :=
    match api_key with
    | Some k => negb (String.eqb k "")
    | None => false
    end in
  {| api_key := api_key;
     llm_available := key_given && env_openai_installed env |}.

Definition _render_template (template_str : string) (context : pyval)
  : M string :=
  emit (EvRender template_str) ;;;
  lift (env_jinja_render env template_str [("context", context)]).

Definition _call_openai (rendered_prompt : string) : M string :=
  (if env_openai_installed env then ret tt else raise (AssertionError "")) ;;;
  fun w =>
    let w' :=
      {| db := db w; trace := trace w ++ [EvChat rendered_prompt];
         chat_used := S (chat_used w); random_used := random_used w;
         uuid_used := uuid_used w; clock_used := clock_used w |} in
    match env_chat_completion env (chat_used w) rendered_prompt with
    | Ok content => (Ok (strip content), w')
    | Raise e => (Raise e, w')
    end.

Definition stub_rationale : string :=
  "This is a placeholder response. Replace AIClient.generate with a real model call.".

(** Lines 97-104 of [generate]: the raw text of the model, or none. *)
Definition invoke (self : AIClient) (rendered : string) : M (option string) :=
  if llm_available self then
    try_except
      (raw_text <- _call_openai rendered ;; ret (Some raw_text))
      (fun exc => ret None)
  else ret None.

(** Lines 106-115: the parsed reply, or an empty dict.  Only
    [JSONDecodeError] is caught. *)
Definition parse_raw (raw_text : option string) : result pyval :=
  match raw_text with
  | Some text =>
      if negb (String.eqb text "") then
        match json_loads (env_python env) text with
        | Ok parsed => Ok parsed
        | Raise (JSONDecodeError _) => Ok (PDict [])
        | Raise e => Raise e
        end
      else Ok (PDict [])
  | None => Ok (PDict [])
  end.

(** Lines 119-133: the stub and its serialized form. *)
Definition make_stub : M (pyval * option string) :=
  score <- randint 1 100 ;;
  let rating :=
    if 70 <=? score then "BUY" else if 40 <=? score then "HOLD" else "SELL" in
  u <- uniform (Fin 10) (Fin 200) ;;
  let target_price := py_round u 2 in
  let rationale := stub_rationale in
  let parsed :=
    PDict [("score", PInt score); ("rating", PStr rating);
           ("target_buy_price", PFloat target_price);
           ("rationale", PStr rationale)] in
  ret (parsed, Some (json_dumps parsed)).

(** Lines 106-133: from the raw text to the parsed data and the raw text
    kept with it. *)
Definition parse_or_stub (raw_text : option string) : M (pyval * option string) :=
  parsed <- lift (parse_raw raw_text) ;;
  if negb (py_truthy parsed) then make_stub else ret (parsed, raw_text).

(** Lines 136-142: only [ValidationError] is caught. *)
Definition check_schema (prompt : Prompt) (parsed : pyval) : M unit :=
  if py_truthy (schema prompt) then
    match env_validate env parsed (schema prompt) with
    | Ok _ => ret tt
    | Raise (ValidationError msg) =>
        print ("Warning: validation failed for prompt " ++ prompt_id prompt
                 ++ ": " ++ msg)
    | Raise e => raise e
    end
  else ret tt.

Definition generate (self : AIClient) (prompt : Prompt) (context : pyval)
  : M (pyval * option string) :=
  rendered <- _render_template (template prompt) (PDict [("context", context)]) ;;
  raw_text <- invoke self rendered ;;
  '(parsed, raw_text) <- parse_or_stub raw_text ;;
  check_schema prompt parsed ;;;
  ret (parsed, raw_text).

(* ================================================================== *)
(** ** [app.py] *)

Definition load_context (ticker : string) : pyval :=
  PDict [("ticker", PStr ticker)].

(** [parsed_data.get(key, default)] on whatever [generate] returned. *)
Definition parsed_get (parsed_data : pyval) (key : string) (default : pyval)
  : result pyval :=
  match parsed_data with
  | PDict d => Ok (dict_get_default d key default)
  | _ =>
      Raise (AttributeError
               ("'" ++ type_name parsed_data ++ "' object has no attribute 'get'"))
  end.

Record outcome : Type := {
  score : Z;
  rating : string;
  target_price : pyfloat;
  rationale : pyval
}.

(** Lines 67-70 of [run_analysis]. *)
Definition coerce_outcome (parsed_data : pyval) : result outcome :=
  rbind (rbind (parsed_get parsed_data "score" (PInt 0)) (py_int (env_python env)))
    (fun score =>
  rbind (parsed_get parsed_data "rating" (PStr "")) (fun r =>
  let rating := upper (env_python env) (py_str (env_python env) r) in
  rbind (rbind (parsed_get parsed_data "target_buy_price" (PInt 0))
           (py_float (env_python env)))
    (fun target_price =>
  rbind (parsed_get parsed_data "rationale" (PStr "")) (fun rationale =>
  Ok {| score := score; rating := rating; target_price := target_price;
        rationale := rationale |})))).

(** The four accumulators of the loop. *)
Record accumulators : Type := {
  result_entries : list result_entry;
  scores : list Z;
  ratings : list string;
  targets : list pyfloat
}.

(** One turn of the loop of [run_analysis] (lines 66-98). *)
Definition process_prompt (ai_client : AIClient) (context : pyval)
    (run_id : string) (prompt : Prompt) (acc : accumulators) : M accumulators :=
  '(parsed_data, raw_text) <- generate ai_client prompt context ;;
  o <- lift (coerce_outcome parsed_data) ;;
  save_prompt_result run_id (prompt_id prompt) (version prompt) (name prompt)
    (score o) (rating o) (target_price o) (rationale o) raw_text ;;;
  ret {| result_entries :=
           result_entries acc ++
           [{| e_prompt_id := prompt_id prompt; e_prompt_name := name prompt;
               e_prompt_version := version prompt; e_score := score o;
               e_rating := rating o; e_target_buy_price := target_price o;
               e_rationale := rationale o |}];
         scores := scores acc ++ [score o];
         ratings := ratings acc ++ [rating o];
         targets := targets acc ++ [target_price o] |}.

Fixpoint run_prompts (ai_client : AIClient) (context : pyval) (run_id : string)
    (prompts : list Prompt) (acc : accumulators) : M accumulators :=
  match prompts with
  | [] => ret acc
  | prompt :: rest =>
      acc <- process_prompt ai_client context run_id prompt acc ;;
      run_prompts ai_client context run_id rest acc
  end.

(** [sum(xs) / len(xs)] on ints: the quotient of the two integers,
    rounded once. *)
Definition mean_int (xs : list Z) : result pyfloat :=
  match List.length xs with
  | O => Raise (ZeroDivisionError "division by zero")
  | S n =>
      match b64 (fold_left Z.add xs 0 # Pos.of_succ_nat n) with
      | Inf _ => Raise (OverflowError "integer division result too large for a float")
      | f => Ok f
      end
  end.

(** [sum(xs) / len(xs)] on floats: the floats are added one after the
    other from the left, starting from [0] (as [sum] does up to Python
    3.11), and the sum is divided by the float of the count.  A length fits
    a machine word, so its float is finite. *)
Definition mean_float (xs : list pyfloat) : result pyfloat :=
  match List.length xs with
  | O => Raise (ZeroDivisionError "division by zero")
  | S n => fdiv (fold_left fadd xs (Fin 0)) (b64 (inject_Z (Z.of_nat (S n))))
  end.

(** Lines 100-113 of [run_analysis]. *)
Definition aggregate (scores : list Z) (ratings : list string)
    (targets : list pyfloat) : result summary :=
  rbind (mean_int scores) (fun average_score =>
  rbind (final_rating ratings) (fun final_rating =>
  rbind (mean_float targets) (fun final_target_price =>
  Ok {| s_average_score := average_score; s_final_rating := final_rating;
        s_final_target_price := final_target_price |}))).

Definition no_prompts : exn :=
  RuntimeError "No prompt definitions found in the prompts directory.".

Definition run_analysis (ticker : string) : M (list result_entry * summary) :=
  let ai_client := AIClient_init in
  let context := load_context ticker in
  let context_json := json_dumps context in
  prompts <- load_prompts ;;
  (match prompts with [] => raise no_prompts | _ => ret tt end) ;;;
  run_id <- start_run ticker context_json ;;
  acc <- run_prompts ai_client context run_id prompts
           {| result_entries := []; scores := []; ratings := []; targets := [] |} ;;
  s <- lift (aggregate (scores acc) (ratings acc) (targets acc)) ;;
  finish_run run_id (s_average_score s) (s_final_rating s)
    (s_final_target_price s) ;;;
  ret (result_entries acc, s).

Inductive http_method : Type := GET | HEAD | POST.

Record request : Type := {
  method : http_method;
  form : list (string * string)
}.

Definition index (req : request) : M string :=
  vars <-
    match method req with
    | POST =>
        let ticker :=
          upper (env_python env)
            (strip (match assoc "ticker" (form req) with
                    | Some t => t
                    | None => ""
                    end)) in
        if String.eqb ticker "" then
          ret {| page_results := None; page_summary := None;
                 page_ticker := Some ticker;
                 page_error := Some "Please enter a stock ticker." |}
        else
          try_except
            ('(results, summary) <- run_analysis ticker ;;
             ret {| page_results := Some results; page_summary := Some summary;
                    page_ticker := Some ticker; page_error := None |})
            (fun exc =>
               ret {| page_results := None; page_summary := None;
                      page_ticker := Some ticker;
                      page_error := Some (exn_str exc) |})
    | GET | HEAD =>
        ret {| page_results := None; page_summary := None; page_ticker := None;
               page_error := None |}
    end ;;
  lift (env_render_template env "index.html" vars).

End Program.

(* ================================================================== *)
(** ** Derived notions used by the statements *)

(** From the raw text of a reply to the outcome of the prompt: lines
    106-133 of [generate] followed by lines 67-70 of [run_analysis]. *)
Definition resolve_outcome (env : Env) (raw_text : option string)
  : M (outcome * option string) :=
  bind (parse_or_stub env raw_text) (fun '(parsed, raw) =>
  bind (lift (coerce_outcome env parsed)) (fun o => ret (o, raw))).

(** The aggregation of a sequence of outcomes, as the loop feeds it. *)
Definition summarize (os : list outcome) : result summary :=
  aggregate (map score os) (map rating os) (map target_price os).

Definition total (xs : list Z) : Z := fold_right Z.add 0 xs.

Definition Qtotal (xs : list Q) : Q := fold_right Qplus 0%Q xs.

(** The exact arithmetic mean of a non-empty sequence of integers. *)
Definition exact_mean (xs : list Z) : Q :=
  total xs # Pos.of_nat (List.length xs).

(** The exact sums of the first one, two, ... values of a sequence. *)
Fixpoint partial_sums (acc : Q) (xs : list Q) : list Q :=
  match xs with
  | [] => []
  | x :: r => (acc + x)%Q :: partial_sums (acc + x)%Q r
  end.

(** The files [load_prompts] visits, in order, and the prompts they give. *)
Definition candidates (env : Env) : list (string * file) :=
  sorted_glob env ".yml" ++ sorted_glob env ".yaml".

Definition loaded_of (env : Env) (files : list (string * file)) : list Prompt :=
  flat_map (fun '(n, f) =>
              match load_file env n f with Ok p => [p] | Raise _ => [] end)
           files.

Definition load_error_line (env : Env) (file_name : string) (exc : exn) : event :=
  EvPrint ("Error loading prompt from " ++ env_prompts_path env ++ "/"
             ++ file_name ++ ": " ++ exn_str exc).

Definition load_errors_of (env : Env) (files : list (string * file)) : list event :=
  flat_map (fun '(n, f) =>
              match load_file env n f with
              | Ok _ => []
              | Raise exc => [load_error_line env n exc]
              end)
           files.

(** The names [load_prompts] looks for: direct entries of the directory
    that end in [.yml] or [.yaml]. *)
Definition prompt_file_name (n : string) : bool :=
  (endswith n ".yml" || endswith n ".yaml") && negb (contains_char "/" n).

Definition is_print (e : event) : bool :=
  match e with
  | EvPrint _ => true
  | _ => false
  end.

Definition validation_warning (p : Prompt) (msg : string) : event :=
  EvPrint ("Warning: validation failed for prompt " ++ prompt_id p ++ ": " ++ msg).

(** The variables [generate] hands to the template of a prompt. *)
Definition template_variables (context : pyval) : pydict :=
  [("context", PDict [("context", context)])].

(** The part of the trace one prompt accounts for, from its rendering to
    the write of its row: the rendering of its own template, then at most
    one call of the backend, with the text that rendering gave, then at
    most one validation warning about this prompt, then the write of the
    row of this prompt. *)
Definition prompt_segment (env : Env) (context : pyval) (run : string)
    (p : Prompt) (seg : list event) : Prop :=
  exists chat warn,
    seg = EvRender (template p) :: chat ++ warn
            ++ [EvSavePromptResult run (prompt_id p)]
    /\ (chat = []
        \/ exists text,
             env_jinja_render env (template p) (template_variables context) = Ok text
             /\ chat = [EvChat text])
    /\ (warn = [] \/ exists msg, warn = [validation_warning p msg]).

Definition entry_of_prompt (p : Prompt) : string * string * Z :=
  (prompt_id p, name p, version p).

Definition entry_key (e : result_entry) : string * string * Z :=
  (e_prompt_id e, e_prompt_name e, e_prompt_version e).

(* ------------------------------------------------------------------ *)
(** *** Concrete environments for the examples *)

(** An excerpt of the Unicode tables, enough for the examples: the upper
    case of the Latin-1 letters, the fullwidth and the Arabic-Indic digits,
    and the characters of the first blocks that [repr] escapes. *)
Definition sample_python : Python :=
  {| unicode_upper := fun n =>
       (if n =? 223 then [83; 83]
        else if n =? 181 then [924]
        else if n =? 255 then [376]
        else if (224 <=? n) && (n <=? 254) && negb (n =? 247) then [n - 32]
        else [n])%N;
     unicode_decimal := fun n =>
       (if (65296 <=? n) && (n <=? 65305) then Some (Z.of_N (n - 65296))
        else if (1632 <=? n) && (n <=? 1641) then Some (Z.of_N (n - 1632))
        else None)%N;
     unicode_printable := fun n =>
       negb ((n <=? 160) || (n =? 173) || (8192 <=? n) && (n <=? 8207)
             || (8232 <=? n) && (n <=? 8239)
             || (55296 <=? n) && (n <=? 63743))%N;
     int_max_str_digits := 4300;
     json_depth := 900 |}.

Definition yaml_file (v : pyval) : file :=
  {| file_text := Raise (OSError "not a text template");
     file_yaml := Ok v |}.

Definition text_file (s : string) : file :=
  {| file_text := Ok s; file_yaml := Ok (PStr s) |}.

Definition sample_prompt_yaml : pyval :=
  PDict [("prompt_id", PStr "valuation"); ("name", PStr "Valuation");
         ("version", PInt 1); ("template", PStr "Assess {{ context }}")].

Definition sample_prompt : Prompt :=
  {| prompt_id := "valuation"; name := "Valuation"; version := 1;
     template := "Assess {{ context }}"; schema := PNone |}.

(** An environment over a given prompts directory; the backend is
    configured when [key] is given, and each call of it then ends as
    [reply]. *)
Definition env_with (dir : list (string * file)) (key : option string)
    (reply : result string) : Env :=
  {| env_python := sample_python;
     env_OPENAI_API_KEY := key;
     env_openai_installed := true;
     env_chat_completion := fun _ _ => reply;
     env_jinja_render := fun t _ => Ok t;
     env_validate := fun _ _ => Ok tt;
     env_random := fun n => 12345 + 7919 * Z.of_nat n;
     env_uuid4 := fun n => ("run-" ++ string_of_Z (Z.of_nat n))%string;
     env_utcnow := fun n => ("t" ++ string_of_Z (Z.of_nat n))%string;
     env_prompts_path := "prompts";
     env_prompts_exists := true;
     env_prompts_dir := dir;
     env_sqlite_real_text := float_repr;
     env_render_template := fun name _ => Ok name |}.

(** An environment with one valid prompt file. *)
Definition sample_env (key : option string) (reply : result string) : Env :=
  env_with [("valuation.yml", yaml_file sample_prompt_yaml)] key reply.

(** The stub dictionary of [generate] for a score, a rating and a price. *)
Definition stub_dict (sc : Z) (r : string) (tp : pyfloat) : pyval :=
  PDict [("score", PInt sc); ("rating", PStr r);
         ("target_buy_price", PFloat tp);
         ("rationale", PStr stub_rationale)].

(** The threshold rule of the stub. *)
Definition threshold_rating (sc : Z) (r : string) : Prop :=
  (70 <= sc -> r = "BUY")
  /\ (40 <= sc < 70 -> r = "HOLD")
  /\ (sc < 40 -> r = "SELL").

(** A price as [round(x, 2)] gives it for [x] between 10 and 200: the
    float nearest to a whole number of hundredths in that range. *)
Definition stub_price (tp : pyfloat) : Prop :=
  exists v k,
    tp = Fin v /\ (10 <= v)%Q /\ (v <= 200)%Q
    /\ 1000 <= k <= 20000 /\ nearest_b64 (k # 100) v.

(** No usable reply: no raw text, empty text, text that [json.loads]
    rejects as not well formed, or JSON for an empty value. *)
Definition no_usable_reply (env : Env) (raw : option string) : Prop :=
  raw = None
  \/ raw = Some ""
  \/ (exists t msg, raw = Some t
                    /\ json_loads (env_python env) t = Raise (JSONDecodeError msg))
  \/ (exists t v, raw = Some t /\ json_loads (env_python env) t = Ok v
                  /\ py_truthy v = false).

(** The state after a list of events has been logged. *)
Definition log_events (es : list event) (w : world) : world :=
  fold_left (fun w e => log_event e w) es w.

(** The largest binary64 number. *)
Definition max_float : Q := inject_Z ((2 ^ 53 - 1) * 2 ^ 971).

(** An outcome with a given score, rating and price. *)
Definition outcome_of (sc : Z) (r : string) (tp : pyfloat) : outcome :=
  {| score := sc; rating := r; target_price := tp; rationale := PStr "" |}.

(** A prompt file with the four required keys. *)
Definition prompt_yaml (id : string) : pyval :=
  PDict [("prompt_id", PStr id); ("name", PStr id); ("version", PInt 1);
         ("template", PStr "Assess {{ context }}")].

Definition prompt_of_id (id : string) : Prompt :=
  {| prompt_id := id; name := id; version := 1;
     template := "Assess {{ context }}"; schema := PNone |}.

(** A prompts directory with two files that load, one of each extension,
    three that fail, each in its own way, and one that is no prompt file. *)
Definition mixed_dir : list (string * file) :=
  [("b.yml", yaml_file (prompt_yaml "b"));
   ("list.yml", yaml_file (PList []));
   ("a.yaml", yaml_file (prompt_yaml "a"));
   ("ref.yml",
    yaml_file (PDict [("prompt_id", PStr "r"); ("name", PStr "r");
                      ("version", PInt 1); ("template_file", PStr "missing.txt")]));
   ("nokey.yaml",
    yaml_file (PDict [("prompt_id", PStr "n"); ("name", PStr "n");
                      ("version", PInt 1)]));
   ("notes.txt", text_file "not a prompt")].

(** A prompts directory whose only prompt names both an inline template
    and a template file. *)
Definition both_templates_yaml : pydict :=
  [("prompt_id", PStr "risk"); ("name", PStr "Risk"); ("version", PInt 2);
   ("template", PStr "inline text"); ("template_file", PStr "risk.txt")].

Definition both_templates_env : Env :=
  env_with [("risk.yml", yaml_file (PDict both_templates_yaml));
            ("risk.txt", text_file "text of the file")]
    None (Ok "").

(* ------------------------------------------------------------------ *)
(** *** The loop of a run *)

(** The accumulators after one prompt with outcome [o]. *)
Definition acc_after (acc : accumulators) (p : Prompt) (o : outcome) : accumulators :=
  {| result_entries :=
       result_entries acc ++
       [{| e_prompt_id := prompt_id p; e_prompt_name := name p;
           e_prompt_version := version p; e_score := score o;
           e_rating := rating o; e_target_buy_price := target_price o;
           e_rationale := rationale o |}];
     scores := scores acc ++ [score o];
     ratings := ratings acc ++ [rating o];
     targets := targets acc ++ [target_price o] |}.

(** The state after one reading of the clock. *)
Definition tick (w : world) : world :=
  {| db := db w; trace := trace w; chat_used := chat_used w;
     random_used := random_used w; uuid_used := uuid_used w;
     clock_used := S (clock_used w) |}.

(** The accumulators of the loop describe the entries collected so far. *)
Definition acc_consistent (acc : accumulators) : Prop :=
  scores acc = map e_score (result_entries acc)
  /\ ratings acc = map e_rating (result_entries acc)
  /\ targets acc = map e_target_buy_price (result_entries acc).

Definition empty_acc : accumulators :=
  {| result_entries := []; scores := []; ratings := []; targets := [] |}.

(** The catalog a run loads, and the state after loading it. *)
Definition catalog (env : Env) : list Prompt :=
  if env_prompts_exists env then loaded_of env (candidates env) else [].

Definition after_load (env : Env) (w : world) : world :=
  if env_prompts_exists env
  then log_events (load_errors_of env (candidates env)) w
  else w.

(** Text made of ASCII characters only. *)
Definition is_ascii (s : string) : bool :=
  forallb (fun c => (ord c <? 128)%N) (list_ascii_of_string s).

(** An outcome the store accepts. *)
Definition storable (env : Env) (o : outcome) : Prop :=
  - 2 ^ 63 <= score o < 2 ^ 63
  /\ has_surrogate (rating o) = false
  /\ is_ok (sqlite_text env (rationale o)) = true.

(** The scores and ratings collected so far were accepted by the store. *)
Definition acc_storable (acc : accumulators) : Prop :=
  Forall (fun z => - 2 ^ 63 <= z < 2 ^ 63) (scores acc)
  /\ Forall (fun r => has_surrogate r = false) (ratings acc).

(** The row written for prompt [p] with outcome [o] and raw text [raw] in
    run [run]: each column holds what its affinity keeps of the value. *)
Definition row_matches (env : Env) (run : string) (p : Prompt) (o : outcome)
    (raw : option string) (row : prompt_result_row) : Prop :=
  pr_run_id row = run /\ pr_prompt_id row = prompt_id p
  /\ pr_prompt_version row = version p /\ pr_prompt_name row = name p
  /\ pr_score row = score o /\ pr_rating row = rating o
  /\ pr_target_buy_price row = sqlite_real (target_price o)
  /\ sqlite_text env (rationale o) = Ok (pr_rationale row)
  /\ pr_raw_response row = raw.

(** A reply the run can use as it is: it parses to a non-empty value
    whose fields convert, and the store accepts the outcome and the text. *)
Definition usable_reply (env : Env) (text : string) : Prop :=
  exists v o,
    json_loads (env_python env) text = Ok v /\ py_truthy v = true
    /\ coerce_outcome env v = Ok o /\ storable env o
    /\ has_surrogate text = false.

(** A prompt the run can process: its template renders, the validator
    raises nothing but [ValidationError] on its schema, and the store
    accepts its identifier, name and version. *)
Definition prompt_ready (env : Env) (context : pyval) (p : Prompt) : Prop :=
  (exists text,
     env_jinja_render env (template p) (template_variables context) = Ok text)
  /\ (forall parsed e,
        env_validate env parsed (schema p) = Raise e ->
        exists msg, e = ValidationError msg)
  /\ has_surrogate (prompt_id p) = false
  /\ has_surrogate (name p) = false
  /\ - 2 ^ 63 <= version p < 2 ^ 63.

(** What a run needs in order to complete, with or without a backend: a
    ticker the store accepts, a run identifier that is not taken, prompts
    that can be processed, and a backend each of whose replies, when the
    call returns one, is either unusable (the stub takes over) or usable
    as it is.  A call of the backend that fails needs nothing. *)
Definition run_ready (env : Env) (ticker : string) (w : world) : Prop :=
  has_surrogate ticker = false
  /\ existsb (fun r => String.eqb (run_id r) (env_uuid4 env (uuid_used w)))
       (runs (db w)) = false
  /\ (forall p, In p (catalog env) -> prompt_ready env (load_context ticker) p)
  /\ (forall n rendered content,
        env_chat_completion env n rendered = Ok content ->
        no_usable_reply env (Some (strip content))
        \/ usable_reply env (strip content)).

(** The ticker [index] works with: the form field, stripped and
    upper-cased. *)
Definition form_ticker (env : Env) (req : request) : string :=
  upper (env_python env)
    (strip (match assoc "ticker" (form req) with
            | Some t => t
            | None => ""
            end)).

Definition blank_page : page :=
  {| page_results := None; page_summary := None; page_ticker := None;
     page_error := None |}.

(** The page of a run that raised [e]. *)
Definition error_page (ticker : string) (e : exn) : page :=
  {| page_results := None; page_summary := None; page_ticker := Some ticker;
     page_error := Some (exn_str e) |}.

(** The page of a run that returned. *)
Definition results_page (ticker : string) (results : list result_entry)
    (s : summary) : page :=
  {| page_results := Some results; page_summary := Some s;
     page_ticker := Some ticker; page_error := None |}.

(** Well-formed databases: result rows carry strictly increasing ids that
    the counter of the table has already passed, and run ids are unique. *)
Definition id_lt (a b : prompt_result_row) : Prop := pr_id a < pr_id b.

Definition db_wf (d : database) : Prop :=
  StronglySorted id_lt (prompt_results d)
  /\ Forall (fun r => pr_id r <= last_id d) (prompt_results d)
  /\ NoDup (map run_id (runs d)).

(** A computation keeps a property of the database, however it ends. *)
Definition keeps {A} (P : database -> Prop) (m : M A) : Prop :=
  forall w r w', m w = (r, w') -> P (db w) -> P (db w').

(** Bytes below 128: the bytes of ASCII text. *)
Definition ascii_bytes (l : list ascii) : Prop :=
  Forall (fun c => (ord c < 128)%N) l.

(** A step that leaves the run store and the sources of identifiers and
    time stamps alone. *)
Definition quiet_step (w w' : world) : Prop :=
  db w' = db w /\ uuid_used w' = uuid_used w /\ clock_used w' = clock_used w.

(** The header row of a run that has been started and not closed. *)
Definition open_run (rid ticker context_json started_at : string) : run_row :=
  {| run_id := rid; run_ticker := ticker; run_context_json := context_json;
     run_started_at := started_at;
     run_finished_at := None; run_average_score := None;
     run_final_rating := None; run_final_target_price := None |}.

(** The header row of a run once it is closed: the summary as the columns
    keep it. *)
Definition closed_run (rid now : string) (a : pyfloat) (r : string) (t : pyfloat)
    (row : run_row) : run_row :=
  if String.eqb (run_id row) rid then
    {| run_id := run_id row; run_ticker := run_ticker row;
       run_context_json := run_context_json row;
       run_started_at := run_started_at row;
       run_finished_at := Some now;
       run_average_score := sqlite_real a;
       run_final_rating := Some r;
       run_final_target_price := sqlite_real t |}
  else row.

Definition taken_error : exn :=
  IntegrityError "UNIQUE constraint failed: runs.run_id".

(** A stored row carries the values of a returned entry, each column
    holding what its affinity keeps of the value. *)
Definition entry_row (env : Env) (run : string) (e : result_entry)
    (row : prompt_result_row) : Prop :=
  pr_run_id row = run /\ pr_prompt_id row = e_prompt_id e
  /\ pr_prompt_version row = e_prompt_version e
  /\ pr_prompt_name row = e_prompt_name e
  /\ pr_score row = e_score e /\ pr_rating row = e_rating e
  /\ pr_target_buy_price row = sqlite_real (e_target_buy_price e)
  /\ sqlite_text env (e_rationale e) = Ok (pr_rationale row).

(** The reply of the example of the specification. *)
Definition example_reply : string :=
  dq "{'score': 85, 'rating': 'buy', 'target_buy_price': 42.5, 'rationale': 'x'}".

(** The same environment with another listing of the prompts directory. *)
Definition with_dir (env : Env) (dir : list (string * file)) : Env :=
  {| env_python := env_python env;
     env_OPENAI_API_KEY := env_OPENAI_API_KEY env;
     env_openai_installed := env_openai_installed env;
     env_chat_completion := env_chat_completion env;
     env_jinja_render := env_jinja_render env;
     env_validate := env_validate env;
     env_random := env_random env;
     env_uuid4 := env_uuid4 env;
     env_utcnow := env_utcnow env;
     env_prompts_path := env_prompts_path env;
     env_prompts_exists := env_prompts_exists env;
     env_prompts_dir := dir;
     env_sqlite_real_text := env_sqlite_real_text env;
     env_render_template := env_render_template env |}.

Definition name_le (a b : string * file) : Prop :=
  String.leb (fst a) (fst b) = true.

(** Lower-case ASCII letters in a text. *)
Definition is_lower (c : ascii) : bool :=
  ((97 <=? ord c) && (ord c <=? 122))%N.

Definition has_lower (s : string) : bool :=
  existsb is_lower (list_ascii_of_string s).

(** What the upper-case mappings of Unicode have in common: a character
    outside ASCII is mapped to code points, none of them a lower-case
    ASCII letter. *)
Definition upper_table_ok (py : Python) : Prop :=
  forall n c,
    (128 <= n < 2097152)%N -> In c (unicode_upper py n) ->
    (c < 2097152)%N /\ ~ (97 <= c <= 122)%N.

(* ################################################################## *)
(** * Properties *)

(* ------------------------------------------------------------------ *)
(** *** Facts about [Counter] and [most_common] *)

Lemma counter_add_keys x c k :
  In k (map fst (counter_add x c)) <-> k = x \/ In k (map fst c).
Proof.
  induction c as [|[k' n] c IH]; simpl.
  - intuition.
  - destruct (String.eqb k' x) eqn:E; simpl.
    + apply String.eqb_eq in E. subst. intuition.
    + rewrite IH. intuition.
Qed.

Lemma counter_add_wf x c : counter_wf c -> counter_wf (counter_add x c).
Proof.
  unfold counter_wf. induction c as [|[k n] c IH]; simpl; intros [Hnd Hpos].
  - split; [constructor; [intros []|constructor] | repeat constructor].
  - inversion Hnd; subst. inversion Hpos; subst.
    destruct (String.eqb k x) eqn:E; simpl.
    + split; [constructor; assumption|]. constructor; [simpl; lia|assumption].
    + destruct IH as [IH1 IH2]; [split; assumption|].
      split; [|constructor; assumption].
      constructor; [|assumption].
      rewrite counter_add_keys. intros [->|Hin]; [|contradiction].
      rewrite String.eqb_refl in E. discriminate.
Qed.

Lemma counter_add_cnt x c r :
  cnt (counter_add x c) r = (cnt c r + if string_dec x r then 1 else 0)%nat.
Proof.
  induction c as [|[k n] c IH]; simpl.
  - destruct (string_dec x r) as [->|Hne].
    + rewrite String.eqb_refl. reflexivity.
    + destruct (String.eqb x r) eqn:E; [apply String.eqb_eq in E; contradiction|reflexivity].
  - destruct (String.eqb k x) eqn:E; simpl.
    + apply String.eqb_eq in E. subst k.
      destruct (String.eqb x r) eqn:E'.
      * apply String.eqb_eq in E'. subst. destruct (string_dec r r); [lia|contradiction].
      * destruct (string_dec x r) as [->|_]; [rewrite String.eqb_refl in E'; discriminate|lia].
    + destruct (String.eqb k r) eqn:E'; [|apply IH].
      apply String.eqb_eq in E'. subst k.
      destruct (string_dec x r) as [->|_]; [rewrite String.eqb_refl in E; discriminate|lia].
Qed.

Lemma fold_counter_spec l : forall c,
  counter_wf c ->
  let c' := fold_left (fun c x => counter_add x c) l c in
  counter_wf c'
  /\ (forall r, cnt c' r = (cnt c r + occurrences l r)%nat)
  /\ (forall k, In k (map fst c') <-> In k l \/ In k (map fst c)).
Proof.
  induction l as [|x l IH]; simpl; intros c Hwf.
  - split; [assumption|]. split.
    + intros r. unfold occurrences. simpl. lia.
    + intros k. tauto.
  - destruct (IH (counter_add x c) (counter_add_wf x c Hwf)) as (H1 & H2 & H3).
    split; [exact H1|]. split.
    + intros r. rewrite H2, counter_add_cnt. unfold occurrences. simpl.
      destruct (string_dec x r); lia.
    + intros k. rewrite H3, counter_add_keys. intuition.
Qed.

Lemma cnt_in c k n : NoDup (map fst c) -> In (k, n) c -> cnt c k = n.
Proof.
  induction c as [|[k' n'] c IH]; simpl; intros Hnd Hin; [contradiction|].
  destruct Hin as [Heq|Hin].
  - inversion Heq; subst. rewrite String.eqb_refl. reflexivity.
  - inversion Hnd; subst.
    destruct (String.eqb k' k) eqn:E; [|auto].
    apply String.eqb_eq in E. subst. exfalso. apply H1.
    change k with (fst (k, n)). apply in_map. assumption.
Qed.

Lemma Counter_spec l :
  NoDup (map fst (Counter l))
  /\ (forall k, In k (map fst (Counter l)) <-> In k l)
  /\ (forall k n, In (k, n) (Counter l) -> n = occurrences l k).
Proof.
  destruct (fold_counter_spec l []) as ((Hnd & Hpos) & Hc & Hk).
  { split; constructor. }
  fold (Counter l) in *. split; [assumption|]. split.
  - intros k. rewrite Hk. simpl. intuition.
  - intros k n Hin. rewrite <- (cnt_in _ _ _ Hnd Hin), Hc. reflexivity.
Qed.

Lemma insert_desc_perm x l : Permutation (insert_desc x l) (x :: l).
Proof.
  induction l as [|y l IH]; simpl; [reflexivity|].
  destruct (snd y <=? snd x)%nat; [reflexivity|].
  rewrite IH. apply perm_swap.
Qed.

Lemma most_common_perm c : Permutation (most_common c) c.
Proof.
  induction c as [|x c IH]; simpl; [reflexivity|].
  rewrite insert_desc_perm. constructor. assumption.
Qed.

Lemma insert_desc_sorted x l :
  StronglySorted count_ge l -> StronglySorted count_ge (insert_desc x l).
Proof.
  induction l as [|y l IH]; simpl; intros Hs.
  - repeat constructor.
  - inversion Hs; subst.
    destruct (snd y <=? snd x)%nat eqn:E.
    + apply Nat.leb_le in E. constructor; [assumption|].
      constructor; [exact E|].
      eapply Forall_impl; [|eassumption]. unfold count_ge. intros; lia.
    + apply Nat.leb_gt in E. constructor; [auto|].
      eapply Permutation_Forall; [symmetry; apply insert_desc_perm|].
      constructor; [unfold count_ge; lia|assumption].
Qed.

Lemma most_common_sorted c : StronglySorted count_ge (most_common c).
Proof.
  induction c as [|x c IH]; simpl; [constructor|].
  apply insert_desc_sorted. assumption.
Qed.

(** What the proofs about the vote use of [most_common (Counter l)]. *)
Lemma ranking_spec l :
  let mc := most_common (Counter l) in
  NoDup (map fst mc)
  /\ (forall k, In k (map fst mc) <-> In k l)
  /\ (forall k n, In (k, n) mc -> n = occurrences l k)
  /\ StronglySorted count_ge mc.
Proof.
  destruct (Counter_spec l) as (Hnd & Hk & Hc).
  pose proof (most_common_perm (Counter l)) as Hp.
  simpl. repeat split.
  - eapply Permutation_NoDup; [|exact Hnd].
    apply Permutation_map. symmetry. exact Hp.
  - intros Hin. apply Hk. eapply Permutation_in; [|exact Hin].
    apply Permutation_map. exact Hp.
  - intros Hin. apply Hk in Hin. eapply Permutation_in; [|exact Hin].
    apply Permutation_map. symmetry. exact Hp.
  - intros k n Hin. apply Hc. eapply Permutation_in; [exact Hp|exact Hin].
  - apply most_common_sorted.
Qed.

(* ------------------------------------------------------------------ *)
(** *** The vote *)

Lemma in_keys_inv (k : string) (l : list (string * nat)) :
  In k (map fst l) -> exists n, In (k, n) l.
Proof.
  rewrite in_map_iff. intros [[k' n] [Hk Hin]]. simpl in Hk. subst. eauto.
Qed.

Lemma occurrences_zero l r : ~ In r l -> occurrences l r = 0%nat.
Proof. apply count_occ_not_In. Qed.

Lemma occurrences_pos l r : In r l -> (0 < occurrences l r)%nat.
Proof. intros H. apply (count_occ_In string_dec) in H. exact H. Qed.

Lemma occurrences_cons y l r :
  occurrences (y :: l) r
  = if String.eqb y r then S (occurrences l r) else occurrences l r.
Proof.
  unfold occurrences. simpl. destruct (string_dec y r) as [->|Hne].
  - rewrite String.eqb_refl. reflexivity.
  - destruct (String.eqb y r) eqn:E; [apply String.eqb_eq in E; contradiction|reflexivity].
Qed.

Lemma occurrences_nil r : occurrences [] r = 0%nat.
Proof. reflexivity. Qed.

(** Counting in a literal sequence, for an unknown rating [x]. *)
Ltac count_literal x :=
  repeat rewrite occurrences_cons; repeat rewrite occurrences_nil;
  repeat match goal with
         | |- context [String.eqb ?a x] =>
             let E := fresh "E" in
             destruct (String.eqb a x) eqn:E;
             [apply String.eqb_eq in E; subst x|]
         end;
  simpl; try congruence; try lia.

(** The head of the ranking dominates every count. *)
Lemma ranking_head_max l r0 c0 rest :
  most_common (Counter l) = (r0, c0) :: rest ->
  c0 = occurrences l r0 /\ In r0 l
  /\ forall x, (occurrences l x <= c0)%nat.
Proof.
  intros Hmc. destruct (ranking_spec l) as (Hnd & Hk & Hc & Hs).
  rewrite Hmc in *. split; [apply Hc; left; reflexivity|].
  split; [apply Hk; left; reflexivity|].
  intros x. destruct (in_dec string_dec x l) as [Hin|Hnin].
  - apply Hk in Hin. apply in_keys_inv in Hin. destruct Hin as [n Hin].
    rewrite <- (Hc _ _ Hin). destruct Hin as [Heq|Hin].
    + inversion Heq. lia.
    + inversion Hs; subst. rewrite Forall_forall in H2.
      apply (H2 _ Hin).
  - rewrite occurrences_zero by assumption. lia.
Qed.

(** Every rating other than the head is counted by the tail. *)
Lemma ranking_tail_bound l r0 c0 r1 c1 rest x :
  most_common (Counter l) = (r0, c0) :: (r1, c1) :: rest ->
  x <> r0 -> (occurrences l x <= c1)%nat.
Proof.
  intros Hmc Hx. destruct (ranking_spec l) as (Hnd & Hk & Hc & Hs).
  rewrite Hmc in *.
  destruct (in_dec string_dec x l) as [Hin|Hnin].
  - apply Hk in Hin. apply in_keys_inv in Hin. destruct Hin as [n Hin].
    rewrite <- (Hc _ _ Hin). destruct Hin as [Heq|[Heq|Hin]].
    + inversion Heq. congruence.
    + inversion Heq. lia.
    + inversion Hs; subst. inversion H1; subst. rewrite Forall_forall in H4.
      apply (H4 _ Hin).
  - rewrite occurrences_zero by assumption. lia.
Qed.

(** Either one rating strictly leads and wins, or two distinct ratings
    share the highest count and the vote is HOLD. *)
Lemma final_rating_cases ratings :
  ratings <> [] ->
  (exists r, In r ratings
     /\ (forall x, x <> r -> (occurrences ratings x < occurrences ratings r)%nat)
     /\ final_rating ratings = Ok r)
  \/ (exists r1 r2, r1 <> r2 /\ In r1 ratings /\ In r2 ratings
     /\ occurrences ratings r1 = occurrences ratings r2
     /\ (forall x, (occurrences ratings x <= occurrences ratings r1)%nat)
     /\ final_rating ratings = Ok "HOLD").
Proof.
  intros Hne. destruct (ranking_spec ratings) as (Hnd & Hk & Hc & Hs).
  unfold final_rating. cbv zeta.
  destruct (most_common (Counter ratings)) as [|[r0 c0] [|[r1 c1] rest]] eqn:Hmc.
  - exfalso. destruct ratings as [|x xs]; [congruence|].
    apply (proj2 (Hk x)). left. reflexivity.
  - left. exists r0. simpl.
    destruct (ranking_head_max _ _ _ _ Hmc) as (Hc0 & Hin0 & _).
    repeat split; [assumption|].
    intros x Hx. rewrite occurrences_zero.
    + apply occurrences_pos. assumption.
    + intros Hin. apply Hk in Hin. simpl in Hin. intuition congruence.
  - destruct (ranking_head_max _ _ _ _ Hmc) as (Hc0 & Hin0 & Hmax).
    assert (Hc1 : c1 = occurrences ratings r1) by (apply Hc; right; left; reflexivity).
    assert (Hin1 : In r1 ratings) by (apply Hk; right; left; reflexivity).
    assert (Hne01 : r0 <> r1).
    { inversion Hnd; subst. intros ->. apply H1. left. reflexivity. }
    simpl. destruct (c0 =? c1)%nat eqn:E.
    + apply Nat.eqb_eq in E. right. exists r0, r1.
      repeat split; try assumption; [congruence|].
      intros x. rewrite <- Hc0. apply Hmax.
    + apply Nat.eqb_neq in E. left. exists r0.
      repeat split; [assumption|].
      intros x Hx. pose proof (ranking_tail_bound _ _ _ _ _ _ x Hmc Hx).
      pose proof (Hmax r1). lia.
Qed.

(** C1.  For a non-empty sequence of ratings: a single distinct rating is the
    final rating; two distinct ratings sharing the highest count give the
    literal HOLD; otherwise the strictly most frequent rating wins, whatever
    the counts below it.  One of the last two cases always applies. *)
Theorem final_rating_majority_vote (ratings : list string) :
  ratings <> [] ->
  (forall r, (forall x, In x ratings -> x = r) -> final_rating ratings = Ok r)
  /\ (forall r1 r2,
        r1 <> r2 -> In r1 ratings -> In r2 ratings ->
        occurrences ratings r1 = occurrences ratings r2 ->
        (forall x, (occurrences ratings x <= occurrences ratings r1)%nat) ->
        final_rating ratings = Ok "HOLD")
  /\ (forall r,
        In r ratings ->
        (forall x, x <> r -> (occurrences ratings x < occurrences ratings r)%nat) ->
        final_rating ratings = Ok r)
  /\ ((exists r, In r ratings
         /\ forall x, x <> r -> (occurrences ratings x < occurrences ratings r)%nat)
      \/ (exists r1 r2, r1 <> r2 /\ In r1 ratings /\ In r2 ratings
         /\ occurrences ratings r1 = occurrences ratings r2
         /\ forall x, (occurrences ratings x <= occurrences ratings r1)%nat)).
Proof.
  intros Hne.
  assert (Hstrict : forall r, In r ratings ->
    (forall x, x <> r -> (occurrences ratings x < occurrences ratings r)%nat) ->
    final_rating ratings = Ok r).
  { intros r Hin Hr.
    destruct (final_rating_cases ratings Hne)
      as [(r' & Hin' & Hr' & Hf)|(r1 & r2 & Hd & H1 & H2 & He & Hm & Hf)].
    - destruct (string_dec r' r) as [->|Hd]; [assumption|].
      pose proof (Hr _ Hd). pose proof (Hr' r (not_eq_sym Hd)). lia.
    - exfalso. destruct (string_dec r1 r) as [->|Hd1].
      + pose proof (Hr r2 (not_eq_sym Hd)). lia.
      + pose proof (Hr r1 Hd1). pose proof (Hm r). lia. }
  split; [|split; [|split]].
  - intros r Hall. apply Hstrict.
    + destruct ratings as [|x xs]; [congruence|].
      rewrite <- (Hall x) at 1; left; reflexivity.
    + intros x Hx. rewrite occurrences_zero.
      * apply occurrences_pos. destruct ratings as [|y ys]; [congruence|].
        rewrite <- (Hall y) at 1; left; reflexivity.
      * intros Hin. apply Hx. apply Hall. assumption.
  - intros r1 r2 Hd H1 H2 He Hm.
    destruct (final_rating_cases ratings Hne)
      as [(r & Hin & Hr & Hf)|(_ & _ & _ & _ & _ & _ & _ & Hf)]; [|assumption].
    exfalso. destruct (string_dec r1 r) as [->|Hd1].
    + pose proof (Hr r2 (not_eq_sym Hd)). lia.
    + pose proof (Hr r1 Hd1). pose proof (Hm r). lia.
  - exact Hstrict.
  - destruct (final_rating_cases ratings Hne)
      as [(r & Hin & Hr & _)|(r1 & r2 & Hd & H1 & H2 & He & Hm & _)].
    + left. eauto.
    + right. exists r1, r2. auto.
Qed.

(** The three sequences named by the specification, through the theorem. *)
Lemma final_rating_majority_vote_witness :
  final_rating ["BUY"; "BUY"; "HOLD"] = Ok "BUY"
  /\ final_rating ["BUY"; "BUY"; "HOLD"; "HOLD"] = Ok "HOLD"
  /\ final_rating ["SELL"] = Ok "SELL".
Proof.
  split; [|split].
  - apply (proj1 (proj2 (proj2 (final_rating_majority_vote
             ["BUY"; "BUY"; "HOLD"] ltac:(discriminate))))).
    + simpl. auto.
    + intros x Hx. count_literal x.
  - apply (proj1 (proj2 (final_rating_majority_vote
             ["BUY"; "BUY"; "HOLD"; "HOLD"] ltac:(discriminate))) "BUY" "HOLD").
    + discriminate.
    + simpl. auto.
    + simpl. auto.
    + reflexivity.
    + intros x. count_literal x.
  - apply (proj1 (final_rating_majority_vote ["SELL"] ltac:(discriminate))).
    intros x [<-|[]]. reflexivity.
Defined.

(* ------------------------------------------------------------------ *)
(** *** The monad *)

Lemma bind_inv_ok {A B} (m : M A) (k : A -> M B) w b w' :
  bind m k w = (Ok b, w') ->
  exists a w1, m w = (Ok a, w1) /\ k a w1 = (Ok b, w').
Proof.
  unfold bind. destruct (m w) as [[a|e] w1]; intros H.
  - eauto.
  - discriminate.
Qed.

Lemma bind_inv_raise {A B} (m : M A) (k : A -> M B) w e w' :
  bind m k w = (Raise e, w') ->
  m w = (Raise e, w')
  \/ exists a w1, m w = (Ok a, w1) /\ k a w1 = (Raise e, w').
Proof.
  unfold bind. destruct (m w) as [[a|e0] w1]; intros H.
  - right. eauto.
  - left. inversion H. reflexivity.
Qed.

Lemma bind_ok {A B} (m : M A) (k : A -> M B) w a w1 :
  m w = (Ok a, w1) -> bind m k w = k a w1.
Proof. unfold bind. intros ->. reflexivity. Qed.

Lemma bind_raise {A B} (m : M A) (k : A -> M B) w e w1 :
  m w = (Raise e, w1) -> bind m k w = (Raise e, w1).
Proof. unfold bind. intros ->. reflexivity. Qed.

(* ------------------------------------------------------------------ *)
(** *** Model invocation *)

(** C5.  Invoking the model never raises.  Without a configured backend the
    call is skipped: the result is none and nothing changes, not even the
    count of backend calls.  With a backend whose call fails, whatever the
    failure, the result is none as well.  A none result takes the stub
    path. *)
Theorem invoke_never_propagates (env : Env) (self : AIClient)
    (rendered : string) (w : world) :
  (exists raw w', invoke env self rendered w = (Ok raw, w'))
  /\ (llm_available self = false ->
      invoke env self rendered w = (Ok None, w))
  /\ (forall e,
        llm_available self = true ->
        env_chat_completion env (chat_used w) rendered = Raise e ->
        fst (invoke env self rendered w) = Ok None)
  /\ (forall w', parse_or_stub env None w' = make_stub env w')
  /\ (env_OPENAI_API_KEY env = None \/ env_OPENAI_API_KEY env = Some ""
      \/ env_openai_installed env = false ->
      llm_available (AIClient_init env) = false).
Proof.
  split; [|split; [|split; [|split]]].
  - unfold invoke, try_except, _call_openai, bind, ret, raise.
    destruct (llm_available self); [|eauto].
    destruct (env_openai_installed env); [|eauto].
    destruct (env_chat_completion env (chat_used w) rendered); eauto.
  - intros H. unfold invoke. rewrite H. reflexivity.
  - intros e H He. unfold invoke, try_except, _call_openai, bind, ret, raise.
    rewrite H. destruct (env_openai_installed env); [|reflexivity].
    rewrite He. reflexivity.
  - intros w'. reflexivity.
  - unfold AIClient_init. simpl. intros [H|[H|H]]; rewrite H; simpl;
      [reflexivity|reflexivity|apply andb_false_r].
Qed.

Lemma invoke_never_propagates_witness :
  invoke (sample_env None (Ok "")) (AIClient_init (sample_env None (Ok "")))
    "Assess" initial_world = (Ok None, initial_world)
  /\ fst (invoke (sample_env (Some "sk-test") (Raise (BackendError "timeout")))
            (AIClient_init (sample_env (Some "sk-test") (Raise (BackendError "timeout"))))
            "Assess" initial_world) = Ok None.
Proof.
  split.
  - apply (proj1 (proj2 (invoke_never_propagates
                           (sample_env None (Ok ""))
                           (AIClient_init (sample_env None (Ok "")))
                           "Assess" initial_world))).
    reflexivity.
  - apply (proj1 (proj2 (proj2 (invoke_never_propagates
                           (sample_env (Some "sk-test") (Raise (BackendError "timeout")))
                           (AIClient_init (sample_env (Some "sk-test")
                                             (Raise (BackendError "timeout"))))
                           "Assess" initial_world)))
             (BackendError "timeout")); reflexivity.
Defined.

(* ------------------------------------------------------------------ *)

(* ------------------------------------------------------------------ *)
(** *** Rounding to binary64 *)

Lemma inject_Z_pos (z : Z) : 0 < z -> (0 < inject_Z z)%Q.
Proof. intros H. change 0%Q with (inject_Z 0). rewrite <- Zlt_Qlt. exact H. Qed.

Lemma inject_Z_pow2_pos (k : Z) : 0 <= k -> (0 < inject_Z (2 ^ k))%Q.
Proof. intros H. apply inject_Z_pos. apply Z.pow_pos_nonneg; lia. Qed.

Lemma pow2_pos (e : Z) : (0 < pow2 e)%Q.
Proof.
  unfold pow2. destruct (0 <=? e) eqn:E.
  - apply Z.leb_le in E. apply inject_Z_pow2_pos. exact E.
  - reflexivity.
Qed.

Lemma pow2_nonneg_exp (e : Z) : 0 <= e -> pow2 e = inject_Z (2 ^ e).
Proof. intros H. unfold pow2. apply Z.leb_le in H. rewrite H. reflexivity. Qed.

Lemma pow2_neg_exp (e : Z) : e < 0 -> (pow2 e * inject_Z (2 ^ (- e)) == 1)%Q.
Proof.
  intros H. unfold pow2. destruct (0 <=? e) eqn:E; [apply Z.leb_le in E; lia|].
  assert (Hp : 0 < 2 ^ (- e)) by (apply Z.pow_pos_nonneg; lia).
  unfold Qeq, Qmult, inject_Z. cbn [Qnum Qden].
  rewrite Pos.mul_1_r, Z2Pos.id by exact Hp. lia.
Qed.

Lemma pow2_add (a b : Z) : (pow2 (a + b) == pow2 a * pow2 b)%Q.
Proof.
  assert (Hinj : forall x y, inject_Z (x * y) = (inject_Z x * inject_Z y)%Q)
    by (intros; apply inject_Z_mult).
  assert (Hpos : forall k, 0 <= k -> 0 < 2 ^ k) by (intros; apply Z.pow_pos_nonneg; lia).
  destruct (Z_lt_le_dec a 0) as [Ha|Ha]; destruct (Z_lt_le_dec b 0) as [Hb|Hb].
  - pose proof (pow2_neg_exp a Ha) as Ea. pose proof (pow2_neg_exp b Hb) as Eb.
    pose proof (pow2_neg_exp (a + b) ltac:(lia)) as Eab.
    replace (- (a + b)) with (- a + - b) in Eab by lia.
    rewrite Z.pow_add_r in Eab by lia. rewrite Hinj in Eab.
    pose proof (pow2_pos a). pose proof (pow2_pos b). pose proof (pow2_pos (a + b)).
    set (x := pow2 a) in *. set (y := pow2 b) in *. set (z := pow2 (a + b)) in *.
    set (u := inject_Z (2 ^ (- a))) in *. set (v := inject_Z (2 ^ (- b))) in *.
    assert (z * (u * v) == (x * u) * (y * v) * 1)%Q by (rewrite Ea, Eb, Eab; ring).
    assert (Hu : (0 < u)%Q) by (apply inject_Z_pow2_pos; lia).
    assert (Hv : (0 < v)%Q) by (apply inject_Z_pow2_pos; lia).
    assert (Huv : (0 < u * v)%Q) by nra.
    apply (Qmult_inj_r _ _ (u * v)); [lra|]. rewrite H2. ring.
  - pose proof (pow2_neg_exp a Ha) as Ea.
    rewrite (pow2_nonneg_exp b Hb).
    set (u := inject_Z (2 ^ (- a))) in *.
    assert (Hu : (0 < u)%Q) by (apply inject_Z_pow2_pos; lia).
    destruct (Z_lt_le_dec (a + b) 0) as [Hab|Hab].
    + pose proof (pow2_neg_exp (a + b) Hab) as Eab.
      assert (E : 2 ^ (- a) = 2 ^ (- (a + b)) * 2 ^ b)
        by (rewrite <- Z.pow_add_r by lia; f_equal; lia).
      apply (Qmult_inj_r _ _ u); [lra|].
      unfold u at 1. rewrite E, Hinj.
      transitivity (pow2 (a + b) * inject_Z (2 ^ (- (a + b))) * inject_Z (2 ^ b))%Q; [ring|].
      rewrite Eab.
      transitivity (pow2 a * u * inject_Z (2 ^ b))%Q; [rewrite Ea; ring|ring].
    + rewrite (pow2_nonneg_exp (a + b) Hab).
      assert (E : 2 ^ b = 2 ^ (a + b) * 2 ^ (- a))
        by (rewrite <- Z.pow_add_r by lia; f_equal; lia).
      rewrite E, Hinj. fold u.
      transitivity (inject_Z (2 ^ (a + b)) * (pow2 a * u))%Q; [rewrite Ea; ring|ring].
  - pose proof (pow2_neg_exp b Hb) as Eb.
    rewrite (pow2_nonneg_exp a Ha).
    set (u := inject_Z (2 ^ (- b))) in *.
    assert (Hu : (0 < u)%Q) by (apply inject_Z_pow2_pos; lia).
    destruct (Z_lt_le_dec (a + b) 0) as [Hab|Hab].
    + pose proof (pow2_neg_exp (a + b) Hab) as Eab.
      assert (E : 2 ^ (- b) = 2 ^ (- (a + b)) * 2 ^ a)
        by (rewrite <- Z.pow_add_r by lia; f_equal; lia).
      apply (Qmult_inj_r _ _ u); [lra|].
      unfold u at 1. rewrite E, Hinj.
      transitivity (pow2 (a + b) * inject_Z (2 ^ (- (a + b))) * inject_Z (2 ^ a))%Q; [ring|].
      rewrite Eab.
      transitivity (inject_Z (2 ^ a) * (pow2 b * u))%Q; [rewrite Eb; ring|ring].
    + rewrite (pow2_nonneg_exp (a + b) Hab).
      assert (E : 2 ^ a = 2 ^ (a + b) * 2 ^ (- b))
        by (rewrite <- Z.pow_add_r by lia; f_equal; lia).
      rewrite E, Hinj. fold u.
      transitivity (inject_Z (2 ^ (a + b)) * (pow2 b * u))%Q; [rewrite Eb; ring|ring].
  - rewrite !pow2_nonneg_exp by lia. rewrite Z.pow_add_r by lia. rewrite Hinj. reflexivity.
Qed.

Lemma pow2_le (a b : Z) : a <= b -> (pow2 a <= pow2 b)%Q.
Proof.
  intros H. replace b with (a + (b - a)) by lia. rewrite pow2_add.
  rewrite (pow2_nonneg_exp (b - a)) by lia.
  assert (1 <= 2 ^ (b - a)) by (apply Z.lt_pred_le; apply Z.pow_pos_nonneg; lia).
  assert ((1 <= inject_Z (2 ^ (b - a)))%Q) by (change 1%Q with (inject_Z 1); rewrite <- Zle_Qle; lia).
  pose proof (pow2_pos a). nra.
Qed.

Lemma Qmake_mul_den (n : Z) (d : positive) :
  ((n # d) * inject_Z (Zpos d) == inject_Z n)%Q.
Proof. unfold Qeq, Qmult, inject_Z. cbn [Qnum Qden]. lia. Qed.

Lemma reaches_spec (n d : positive) (k : Z) :
  reaches n d k = true <-> (pow2 k <= Zpos n # d)%Q.
Proof.
  pose proof (Qmake_mul_den (Zpos n) d) as Hq.
  assert (HD : (0 < inject_Z (Zpos d))%Q) by (apply inject_Z_pos; lia).
  set (q := (Zpos n # d)%Q) in *. set (D := inject_Z (Zpos d)) in *.
  set (N := inject_Z (Zpos n)) in *.
  unfold reaches. destruct (Z_lt_le_dec k 0) as [Hk|Hk].
  - destruct (0 <=? k) eqn:E; [apply Z.leb_le in E; lia|].
    rewrite Z.leb_le, Zle_Qle, inject_Z_mult. fold D N.
    pose proof (pow2_neg_exp k Hk) as Ek. pose proof (pow2_pos k) as Pk.
    set (u := inject_Z (2 ^ (- k))) in *. set (p := pow2 k) in *.
    assert (Hu : (0 < u)%Q) by (apply inject_Z_pow2_pos; lia).
    split; intros H.
    + assert ((p * D <= p * (N * u))%Q) by nra.
      assert ((p * (N * u) == N)%Q) by (transitivity (N * (p * u))%Q; [ring|rewrite Ek; ring]).
      nra.
    + assert (Hdu : (0 < D * u)%Q) by nra.
      assert ((p * (D * u) <= q * (D * u))%Q) by nra.
      assert ((p * (D * u) == D)%Q) by (transitivity (D * (p * u))%Q; [ring|rewrite Ek; ring]).
      assert ((q * (D * u) == N * u)%Q) by (rewrite <- Hq; ring).
      lra.
  - assert (E : (0 <=? k) = true) by (apply Z.leb_le; lia). rewrite E.
    rewrite Z.leb_le, Zle_Qle, inject_Z_mult. fold D N.
    rewrite (pow2_nonneg_exp k Hk).
    pose proof (inject_Z_pow2_pos k Hk).
    set (p := inject_Z (2 ^ k)) in *.
    split; intros; nra.
Qed.

Lemma log2_bounds (n : positive) :
  (pow2 (Z.log2 (Zpos n)) <= inject_Z (Zpos n))%Q
  /\ (inject_Z (Zpos n) < pow2 (Z.log2 (Zpos n) + 1))%Q.
Proof.
  pose proof (Z.log2_spec (Zpos n) ltac:(lia)) as [H1 H2].
  pose proof (Z.log2_nonneg (Zpos n)) as H0.
  rewrite !pow2_nonneg_exp by lia.
  rewrite <- Zle_Qle, <- Zlt_Qlt.
  replace (Z.log2 (Zpos n) + 1) with (Z.succ (Z.log2 (Zpos n))) by lia. split; assumption.
Qed.

Lemma ilog2_spec (n d : positive) :
  (pow2 (ilog2 n d) <= Zpos n # d)%Q /\ (Zpos n # d < pow2 (ilog2 n d + 1))%Q.
Proof.
  pose proof (Qmake_mul_den (Zpos n) d) as Hq.
  assert (HD : (0 < inject_Z (Zpos d))%Q) by (apply inject_Z_pos; lia).
  destruct (log2_bounds n) as [N1 N2]. destruct (log2_bounds d) as [D1 D2].
  unfold ilog2.
  set (ln := Z.log2 (Zpos n)) in *. set (ld := Z.log2 (Zpos d)) in *.
  pose proof (pow2_add (ln - ld + 1) ld) as A1.
  replace (ln - ld + 1 + ld) with (ln + 1) in A1 by lia.
  pose proof (pow2_add (ln - ld - 1) (ld + 1)) as A2.
  replace (ln - ld - 1 + (ld + 1)) with ln in A2 by lia.
  pose proof (pow2_pos (ln - ld + 1)). pose proof (pow2_pos (ln - ld - 1)).
  pose proof (pow2_pos ld). pose proof (pow2_pos (ld + 1)).
  set (q := (Zpos n # d)%Q) in *. set (D := inject_Z (Zpos d)) in *.
  set (N := inject_Z (Zpos n)) in *.
  assert (Hup : (q < pow2 (ln - ld + 1))%Q).
  { set (a := pow2 (ln - ld + 1)) in *. set (b := pow2 ld) in *.
    set (c := pow2 (ln + 1)) in *. nra. }
  assert (Hlo : (pow2 (ln - ld - 1) <= q)%Q).
  { set (a := pow2 (ln - ld - 1)) in *. set (b := pow2 (ld + 1)) in *.
    set (c := pow2 ln) in *. nra. }
  destruct (reaches n d (ln - ld)) eqn:R.
  - apply reaches_spec in R. split; assumption.
  - split; [exact Hlo|].
    replace (ln - ld - 1 + 1) with (ln - ld) by lia.
    apply Qnot_le_lt. intros C. apply reaches_spec in C. fold ln ld in R. congruence.
Qed.

Lemma scale_den_pos (d : positive) (e : Z) : 0 < scale_den d e.
Proof.
  unfold scale_den. destruct (0 <=? e) eqn:E; [|lia].
  apply Z.leb_le in E. assert (0 < 2 ^ e) by (apply Z.pow_pos_nonneg; lia). lia.
Qed.

Lemma scale_spec (n d : positive) (e : Z) :
  (inject_Z (scale_num n e) * pow2 e == (Zpos n # d) * inject_Z (scale_den d e))%Q.
Proof.
  pose proof (Qmake_mul_den (Zpos n) d) as Hq.
  unfold scale_num, scale_den. destruct (Z_lt_le_dec e 0) as [He|He].
  - destruct (0 <=? e) eqn:E; [apply Z.leb_le in E; lia|].
    rewrite inject_Z_mult. rewrite Hq.
    transitivity (inject_Z (Zpos n) * (pow2 e * inject_Z (2 ^ (- e))))%Q; [ring|].
    rewrite (pow2_neg_exp e He). ring.
  - assert (E : (0 <=? e) = true) by (apply Z.leb_le; lia). rewrite E.
    rewrite inject_Z_mult, (pow2_nonneg_exp e He).
    transitivity ((Zpos n # d) * inject_Z (Zpos d) * inject_Z (2 ^ e))%Q; [rewrite Hq; ring|ring].
Qed.

Lemma round_half_even_div_spec (num den : Z) :
  0 < den ->
  let m := round_half_even_div num den in
  (2 * m - 1) * den <= 2 * num <= (2 * m + 1) * den.
Proof.
  intros Hd. unfold round_half_even_div.
  pose proof (Z.div_mod num den ltac:(lia)) as E.
  pose proof (Z.mod_pos_bound num den Hd) as B.
  set (a := num / den) in *. set (r := num mod den) in *. clearbody a r.
  destruct (2 * r ?= den) eqn:C.
  - apply Z.compare_eq in C. destruct (Z.even a); cbv zeta; subst num; lia.
  - change (2 * r < den) in C. cbv zeta. subst num. lia.
  - change (2 * r > den) in C. cbv zeta. subst num. lia.
Qed.

Lemma inject_Z_minus (a b : Z) : inject_Z (a - b) = (inject_Z a - inject_Z b)%Q.
Proof. unfold Z.sub, Qminus. rewrite inject_Z_plus, inject_Z_opp. reflexivity. Qed.

Lemma pow2_succ (e : Z) : (pow2 (e + 1) == 2 * pow2 e)%Q.
Proof. rewrite pow2_add. change (pow2 1) with 2%Q. ring. Qed.

Lemma Qabs_le_both (x y : Q) : (- y <= x)%Q -> (x <= y)%Q -> (Qabs x <= y)%Q.
Proof. intros. apply Qabs_Qle_condition. split; assumption. Qed.

Lemma Qabs_ge_r (x y : Q) : (y <= x)%Q -> (y <= Qabs x)%Q.
Proof. intros. pose proof (Qle_Qabs x). lra. Qed.

Lemma Qabs_ge_l (x y : Q) : (y <= - x)%Q -> (y <= Qabs x)%Q.
Proof. intros. pose proof (Qle_Qabs (- x)). rewrite Qabs_opp in H0. lra. Qed.

Lemma candidate_half_quantum (n d : positive) :
  let q := (Zpos n # d)%Q in
  let f := b64_candidate n d in
  let P := pow2 (quantum n d) in
  (2 * f - P <= 2 * q)%Q /\ (2 * q <= 2 * f + P)%Q.
Proof.
  cbv zeta. unfold b64_candidate, b64_mantissa.
  set (e := quantum n d).
  pose proof (scale_spec n d e) as S.
  pose proof (scale_den_pos d e) as Hd.
  pose proof (round_half_even_div_spec (scale_num n e) (scale_den d e) Hd) as R.
  cbv zeta in R.
  set (m := round_half_even_div (scale_num n e) (scale_den d e)) in *.
  set (num := scale_num n e) in *. set (den := scale_den d e) in *.
  destruct R as [R1 R2].
  rewrite Zle_Qle in R1, R2.
  rewrite !inject_Z_mult in R1, R2. rewrite inject_Z_minus in R1.
  rewrite inject_Z_plus in R2. rewrite !inject_Z_mult in R1, R2.
  change (inject_Z 2) with 2%Q in *. change (inject_Z 1) with 1%Q in *.
  assert (HD : (0 < inject_Z den)%Q) by (apply inject_Z_pos; exact Hd).
  pose proof (pow2_pos e) as HP.
  set (M := inject_Z m) in *. set (Nn := inject_Z num) in *.
  set (Dn := inject_Z den) in *. set (P := pow2 e) in *.
  set (q := (Zpos n # d)%Q) in *.
  split.
  - apply (Qmult_le_r _ _ Dn HD).
    assert (((2 * M - 1) * Dn * P <= 2 * Nn * P)%Q) by nra.
    nra.
  - apply (Qmult_le_r _ _ Dn HD).
    assert ((2 * Nn * P <= (2 * M + 1) * Dn * P)%Q) by nra.
    nra.
Qed.

Lemma candidate_nearest_multiple (n d : positive) (k : Z) :
  let q := (Zpos n # d)%Q in
  (Qabs (q - b64_candidate n d)
   <= Qabs (q - inject_Z k * pow2 (quantum n d)))%Q.
Proof.
  cbv zeta. destruct (candidate_half_quantum n d) as [H1 H2].
  unfold b64_candidate in *.
  set (m := b64_mantissa n d) in *. set (P := pow2 (quantum n d)) in *.
  pose proof (pow2_pos (quantum n d)) as HP. fold P in HP.
  set (q := (Zpos n # d)%Q) in *.
  assert (C : k <= m - 1 \/ k = m \/ m + 1 <= k) by lia.
  destruct C as [C|[C|C]].
  - rewrite Zle_Qle in C. rewrite inject_Z_minus in C. change (inject_Z 1) with 1%Q in C.
    set (M := inject_Z m) in *. set (K := inject_Z k) in *.
    apply Qle_trans with ((1 # 2) * P)%Q.
    + apply Qabs_le_both; lra.
    + apply Qabs_ge_r. nra.
  - subst k. apply Qle_refl.
  - rewrite Zle_Qle in C. rewrite inject_Z_plus in C. change (inject_Z 1) with 1%Q in C.
    set (M := inject_Z m) in *. set (K := inject_Z k) in *.
    apply Qle_trans with ((1 # 2) * P)%Q.
    + apply Qabs_le_both; lra.
    + apply Qabs_ge_l. nra.
Qed.

Lemma quantum_spec (n d : positive) :
  let q := (Zpos n # d)%Q in
  let e := quantum n d in
  - 1074 <= e
  /\ (q < pow2 (e + 53))%Q
  /\ (- 1074 < e -> (pow2 (e + 52) <= q)%Q).
Proof.
  cbv zeta. destruct (ilog2_spec n d) as [L1 L2]. unfold quantum.
  set (L := ilog2 n d) in *.
  split; [lia|]. split.
  - apply Qlt_le_trans with (pow2 (L + 1)); [exact L2|]. apply pow2_le. lia.
  - intros H. replace (Z.max (L - 52) (- 1074)) with (L - 52) by lia.
    replace (L - 52 + 52) with L by lia. exact L1.
Qed.

Lemma pow2_nat (k : Z) : 0 <= k -> (pow2 k == inject_Z (2 ^ k))%Q.
Proof. intros. rewrite pow2_nonneg_exp by assumption. reflexivity. Qed.

Lemma mantissa_range (n d : positive) : 0 <= b64_mantissa n d <= 2 ^ 53.
Proof.
  destruct (candidate_half_quantum n d) as [H1 H2].
  destruct (quantum_spec n d) as (_ & Hq & _).
  unfold b64_candidate in *.
  set (m := b64_mantissa n d) in *. set (e := quantum n d) in *.
  pose proof (pow2_pos e) as HP.
  rewrite pow2_add in Hq. rewrite (pow2_nat 53) in Hq by lia.
  assert (Hpos : (0 < Zpos n # d)%Q) by reflexivity.
  set (q := (Zpos n # d)%Q) in *. set (P := pow2 e) in *.
  assert (A : (- 1 < 2 * inject_Z m)%Q) by nra.
  assert (B : (2 * inject_Z m < 2 * inject_Z (2 ^ 53) + 1)%Q) by nra.
  unfold Qlt, Qmult, Qplus, inject_Z in A, B. cbn [Qnum Qden] in A, B. lia.
Qed.

Lemma candidate_nearest (n d : positive) (g : Q) :
  b64_value g ->
  (Qabs ((Zpos n # d) - b64_candidate n d) <= Qabs ((Zpos n # d) - g))%Q.
Proof.
  intros (mg & eg & Hm & He & Hg).
  destruct (quantum_spec n d) as (E1 & E2 & E3).
  set (e := quantum n d) in *.
  destruct (Z_le_gt_dec e eg) as [C|C].
  - (* [g] is a multiple of the quantum *)
    pose proof (candidate_nearest_multiple n d (mg * 2 ^ (eg - e))) as K.
    cbv zeta in K. fold e in K.
    assert (Eg : (g == inject_Z (mg * 2 ^ (eg - e)) * pow2 e)%Q).
    { rewrite Hg, inject_Z_mult, <- (pow2_nat (eg - e)) by lia.
      replace eg with ((eg - e) + e) at 1 by lia. rewrite pow2_add. ring. }
    rewrite Eg. exact K.
  - (* [g] lies below the binade of [q] *)
    pose proof (candidate_nearest_multiple n d (2 ^ 52)) as K.
    cbv zeta in K. fold e in K.
    specialize (E3 ltac:(lia)).
    rewrite pow2_add in E3. rewrite (pow2_nat 52) in E3 by lia.
    assert (Hgh : (g <= inject_Z (2 ^ 52) * pow2 e)%Q).
    { rewrite Hg.
      assert (Hm' : (inject_Z mg <= inject_Z (2 ^ 53))%Q) by (rewrite <- Zle_Qle; lia).
      assert (Hp : (pow2 eg <= pow2 (e - 1))%Q) by (apply pow2_le; lia).
      pose proof (pow2_succ (e - 1)) as Hs. replace (e - 1 + 1) with e in Hs by lia.
      pose proof (pow2_pos eg). pose proof (pow2_pos (e - 1)).
      change (inject_Z (2 ^ 53)) with (2 * inject_Z (2 ^ 52))%Q in Hm'.
      assert (0 < inject_Z (2 ^ 52))%Q by reflexivity.
      set (a := inject_Z mg) in *. set (b := inject_Z (2 ^ 52)) in *.
      set (x := pow2 eg) in *. set (y := pow2 (e - 1)) in *. set (z := pow2 e) in *.
      destruct (Qlt_le_dec a 0); nra. }
    set (h := (inject_Z (2 ^ 52) * pow2 e)%Q) in *.
    set (q := (Zpos n # d)%Q) in *.
    apply Qle_trans with (Qabs (q - h)); [exact K|].
    apply Qle_trans with (q - h)%Q.
    + apply Qabs_le_both; unfold h; lra.
    + apply Qabs_ge_r. lra.
Qed.

Lemma candidate_le (n d : positive) (c : Q) :
  b64_value c -> (Zpos n # d <= c)%Q -> (b64_candidate n d <= c)%Q.
Proof.
  intros Hc Hle. pose proof (candidate_nearest n d c Hc) as K.
  set (q := (Zpos n # d)%Q) in *. set (f := b64_candidate n d) in *.
  assert (Hc' : (Qabs (q - c) <= c - q)%Q) by (apply Qabs_le_both; lra).
  pose proof (Qle_Qabs (- (q - f))) as A. rewrite Qabs_opp in A. lra.
Qed.

Lemma candidate_ge (n d : positive) (c : Q) :
  b64_value c -> (c <= Zpos n # d)%Q -> (c <= b64_candidate n d)%Q.
Proof.
  intros Hc Hle. pose proof (candidate_nearest n d c Hc) as K.
  set (q := (Zpos n # d)%Q) in *. set (f := b64_candidate n d) in *.
  assert (Hc' : (Qabs (q - c) <= q - c)%Q) by (apply Qabs_le_both; lra).
  pose proof (Qle_Qabs (q - f)) as A. lra.
Qed.

Lemma b64_value_lt_top (c : Q) : b64_value c -> (c < pow2 1024)%Q.
Proof.
  intros (m & e & Hm & He & Hc). rewrite Hc.
  assert (A : (inject_Z m < inject_Z (2 ^ 53))%Q) by (rewrite <- Zlt_Qlt; lia).
  assert (B : (pow2 e <= pow2 971)%Q) by (apply pow2_le; lia).
  pose proof (pow2_add 53 971) as E. change (53 + 971) with 1024 in E.
  rewrite (pow2_nat 53) in E by lia.
  pose proof (pow2_pos e). pose proof (pow2_pos 971).
  assert (0 < inject_Z (2 ^ 53))%Q by reflexivity.
  set (a := inject_Z m) in *. set (b := inject_Z (2 ^ 53)) in *.
  set (x := pow2 e) in *. set (y := pow2 971) in *. set (z := pow2 1024) in *.
  destruct (Qlt_le_dec a 0); nra.
Qed.

(** What [b64_mag] returns is its candidate, and a binary64 number. *)
Lemma b64_mag_unfold (n d : positive) :
  b64_mag n d =
  if (971 <? quantum n d)
     || ((quantum n d =? 971) && (b64_mantissa n d =? 2 ^ 53))
  then None else Some (Qred (b64_candidate n d)).
Proof. reflexivity. Qed.

Lemma b64_mag_some (n d : positive) (v : Q) :
  b64_mag n d = Some v ->
  v = Qred (b64_candidate n d) /\ b64_value v.
Proof.
  rewrite b64_mag_unfold.
  pose proof (mantissa_range n d) as Hm.
  destruct (quantum_spec n d) as (E1 & _ & _).
  destruct ((971 <? quantum n d)
            || ((quantum n d =? 971) && (b64_mantissa n d =? 2 ^ 53))) eqn:O;
    [discriminate|].
  intros H. assert (Hv : v = Qred (b64_candidate n d)) by congruence. clear H.
  split; [exact Hv|].
  assert (Hveq : (v == b64_candidate n d)%Q) by (rewrite Hv; apply Qred_correct).
  unfold b64_candidate in Hveq.
  set (e := quantum n d) in *. set (m := b64_mantissa n d) in *.
  apply orb_false_iff in O. destruct O as [O1 O2].
  apply Z.ltb_ge in O1. apply andb_false_iff in O2.
  destruct (Z.eq_dec m (2 ^ 53)) as [Em|Em].
  - assert (e <> 971) by (destruct O2 as [O2|O2];
      [apply Z.eqb_neq in O2; exact O2 | apply Z.eqb_neq in O2; contradiction]).
    exists (2 ^ 52), (e + 1). split; [reflexivity|]. split; [lia|].
    rewrite Hveq, Em, pow2_succ.
    change (inject_Z (2 ^ 53)) with (2 * inject_Z (2 ^ 52))%Q. ring.
  - exists m, e. split; [lia|]. split; [lia|]. exact Hveq.
Qed.

(** There is a result whenever some binary64 number is at least [n / d]. *)
Lemma b64_mag_in_range (n d : positive) (c : Q) :
  b64_value c -> (Zpos n # d <= c)%Q ->
  b64_mag n d = Some (Qred (b64_candidate n d)).
Proof.
  intros Hc Hle. pose proof (candidate_le n d c Hc Hle) as Hf.
  pose proof (b64_value_lt_top c Hc) as Htop.
  destruct (quantum_spec n d) as (E1 & E2 & E3).
  rewrite b64_mag_unfold. unfold b64_candidate in Hf.
  set (e := quantum n d) in *. set (m := b64_mantissa n d) in *.
  destruct ((971 <? e) || ((e =? 971) && (m =? 2 ^ 53))) eqn:O; [|reflexivity].
  exfalso. apply orb_true_iff in O. destruct O as [O|O].
  - apply Z.ltb_lt in O. specialize (E3 ltac:(lia)).
    assert (pow2 1024 <= pow2 (e + 52))%Q by (apply pow2_le; lia). lra.
  - apply andb_true_iff in O. destruct O as [O1 O2].
    apply Z.eqb_eq in O1, O2. rewrite O1, O2 in Hf.
    pose proof (pow2_add 53 971) as E. change (53 + 971) with 1024 in E.
    rewrite (pow2_nat 53) in E by lia. lra.
Qed.

Lemma b64_value_0 : b64_value 0.
Proof. exists 0, 0. split; [reflexivity|]. split; [lia|]. reflexivity. Qed.

Lemma b64_value_int (z : Z) : Z.abs z < 2 ^ 53 -> b64_value (inject_Z z).
Proof.
  intros H. exists z, 0. split; [exact H|]. split; [lia|].
  change (pow2 0) with 1%Q. ring.
Qed.

Lemma b64_value_opp (g : Q) : b64_value g -> b64_value (- g).
Proof.
  intros (m & e & Hm & He & Hg). exists (- m), e.
  split; [rewrite Z.abs_opp; exact Hm|]. split; [exact He|].
  rewrite inject_Z_opp, Hg. ring.
Qed.

Lemma b64_value_eq (g h : Q) : (g == h)%Q -> b64_value g -> b64_value h.
Proof.
  intros E (m & e & Hm & He & Hg). exists m, e.
  split; [exact Hm|]. split; [exact He|]. rewrite <- E. exact Hg.
Qed.

Lemma Qabs_eq (x y : Q) : (x == y)%Q -> (Qabs x == Qabs y)%Q.
Proof. intros E. rewrite E. reflexivity. Qed.

Lemma b64_pos_spec (n d : positive) (c : Q) :
  b64_value c -> (Zpos n # d <= c)%Q ->
  exists v, b64 (Zpos n # d) = Fin v
            /\ (v == b64_candidate n d)%Q /\ b64_value v.
Proof.
  intros Hc Hle. pose proof (b64_mag_in_range n d c Hc Hle) as E.
  destruct (b64_mag_some n d _ E) as [_ Hv].
  exists (Qred (b64_candidate n d)).
  split; [|split; [apply Qred_correct|exact Hv]].
  unfold b64. cbn [Qnum Qden]. rewrite E. reflexivity.
Qed.

Lemma b64_neg_spec (n d : positive) (c : Q) :
  b64_value c -> (Zpos n # d <= c)%Q ->
  exists a v, b64 (Zneg n # d) = a /\ float_value a = Some v
              /\ (v == - b64_candidate n d)%Q /\ b64_value v.
Proof.
  intros Hc Hle. pose proof (b64_mag_in_range n d c Hc Hle) as E.
  destruct (b64_mag_some n d _ E) as [_ Hv].
  unfold b64. cbn [Qnum Qden]. rewrite E.
  destruct (Qeq_bool (Qred (b64_candidate n d)) 0) eqn:Z.
  - apply Qeq_bool_eq in Z. rewrite Qred_correct in Z.
    exists NegZero, 0%Q. split; [reflexivity|]. split; [reflexivity|].
    split; [rewrite Z; reflexivity|exact b64_value_0].
  - exists (Fin (Qred (- Qred (b64_candidate n d)))), (Qred (- Qred (b64_candidate n d))).
    split; [reflexivity|]. split; [reflexivity|].
    assert (Ev : (Qred (- Qred (b64_candidate n d)) == - b64_candidate n d)%Q)
      by (rewrite !Qred_correct; reflexivity).
    split; [exact Ev|].
    apply (b64_value_eq (- Qred (b64_candidate n d))).
    + rewrite !Qred_correct. reflexivity.
    + apply b64_value_opp. exact Hv.
Qed.

(** Rounding gives a nearest binary64 number, for every value within the
    range of binary64. *)
Theorem b64_nearest (q c : Q) :
  b64_value c -> (Qabs q <= c)%Q ->
  exists a v, b64 q = a /\ float_value a = Some v /\ nearest_b64 q v.
Proof.
  intros Hc Hle. destruct q as [[|n|n] d].
  - exists (Fin 0), 0%Q. split; [reflexivity|]. split; [reflexivity|].
    split; [exact b64_value_0|]. intros g _.
    assert (E : ((0 # d) - 0 == 0)%Q) by reflexivity.
    rewrite (Qabs_eq _ _ E). apply Qabs_nonneg.
  - assert (Hle' : (Zpos n # d <= c)%Q)
      by (apply Qle_trans with (Qabs (Zpos n # d)); [apply Qle_Qabs|exact Hle]).
    destruct (b64_pos_spec n d c Hc Hle') as (v & E & Ev & Hv).
    exists (Fin v), v. split; [exact E|]. split; [reflexivity|].
    split; [exact Hv|]. intros g Hg.
    assert (E1 : ((Zpos n # d) - v == (Zpos n # d) - b64_candidate n d)%Q)
      by (rewrite Ev; reflexivity).
    rewrite (Qabs_eq _ _ E1). apply candidate_nearest. exact Hg.
  - assert (Hle' : (Zpos n # d <= c)%Q).
    { apply Qle_trans with (Qabs (Zneg n # d)); [|exact Hle].
      change (Zneg n # d) with (- (Zpos n # d))%Q. rewrite Qabs_opp. apply Qle_Qabs. }
    destruct (b64_neg_spec n d c Hc Hle') as (a & v & E & Ea & Ev & Hv).
    exists a, v. split; [exact E|]. split; [exact Ea|].
    split; [exact Hv|]. intros g Hg.
    assert (E1 : ((Zneg n # d) - v == - ((Zpos n # d) - b64_candidate n d))%Q).
    { rewrite Ev. change (Zneg n # d) with (- (Zpos n # d))%Q. ring. }
    assert (E2 : ((Zneg n # d) - g == - ((Zpos n # d) - - g))%Q).
    { change (Zneg n # d) with (- (Zpos n # d))%Q. ring. }
    rewrite (Qabs_eq _ _ E1), (Qabs_eq _ _ E2), !Qabs_opp.
    apply candidate_nearest. apply b64_value_opp. exact Hg.
Qed.

(** A binary64 number rounds to itself. *)
Lemma nearest_b64_exact (g v : Q) : b64_value g -> nearest_b64 g v -> (v == g)%Q.
Proof.
  intros Hg [_ H]. specialize (H g Hg).
  assert (E : (g - g == 0)%Q) by ring. rewrite (Qabs_eq _ _ E) in H.
  change (Qabs 0) with 0%Q in H.
  pose proof (Qle_Qabs (g - v)) as A.
  pose proof (Qle_Qabs (- (g - v))) as B. rewrite Qabs_opp in B. lra.
Qed.

(** Rounding keeps a value between the binary64 numbers around it. *)
Lemma nearest_b64_between (q v lo hi : Q) :
  b64_value lo -> b64_value hi -> (lo <= q)%Q -> (q <= hi)%Q ->
  nearest_b64 q v -> (lo <= v)%Q /\ (v <= hi)%Q.
Proof.
  intros Hlo Hhi H1 H2 [_ H].
  pose proof (H lo Hlo) as A. pose proof (H hi Hhi) as B.
  assert (A' : (Qabs (q - lo) <= q - lo)%Q) by (apply Qabs_le_both; lra).
  assert (B' : (Qabs (q - hi) <= hi - q)%Q) by (apply Qabs_le_both; lra).
  pose proof (Qle_Qabs (q - v)) as C.
  pose proof (Qle_Qabs (- (q - v))) as D. rewrite Qabs_opp in D.
  split; lra.
Qed.

Lemma Qabs_le_of_bounds (q lo hi : Q) :
  (lo <= q)%Q -> (q <= hi)%Q -> (0 <= lo)%Q -> (Qabs q <= hi)%Q.
Proof. intros. apply Qabs_le_both; lra. Qed.

(** A value between two binary64 numbers that are not negative rounds to a
    finite float between them. *)
Theorem b64_between (q lo hi : Q) :
  b64_value lo -> b64_value hi -> (0 <= lo)%Q -> (lo <= q)%Q -> (q <= hi)%Q ->
  exists f, b64 q = Fin f /\ (lo <= f)%Q /\ (f <= hi)%Q /\ nearest_b64 q f.
Proof.
  intros Hlo Hhi H0 H1 H2.
  destruct (b64_nearest q hi Hhi (Qabs_le_of_bounds q lo hi H1 H2 H0))
    as (a & v & E & Ea & Hn).
  destruct (nearest_b64_between q v lo hi Hlo Hhi H1 H2 Hn) as [B1 B2].
  destruct q as [[|n|n] d].
  - exists 0%Q. split; [reflexivity|].
    cbv [b64 Qnum] in E. subst a. injection Ea as <-. auto.
  - exists v. split; [|auto].
    unfold b64 in *. cbn [Qnum Qden] in *.
    destruct (b64_mag n d); subst a; [|discriminate].
    injection Ea as ->. reflexivity.
  - exfalso. assert ((Zneg n # d) < 0)%Q by reflexivity. lra.
Qed.

(** The float of a binary64 number is that number. *)
Theorem b64_exact (g : Q) :
  b64_value g -> exists a v, b64 g = a /\ float_value a = Some v /\ (v == g)%Q.
Proof.
  intros Hg.
  assert (Hc : b64_value (Qabs g)).
  { apply Qabs_case; intros _; [exact Hg|apply b64_value_opp; exact Hg]. }
  destruct (b64_nearest g (Qabs g) Hc (Qle_refl _)) as (a & v & E & Ea & Hn).
  exists a, v. split; [exact E|]. split; [exact Ea|].
  apply nearest_b64_exact; assumption.
Qed.

(* ------------------------------------------------------------------ *)
(** *** The stub *)

Lemma b64_value_10 : b64_value 10.
Proof. apply (b64_value_int 10). reflexivity. Qed.

Lemma b64_value_190 : b64_value 190.
Proof. apply (b64_value_int 190). reflexivity. Qed.

Lemma b64_value_200 : b64_value 200.
Proof. apply (b64_value_int 200). reflexivity. Qed.

Lemma unit_fraction_range (r : Z) :
  let u := Qred ((r mod 2 ^ 53) # (2 ^ 53)) in (0 <= u)%Q /\ (u <= 1)%Q.
Proof.
  cbv zeta. rewrite Qred_correct.
  pose proof (Z.mod_pos_bound r (2 ^ 53) ltac:(reflexivity)) as H.
  unfold Qle. cbn [Qnum Qden]. split; [lia|].
  change (Z.pos (2 ^ 53)) with (2 ^ 53). lia.
Qed.

Lemma sign_bit_nonneg (q : Q) : (0 <= q)%Q -> sign_bit (Fin q) = false.
Proof.
  intros H. unfold sign_bit. apply Z.ltb_ge. unfold Qle in H. cbn in H. lia.
Qed.

Lemma fmul_190_unit (u : Q) :
  (0 <= u)%Q -> (u <= 1)%Q ->
  exists y, fmul (Fin 190) (Fin u) = Fin y /\ (0 <= y)%Q /\ (y <= 190)%Q.
Proof.
  intros H0 H1. unfold fmul. rewrite (sign_bit_nonneg u H0).
  cbn [sign_bit float_value Qnum Z.ltb Z.compare xorb].
  unfold b64_signed.
  pose proof (Qabs_pos u H0) as Eu. change (Qabs 190) with 190%Q.
  set (a := Qabs u) in *.
  destruct (Qeq_bool (190 * a) 0).
  - exists 0%Q. split; [reflexivity|]. split; [apply Qle_refl|discriminate].
  - destruct (b64_between (190 * a) 0 190 b64_value_0 b64_value_190)
      as (y & E & B1 & B2 & _); try lra.
    exists y. auto.
Qed.

Lemma fadd_10 (y : Q) :
  (0 <= y)%Q -> (y <= 190)%Q ->
  exists x, fadd (Fin 10) (Fin y) = Fin x /\ (10 <= x)%Q /\ (x <= 200)%Q.
Proof.
  intros H0 H1. cbn [fadd].
  destruct (b64_between (10 + y) 10 200 b64_value_10 b64_value_200)
    as (x & E & B1 & B2 & _); try lra.
  exists x. auto.
Qed.

Lemma uniform_10_200 (u : Q) :
  (0 <= u)%Q -> (u <= 1)%Q ->
  exists x,
    fadd (Fin 10) (fmul (fsub (Fin 200) (Fin 10)) (Fin u)) = Fin x
    /\ (10 <= x)%Q /\ (x <= 200)%Q.
Proof.
  intros H0 H1.
  change (fsub (Fin 200) (Fin 10)) with (Fin 190).
  destruct (fmul_190_unit u H0 H1) as (y & -> & Y0 & Y1).
  apply fadd_10; assumption.
Qed.

Lemma py_round_2_spec (x : Q) :
  (10 <= x)%Q -> (x <= 200)%Q -> stub_price (py_round (Fin x) 2).
Proof.
  intros H0 H1. unfold py_round.
  change (10 ^ Z.of_nat 2) with 100.
  pose proof (round_half_even_div_spec (Qnum x * 100) (Zpos (Qden x)) ltac:(lia)) as R.
  cbv zeta in R.
  set (k := round_half_even_div (Qnum x * 100) (Z.pos (Qden x))) in *.
  unfold Qle in H0, H1. cbn [Qnum Qden] in H0, H1.
  assert (Hk : 1000 <= k <= 20000) by nia.
  destruct (k =? 0) eqn:E; [apply Z.eqb_eq in E; lia|].
  change (Z.to_pos 100) with 100%positive.
  destruct (b64_between (k # 100) 10 200 b64_value_10 b64_value_200)
    as (v & Ev & B1 & B2 & Hn).
  - discriminate.
  - unfold Qle. cbn [Qnum Qden]. lia.
  - unfold Qle. cbn [Qnum Qden]. lia.
  - exists v, k. auto.
Qed.

Lemma stub_rating_threshold (sc : Z) :
  threshold_rating sc
    (if 70 <=? sc then "BUY" else if 40 <=? sc then "HOLD" else "SELL").
Proof.
  unfold threshold_rating.
  destruct (70 <=? sc) eqn:E1; [apply Z.leb_le in E1|apply Z.leb_gt in E1];
    destruct (40 <=? sc) eqn:E2; [apply Z.leb_le in E2|apply Z.leb_gt in E2| |];
    try apply Z.leb_le in E2; try apply Z.leb_gt in E2;
    repeat split; intros; try reflexivity; lia.
Qed.

(** The stub of [generate]: its fields, and what producing it changes. *)
Lemma make_stub_spec (env : Env) (w : world) :
  exists sc r tp w',
    make_stub env w
    = (Ok (stub_dict sc r tp, Some (json_dumps (stub_dict sc r tp))), w')
    /\ 1 <= sc <= 100
    /\ threshold_rating sc r
    /\ stub_price tp
    /\ db w' = db w /\ trace w' = trace w /\ chat_used w' = chat_used w
    /\ uuid_used w' = uuid_used w /\ clock_used w' = clock_used w.
Proof.
  unfold make_stub, randint, randbelow, uniform, random_unit, next_random,
    bind, ret.
  cbn -[py_round json_dumps Z.pow Pos.pow Z.modulo Z.add Z.sub fadd fmul fsub Qred].
  replace (100 - 1 + 1) with 100 by reflexivity.
  set (r1 := env_random env (random_used w)).
  set (r2 := env_random env (S (random_used w))).
  destruct (unit_fraction_range r2) as [H0 H1]. cbv zeta in H0, H1.
  destruct (uniform_10_200 _ H0 H1) as (x & Ex & Hlo & Hhi).
  pose proof (py_round_2_spec x Hlo Hhi) as Hp.
  eexists _, _, _, _. split; [reflexivity|].
  assert (Hm : 0 <= r1 mod 100 < 100) by (apply Z.mod_pos_bound; lia).
  split; [lia|]. split; [apply stub_rating_threshold|].
  split; [|cbn; auto 6].
  rewrite Ex. exact Hp.
Qed.

Lemma parse_or_stub_ok (env : Env) (raw : option string) (v : pyval) (w : world) :
  parse_raw env raw = Ok v ->
  parse_or_stub env raw w
  = if negb (py_truthy v) then make_stub env w else (Ok (v, raw), w).
Proof.
  intros H. unfold parse_or_stub, bind, lift. rewrite H.
  destruct (py_truthy v); reflexivity.
Qed.

Lemma parse_or_stub_raise (env : Env) (raw : option string) (e : exn) (w : world) :
  parse_raw env raw = Raise e -> parse_or_stub env raw w = (Raise e, w).
Proof. intros H. unfold parse_or_stub, bind, lift. rewrite H. reflexivity. Qed.

Lemma no_usable_reply_falsy (env : Env) (raw : option string) :
  no_usable_reply env raw ->
  exists v, parse_raw env raw = Ok v /\ py_truthy v = false.
Proof.
  unfold parse_raw.
  intros [->|[->|[(t & msg & -> & H)|(t & v & -> & H & Hv)]]].
  - exists (PDict []). auto.
  - exists (PDict []). auto.
  - rewrite H. exists (PDict []). destruct (negb (t =? "")%string); auto.
  - rewrite H. destruct (negb (t =? "")%string); [exists v|exists (PDict [])]; auto.
Qed.

Lemma threshold_rating_literal (sc : Z) (r : string) :
  threshold_rating sc r -> r = "BUY" \/ r = "HOLD" \/ r = "SELL".
Proof.
  intros (H1 & H2 & H3).
  destruct (Z_le_gt_dec 70 sc); [left; auto|].
  destruct (Z_le_gt_dec 40 sc); [right; left; apply H2; lia|].
  right. right. apply H3. lia.
Qed.

Lemma coerce_stub_dict (env : Env) (sc : Z) (r : string) (tp : pyfloat) :
  threshold_rating sc r ->
  coerce_outcome env (stub_dict sc r tp)
  = Ok {| score := sc; rating := r; target_price := tp;
          rationale := PStr stub_rationale |}.
Proof.
  intros Hr.
  destruct (threshold_rating_literal _ _ Hr) as [-> | [-> | ->]]; reflexivity.
Qed.

Lemma resolve_stub (env : Env) (raw : option string) (w : world) :
  (exists v, parse_raw env raw = Ok v /\ py_truthy v = false) ->
  exists sc r tp w',
    parse_or_stub env raw w
    = (Ok (stub_dict sc r tp, Some (json_dumps (stub_dict sc r tp))), w')
    /\ resolve_outcome env raw w
       = (Ok ({| score := sc; rating := r; target_price := tp;
                 rationale := PStr stub_rationale |},
              Some (json_dumps (stub_dict sc r tp))), w')
    /\ 1 <= sc <= 100
    /\ threshold_rating sc r
    /\ stub_price tp
    /\ db w' = db w /\ trace w' = trace w /\ chat_used w' = chat_used w
    /\ uuid_used w' = uuid_used w /\ clock_used w' = clock_used w.
Proof.
  intros (v & Hp & Hv).
  destruct (make_stub_spec env w) as (sc & r & tp & w' & Hm & Hsc & Hr & Htp & Hw).
  exists sc, r, tp, w'.
  assert (E : parse_or_stub env raw w
              = (Ok (stub_dict sc r tp, Some (json_dumps (stub_dict sc r tp))), w')).
  { rewrite (parse_or_stub_ok env raw v w Hp), Hv. exact Hm. }
  split; [exact E|]. split; [|auto].
  unfold resolve_outcome, bind. rewrite E. unfold lift.
  rewrite (coerce_stub_dict env sc r tp Hr). reflexivity.
Qed.

(** C3.  Without a usable reply (no raw text, empty text, text that is not
    well-formed JSON, or JSON for an empty value) the outcome is the stub:
    an integer score in [1,100], the rating the thresholds give for that
    score, as price the float nearest to a whole number of hundredths
    between 10.00 and 200.00, itself between 10.0 and 200.0, the fixed
    placeholder rationale, and as raw text the JSON form of the stub
    dictionary. *)
Theorem stub_outcome_spec (env : Env) (raw : option string) (w : world) :
  no_usable_reply env raw ->
  exists sc r tp w',
    parse_or_stub env raw w
    = (Ok (stub_dict sc r tp, Some (json_dumps (stub_dict sc r tp))), w')
    /\ resolve_outcome env raw w
       = (Ok ({| score := sc; rating := r; target_price := tp;
                 rationale := PStr stub_rationale |},
              Some (json_dumps (stub_dict sc r tp))), w')
    /\ 1 <= sc <= 100
    /\ threshold_rating sc r
    /\ stub_price tp.
Proof.
  intros Hn. apply no_usable_reply_falsy in Hn.
  destruct (resolve_stub env raw w Hn) as (sc & r & tp & w' & Hp & Hr & Hsc & Ht & Hk & _).
  exists sc, r, tp, w'. auto.
Qed.

Lemma stub_outcome_spec_witness :
  exists sc r tp w',
    parse_or_stub (sample_env None (Ok "")) (Some "not json") initial_world
    = (Ok (stub_dict sc r tp, Some (json_dumps (stub_dict sc r tp))), w')
    /\ resolve_outcome (sample_env None (Ok "")) (Some "not json") initial_world
       = (Ok ({| score := sc; rating := r; target_price := tp;
                 rationale := PStr stub_rationale |},
              Some (json_dumps (stub_dict sc r tp))), w')
    /\ 1 <= sc <= 100
    /\ threshold_rating sc r
    /\ stub_price tp.
Proof.
  apply (stub_outcome_spec (sample_env None (Ok "")) (Some "not json") initial_world).
  right. right. left. exists "not json", "Expecting value". split; reflexivity.
Defined.

(* ------------------------------------------------------------------ *)
(** *** From raw text to outcome *)

Lemma coerce_outcome_dict (env : Env) (d : pydict) :
  coerce_outcome env (PDict d)
  = rbind (py_int (env_python env) (dict_get_default d "score" (PInt 0))) (fun s =>
    rbind (py_float (env_python env) (dict_get_default d "target_buy_price" (PInt 0)))
      (fun t =>
    Ok {| score := s;
          rating := upper (env_python env)
                      (py_str (env_python env) (dict_get_default d "rating" (PStr "")));
          target_price := t;
          rationale := dict_get_default d "rationale" (PStr "") |})).
Proof. reflexivity. Qed.

Lemma resolve_usable (env : Env) (raw : option string) (v : pyval) (w : world) :
  parse_raw env raw = Ok v -> py_truthy v = true ->
  resolve_outcome env raw w
  = match coerce_outcome env v with
    | Ok o => (Ok (o, raw), w)
    | Raise e => (Raise e, w)
    end.
Proof.
  intros Hp Ht. unfold resolve_outcome, bind.
  rewrite (parse_or_stub_ok env raw v w Hp), Ht. cbn [negb]. unfold lift.
  destruct (coerce_outcome env v); reflexivity.
Qed.

Lemma parse_raw_some (env : Env) (text : string) (v : pyval) :
  text <> "" -> json_loads (env_python env) text = Ok v ->
  parse_raw env (Some text) = Ok v.
Proof.
  intros Hne H. unfold parse_raw. rewrite H.
  destruct (String.eqb text "") eqn:E; [apply String.eqb_eq in E; contradiction|].
  reflexivity.
Qed.

(* ------------------------------------------------------------------ *)
(** *** Field coercions *)

Lemma dict_get_default_absent (d : pydict) (k : string) (v : pyval) :
  dict_get d k = None -> dict_get_default d k v = v.
Proof. unfold dict_get_default. intros ->. reflexivity. Qed.

Lemma dict_get_default_present (d : pydict) (k : string) (v x : pyval) :
  dict_get d k = Some x -> dict_get_default d k v = x.
Proof. unfold dict_get_default. intros ->. reflexivity. Qed.

Lemma example_reply_parses (py : Python) :
  (1 <= json_depth py)%nat ->
  json_loads py example_reply
  = Ok (PDict [("score", PInt 85); ("rating", PStr "buy");
               ("target_buy_price", PFloat (Fin (85 # 2)));
               ("rationale", PStr "x")]).
Proof.
  intros H. unfold json_loads. destruct (json_depth py) as [|n]; [lia|].
  vm_compute. reflexivity.
Qed.

(** C6, as the code has it.  On a parsed object the coercions succeed
    exactly when the score converts with [int] and the price with [float];
    then score is [int] of the field (0 when absent), rating is the
    upper-cased [str] of the field (empty when absent), target price is
    [float] of the field (0.0 when absent), and rationale is the field
    itself, whatever its type (the empty string when absent).  The reply
    of the specification's example gives score 85 and rating BUY. *)
Theorem coerce_outcome_fields (env : Env) (d : pydict) :
  (forall o, coerce_outcome env (PDict d) = Ok o ->
     py_int (env_python env) (dict_get_default d "score" (PInt 0)) = Ok (score o)
     /\ (dict_get d "score" = None -> score o = 0)
     /\ (forall z, dict_get d "score" = Some (PInt z) -> score o = z)
     /\ rating o = upper (env_python env)
                     (py_str (env_python env) (dict_get_default d "rating" (PStr "")))
     /\ (dict_get d "rating" = None -> rating o = "")
     /\ (forall r, dict_get d "rating" = Some (PStr r) ->
         rating o = upper (env_python env) r)
     /\ py_float (env_python env) (dict_get_default d "target_buy_price" (PInt 0))
        = Ok (target_price o)
     /\ (dict_get d "target_buy_price" = None -> target_price o = Fin 0)
     /\ (forall f, dict_get d "target_buy_price" = Some (PFloat f) ->
         target_price o = f)
     /\ (dict_get d "rationale" = None -> rationale o = PStr "")
     /\ (forall v, dict_get d "rationale" = Some v -> rationale o = v))
  /\ ((exists o, coerce_outcome env (PDict d) = Ok o)
      <-> is_ok (py_int (env_python env) (dict_get_default d "score" (PInt 0))) = true
          /\ is_ok (py_float (env_python env)
                      (dict_get_default d "target_buy_price" (PInt 0))) = true)
  /\ (forall w text,
        (1 <= json_depth (env_python env))%nat ->
        text = dq "{'score': 85, 'rating': 'buy', 'target_buy_price': 42.5, 'rationale': 'x'}" ->
        resolve_outcome env (Some text) w
        = (Ok ({| score := 85; rating := "BUY"; target_price := Fin (85 # 2);
                  rationale := PStr "x" |}, Some text), w)).
Proof.
  split; [|split].
  - intros o Ho. rewrite coerce_outcome_dict in Ho.
    destruct (py_int (env_python env) (dict_get_default d "score" (PInt 0)))
      as [s|] eqn:Hs; [|discriminate].
    destruct (py_float (env_python env) (dict_get_default d "target_buy_price" (PInt 0)))
      as [t|] eqn:Ht; [|discriminate].
    simpl in Ho. injection Ho as <-. simpl.
    repeat split.
    + intros H. rewrite (dict_get_default_absent _ _ _ H) in Hs. simpl in Hs. congruence.
    + intros z H. rewrite (dict_get_default_present _ _ _ _ H) in Hs. simpl in Hs. congruence.
    + intros H. rewrite (dict_get_default_absent _ _ _ H). reflexivity.
    + intros r H. rewrite (dict_get_default_present _ _ _ _ H). reflexivity.
    + intros H. rewrite (dict_get_default_absent _ _ _ H) in Ht.
      vm_compute in Ht. injection Ht as <-. reflexivity.
    + intros f H. rewrite (dict_get_default_present _ _ _ _ H) in Ht. simpl in Ht. congruence.
    + intros H. apply dict_get_default_absent. assumption.
    + intros v H. apply dict_get_default_present. assumption.
  - rewrite coerce_outcome_dict.
    destruct (py_int (env_python env) (dict_get_default d "score" (PInt 0))) as [s|];
      destruct (py_float (env_python env)
                  (dict_get_default d "target_buy_price" (PInt 0))) as [t|];
      simpl; split; try (intros [? ?]; discriminate); try (intros [o Ho]; discriminate);
      eauto.
  - intros w text Hd ->.
    pose proof (example_reply_parses (env_python env) Hd) as E.
    unfold example_reply in E.
    assert (Hne : dq "{'score': 85, 'rating': 'buy', 'target_buy_price': 42.5, 'rationale': 'x'}" <> "")
      by (vm_compute; discriminate).
    rewrite (resolve_usable env _ _ w (parse_raw_some env _ _ Hne E) eq_refl).
    reflexivity.
Qed.

Lemma coerce_outcome_fields_witness :
  rationale {| score := 7; rating := "HOLD"; target_price := Fin 0;
               rationale := PStr "fair" |} = PStr "fair"
  /\ resolve_outcome (sample_env (Some "sk-test") (Ok ""))
       (Some (dq "{'score': 85, 'rating': 'buy', 'target_buy_price': 42.5, 'rationale': 'x'}"))
       initial_world
     = (Ok ({| score := 85; rating := "BUY"; target_price := Fin (85 # 2);
               rationale := PStr "x" |},
            Some (dq "{'score': 85, 'rating': 'buy', 'target_buy_price': 42.5, 'rationale': 'x'}")),
        initial_world).
Proof.
  split.
  - apply (proj1 (coerce_outcome_fields (sample_env (Some "sk-test") (Ok ""))
                    [("score", PFloat (Fin (15 # 2))); ("rating", PStr "hold");
                     ("rationale", PStr "fair")])
             {| score := 7; rating := "HOLD"; target_price := Fin 0;
                rationale := PStr "fair" |});
      reflexivity.
  - apply (proj2 (proj2 (coerce_outcome_fields (sample_env (Some "sk-test") (Ok "")) []))).
    + vm_compute. lia.
    + reflexivity.
Defined.

(** A numeric rationale stays a number: the outcome's rationale is not a
    string, against the claim that it is coerced to one. *)
Lemma coerce_outcome_keeps_rationale_type :
  exists o,
    coerce_outcome (sample_env None (Ok ""))
      (PDict [("score", PInt 50); ("rationale", PInt 5)]) = Ok o
    /\ rationale o = PInt 5
    /\ forall s, rationale o <> PStr s.
Proof.
  eexists. split; [reflexivity|]. split; [reflexivity|].
  intros s. discriminate.
Qed.

(* ------------------------------------------------------------------ *)
(** *** Means *)

Lemma final_rating_total (ratings : list string) :
  ratings <> [] -> exists r, final_rating ratings = Ok r.
Proof.
  intros H. destruct (final_rating_cases ratings H)
    as [(r & _ & _ & Hf)|(r1 & r2 & _ & _ & _ & _ & _ & Hf)]; eauto.
Qed.

Lemma fold_left_add_total (xs : list Z) (a : Z) :
  fold_left Z.add xs a = a + total xs.
Proof.
  revert a. induction xs as [|x xs IH]; intros a; simpl.
  - lia.
  - rewrite IH. unfold total. simpl. lia.
Qed.

Lemma b64_value_int53 (k : Z) : Z.abs k <= 2 ^ 53 -> b64_value (inject_Z k).
Proof.
  intros H. destruct (Z.eq_dec (Z.abs k) (2 ^ 53)) as [E|E].
  - exists (k / 2), 1. split; [|split; [lia|]].
    + assert (Z.abs (k / 2) = 2 ^ 52); [|lia].
      destruct (Z.abs_spec k) as [[_ A]|[_ A]].
      * rewrite A in E. rewrite E. reflexivity.
      * assert (k = - 2 ^ 53) by lia. subst k. reflexivity.
    + assert (K : k = 2 * (k / 2)).
      { destruct (Z.abs_spec k) as [[_ A]|[_ A]].
        - rewrite A in E. rewrite E. reflexivity.
        - assert (k = - 2 ^ 53) by lia. subst k. reflexivity. }
      rewrite K at 1. rewrite inject_Z_mult. change (pow2 1) with 2%Q.
      change (inject_Z 2) with 2%Q. ring.
  - apply b64_value_int. lia.
Qed.

(** The float of a binary64 number is finite and is that number. *)
Lemma b64_fin_exact (g : Q) :
  b64_value g -> exists v, b64 g = Fin v /\ (v == g)%Q.
Proof.
  intros Hg. destruct (b64_exact g Hg) as (a & v & E & Ea & Ev).
  destruct a as [q| | |]; try discriminate.
  - injection Ea as ->. exists v. auto.
  - injection Ea as <-. exfalso.
    destruct g as [[|n|n] d]; unfold b64 in E; cbn [Qnum Qden] in E.
    + discriminate.
    + destruct (b64_mag n d); discriminate.
    + assert ((Zneg n # d) < 0)%Q by reflexivity. lra.
Qed.

Lemma Qred_inject_Z (k : Z) (q : Q) : (q == inject_Z k)%Q -> Qred q = inject_Z k.
Proof.
  intros E. rewrite (Qred_complete _ _ E). unfold Qred, inject_Z.
  pose proof (Z.ggcd_gcd k 1) as G. pose proof (Z.ggcd_correct_divisors k 1) as C.
  destruct (Z.ggcd k 1) as (g, (a, b)). cbn [fst snd] in *.
  rewrite Z.gcd_1_r in G. subst g. destruct C as [C1 C2].
  assert (Ha : a = k) by lia. assert (Hb : b = 1) by lia. subst a b. reflexivity.
Qed.

Lemma b64_fin_canonical (q : Q) (v : Q) : b64 q = Fin v -> Qred v = v.
Proof.
  destruct q as [[|n|n] d]; unfold b64; cbn [Qnum Qden].
  - intros H. assert (E : v = 0%Q) by congruence. subst v. reflexivity.
  - destruct (b64_mag n d) as [x|] eqn:E; [|discriminate].
    intros H. assert (Ev : v = x) by congruence. subst x.
    apply b64_mag_some in E. destruct E as [E _].
    rewrite E. apply Qred_complete, Qred_correct.
  - destruct (b64_mag n d) as [x|] eqn:E; [|discriminate].
    destruct (Qeq_bool x 0); [discriminate|].
    intros H. assert (Ev : v = Qred (- x)) by congruence.
    rewrite Ev. apply Qred_complete, Qred_correct.
Qed.

Lemma b64_int_exact (k : Z) :
  Z.abs k <= 2 ^ 53 -> b64 (inject_Z k) = Fin (inject_Z k).
Proof.
  intros H. destruct (b64_fin_exact _ (b64_value_int53 k H)) as (v & E & Ev).
  rewrite E. f_equal. rewrite <- (b64_fin_canonical _ _ E).
  apply Qred_inject_Z. exact Ev.
Qed.

Lemma nearest_b64_eq (q q' v : Q) : (q == q')%Q -> nearest_b64 q v -> nearest_b64 q' v.
Proof.
  intros E [Hv H]. split; [exact Hv|]. intros g Hg.
  assert (E1 : (q' - v == q - v)%Q) by (rewrite E; reflexivity).
  assert (E2 : (q' - g == q - g)%Q) by (rewrite E; reflexivity).
  rewrite (Qabs_eq _ _ E1), (Qabs_eq _ _ E2). apply H. exact Hg.
Qed.

Lemma length_pos_of_nat (n : nat) : Pos.of_succ_nat n = Pos.of_nat (S n).
Proof. apply Pos.of_nat_succ. Qed.

(** The mean of the scores: the float nearest to the exact mean. *)
Lemma mean_int_spec (xs : list Z) (c : Q) :
  xs <> [] -> b64_value c -> (Qabs (exact_mean xs) <= c)%Q ->
  exists a v,
    mean_int xs = Ok a /\ float_value a = Some v
    /\ nearest_b64 (exact_mean xs) v.
Proof.
  intros Hne Hc Hle. unfold mean_int, exact_mean in *.
  destruct xs as [|x xs]; [congruence|].
  cbn [List.length]. rewrite fold_left_add_total, Z.add_0_l, length_pos_of_nat.
  cbn [List.length] in Hle.
  destruct (b64_nearest _ c Hc Hle) as (a & v & E & Ea & Hn).
  exists a, v. rewrite E. destruct a; try discriminate; auto.
Qed.

Lemma mean_int_empty : mean_int [] = Raise (ZeroDivisionError "division by zero").
Proof. reflexivity. Qed.

Lemma mean_int_ok_inv (xs : list Z) (a : pyfloat) :
  mean_int xs = Ok a -> xs <> [] /\ b64 (exact_mean xs) = a.
Proof.
  unfold mean_int, exact_mean. destruct xs as [|x xs]; [discriminate|].
  cbn [List.length]. rewrite fold_left_add_total, Z.add_0_l, length_pos_of_nat.
  destruct (b64 _) eqn:E; intros H; try discriminate; injection H as <-;
    (split; [discriminate|reflexivity]).
Qed.

Lemma b64_proper_int (q : Q) (k : Z) :
  (q == inject_Z k)%Q -> Z.abs k <= 2 ^ 53 -> b64 q = Fin (inject_Z k).
Proof.
  intros E H.
  assert (Hq : b64_value q) by (apply (b64_value_eq (inject_Z k)); [symmetry; exact E|apply b64_value_int53; exact H]).
  destruct (b64_fin_exact q Hq) as (v & Ev & Evq).
  rewrite Ev. f_equal. rewrite <- (b64_fin_canonical _ _ Ev).
  apply Qred_inject_Z. rewrite Evq. exact E.
Qed.

Lemma b64_count_nonzero (p : positive) : is_zero (b64 (inject_Z (Zpos p))) = false.
Proof.
  unfold b64, inject_Z. cbn [Qnum Qden].
  destruct (b64_mag p 1) as [v|] eqn:E; [|reflexivity].
  apply b64_mag_some in E. destruct E as [Ev _].
  assert (H1 : (1 <= b64_candidate p 1)%Q).
  { apply candidate_ge; [apply (b64_value_int 1); reflexivity|].
    unfold Qle. cbn. lia. }
  cbn [is_zero]. destruct (Qeq_bool v 0) eqn:Z; [|reflexivity].
  apply Qeq_bool_eq in Z. rewrite Ev, Qred_correct in Z. lra.
Qed.

Lemma mean_float_nonempty (xs : list pyfloat) :
  xs <> [] ->
  exists t,
    mean_float xs = Ok t
    /\ fdiv (fold_left fadd xs (Fin 0)) (b64 (inject_Z (Z.of_nat (List.length xs))))
       = Ok t.
Proof.
  intros Hne. unfold mean_float. destruct xs as [|x xs]; [congruence|].
  cbn [List.length].
  assert (Hz : is_zero (b64 (inject_Z (Z.of_nat (S (List.length xs))))) = false).
  { rewrite Nat2Z.inj_succ. 
    destruct (Z.succ (Z.of_nat (List.length xs))) eqn:E; try lia.
    apply b64_count_nonzero. }
  unfold fdiv. rewrite Hz. eexists. split; reflexivity.
Qed.

Lemma b64_value_max : b64_value max_float.
Proof.
  exists (2 ^ 53 - 1), 971. split; [reflexivity|]. split; [lia|].
  unfold max_float. rewrite inject_Z_mult. reflexivity.
Qed.

(** Floats whose partial sums need no rounding add up exactly. *)
Lemma fold_fadd_exact (ts : list Q) :
  forall a a', (a' == a)%Q -> Forall b64_value (partial_sums a ts) ->
  exists s, fold_left fadd (map Fin ts) (Fin a') = Fin s
            /\ (s == a + Qtotal ts)%Q.
Proof.
  induction ts as [|x ts IH]; intros a a' Ea Hf.
  - exists a'. split; [reflexivity|]. cbn. rewrite Ea. ring.
  - cbn [partial_sums] in Hf. inversion Hf as [|? ? H1 H2]; subst.
    cbn [map fold_left fadd].
    assert (Hv : b64_value (a' + x)).
    { apply (b64_value_eq (a + x)); [rewrite Ea; reflexivity|exact H1]. }
    destruct (b64_fin_exact _ Hv) as (v & Ev & Evq).
    rewrite Ev.
    destruct (IH (a + x)%Q v) as (s & Es & Esq).
    + rewrite Evq, Ea. reflexivity.
    + exact H2.
    + exists s. split; [exact Es|]. rewrite Esq. unfold Qtotal. cbn [fold_right]. ring.
Qed.

Lemma nearest_b64_zero : nearest_b64 0 0.
Proof.
  split; [exact b64_value_0|]. intros g _.
  change (Qabs (0 - 0)) with 0%Q. apply Qabs_nonneg.
Qed.

(** The quotient of a float by a positive float is the float nearest to
    the exact quotient. *)
Lemma fdiv_fin_nearest (s n : Q) :
  (0 < n)%Q -> (Qabs (s / n) <= max_float)%Q ->
  exists t v, fdiv (Fin s) (Fin n) = Ok t /\ float_value t = Some v
              /\ nearest_b64 (s / n) v.
Proof.
  intros Hn Hr. unfold fdiv.
  assert (Hz : is_zero (Fin n) = false).
  { cbn. destruct (Qeq_bool n 0) eqn:E; [|reflexivity].
    apply Qeq_bool_eq in E. lra. }
  rewrite Hz. cbn [float_value].
  assert (Sn : sign_bit (Fin n) = false) by (apply sign_bit_nonneg; lra).
  rewrite Sn, xorb_false_r. unfold b64_signed.
  assert (An : (Qabs n == n)%Q) by (apply Qabs_pos; lra).
  destruct (Qeq_bool (Qabs s / Qabs n) 0) eqn:Z.
  - apply Qeq_bool_eq in Z.
    assert (Zs : (s / n == 0)%Q).
    { assert (A0 : (Qabs s == 0)%Q).
      { assert (E : (Qabs s == (Qabs s / Qabs n) * Qabs n)%Q) by (field; lra).
        rewrite E, Z. ring. }
      assert (S0 : (s == 0)%Q).
      { pose proof (Qle_Qabs s). pose proof (Qle_Qabs (- s)) as B.
        rewrite Qabs_opp in B. lra. }
      rewrite S0. field. lra. }
    exists (if sign_bit (Fin s) then NegZero else Fin 0), 0%Q.
    split; [reflexivity|]. split; [destruct (sign_bit (Fin s)); reflexivity|].
    apply (nearest_b64_eq 0); [symmetry; exact Zs|exact nearest_b64_zero].
  - set (q' := (if sign_bit (Fin s) then - (Qabs s / Qabs n) else Qabs s / Qabs n)%Q).
    assert (Eq' : (q' == s / n)%Q).
    { unfold q', sign_bit. destruct (Qnum s <? 0) eqn:Sg.
      - apply Z.ltb_lt in Sg.
        assert (Hs : (s <= 0)%Q) by (unfold Qle; cbn; lia).
        rewrite (Qabs_neg s Hs), An. field. lra.
      - apply Z.ltb_ge in Sg.
        assert (Hs : (0 <= s)%Q) by (unfold Qle; cbn; lia).
        rewrite (Qabs_pos s Hs), An. reflexivity. }
    assert (Hr' : (Qabs q' <= max_float)%Q) by (rewrite (Qabs_eq _ _ Eq'); exact Hr).
    destruct (b64_nearest q' max_float b64_value_max Hr') as (a & v & E & Ea & Hnr).
    exists a, v. split; [rewrite <- E; reflexivity|]. split; [exact Ea|].
    apply (nearest_b64_eq q'); assumption.
Qed.

Lemma summarize_ok_inv (os : list outcome) (s : summary) :
  summarize os = Ok s ->
  mean_int (map score os) = Ok (s_average_score s)
  /\ final_rating (map rating os) = Ok (s_final_rating s)
  /\ mean_float (map target_price os) = Ok (s_final_target_price s).
Proof.
  unfold summarize, aggregate.
  destruct (mean_int (map score os)) as [a|]; [|discriminate].
  destruct (final_rating (map rating os)) as [r|]; [|discriminate].
  destruct (mean_float (map target_price os)) as [t|]; [|discriminate].
  cbn. intros H. injection H as <-. auto.
Qed.

Lemma summarize_total (os : list outcome) (a : pyfloat) :
  os <> [] -> mean_int (map score os) = Ok a ->
  exists s, summarize os = Ok s.
Proof.
  intros Hne Ha. unfold summarize, aggregate. rewrite Ha. cbn [rbind].
  destruct (final_rating_total (map rating os)) as [r Hr].
  { destruct os; [congruence|discriminate]. }
  rewrite Hr. cbn [rbind].
  destruct (mean_float_nonempty (map target_price os)) as (t & Ht & _).
  { destruct os; [congruence|discriminate]. }
  rewrite Ht. eexists. reflexivity.
Qed.

(** C7, as the code has it.  On the empty sequence the aggregation fails
    with a division by zero.  On a non-empty one the average score is the
    float nearest to the exact mean of the scores, whenever that mean is
    within the range of the floats, and so the exact mean itself when it is
    a whole number of magnitude up to 2^53 ([10, 20, 30] gives exactly
    20.0); the final target price is the float sum of the prices, added
    from the left with each addition rounded, divided by the float of the
    count: the float nearest to the exact mean when no partial sum needs
    rounding. *)
Theorem aggregate_means (os : list outcome) :
  (os = [] -> summarize os = Raise (ZeroDivisionError "division by zero"))
  /\ (os <> [] ->
      ((Qabs (exact_mean (map score os)) <= max_float)%Q ->
       exists s a,
         summarize os = Ok s
         /\ float_value (s_average_score s) = Some a
         /\ nearest_b64 (exact_mean (map score os)) a)
      /\ (forall s, summarize os = Ok s ->
            s_average_score s = b64 (exact_mean (map score os))
            /\ fdiv (fold_left fadd (map target_price os) (Fin 0))
                 (b64 (inject_Z (Z.of_nat (List.length os))))
               = Ok (s_final_target_price s)
            /\ (forall k,
                  (exact_mean (map score os) == inject_Z k)%Q ->
                  Z.abs k <= 2 ^ 53 ->
                  s_average_score s = Fin (inject_Z k))
            /\ (forall ts,
                  map target_price os = map Fin ts ->
                  Forall b64_value (partial_sums 0 ts) ->
                  Z.of_nat (List.length os) <= 2 ^ 53 ->
                  (Qabs (Qtotal ts / inject_Z (Z.of_nat (List.length os)))
                   <= max_float)%Q ->
                  exists v,
                    float_value (s_final_target_price s) = Some v
                    /\ nearest_b64
                         (Qtotal ts / inject_Z (Z.of_nat (List.length os))) v)))
  /\ (forall s,
        map score os = [10; 20; 30] -> summarize os = Ok s ->
        s_average_score s = Fin 20).
Proof.
  split; [|split].
  - intros ->. reflexivity.
  - intros Hne. split.
    + intros Hr.
      destruct (mean_int_spec (map score os) max_float) as (a & v & Ha & Ev & Hn);
        [destruct os; [congruence|discriminate]|exact b64_value_max|exact Hr|].
      destruct (summarize_total os a Hne Ha) as [s Hs].
      exists s, v. split; [exact Hs|].
      apply summarize_ok_inv in Hs. destruct Hs as (Hs & _).
      rewrite Ha in Hs. injection Hs as <-. auto.
    + intros s Hs. apply summarize_ok_inv in Hs. destruct Hs as (Ha & _ & Ht).
      apply mean_int_ok_inv in Ha. destruct Ha as [_ Ha].
      destruct (mean_float_nonempty (map target_price os)) as (t & Ht' & Hd).
      { destruct os; [congruence|discriminate]. }
      rewrite Ht in Ht'. injection Ht' as <-. rewrite length_map in Hd.
      split; [symmetry; exact Ha|]. split; [exact Hd|]. split.
      * intros k Ek Hk. rewrite <- Ha. apply b64_proper_int; assumption.
      * intros ts Ets Hp Hlen Hr.
        destruct (fold_fadd_exact ts 0 0 (Qeq_refl 0) Hp) as (sm & Es & Esq).
        rewrite Ets, Es in Hd.
        rewrite (b64_int_exact (Z.of_nat (List.length os))) in Hd by lia.
        assert (Hpos : (0 < inject_Z (Z.of_nat (List.length os)))%Q).
        { apply inject_Z_pos. destruct os; [congruence|]. cbn [List.length]. lia. }
        assert (Eq : (sm / inject_Z (Z.of_nat (List.length os))
                      == Qtotal ts / inject_Z (Z.of_nat (List.length os)))%Q).
        { rewrite Esq. field. lra. }
        destruct (fdiv_fin_nearest sm (inject_Z (Z.of_nat (List.length os))) Hpos)
          as (t & v & Et & Ev & Hn).
        { rewrite (Qabs_eq _ _ Eq). exact Hr. }
        rewrite Et in Hd. injection Hd as <-.
        exists v. split; [exact Ev|]. apply (nearest_b64_eq _ _ _ Eq Hn).
  - intros s Hsc Hs. apply summarize_ok_inv in Hs. destruct Hs as (Ha & _).
    rewrite Hsc in Ha.
    assert (E : mean_int [10; 20; 30] = Ok (Fin 20)) by (vm_compute; reflexivity).
    rewrite E in Ha. injection Ha as <-. reflexivity.
Qed.

Lemma aggregate_means_witness :
  exists s a,
    summarize [outcome_of 10 "BUY" (Fin 1); outcome_of 20 "BUY" (Fin 2);
               outcome_of 30 "HOLD" (Fin 3)] = Ok s
    /\ float_value (s_average_score s) = Some a
    /\ nearest_b64 (exact_mean [10; 20; 30]) a.
Proof.
  apply (proj1 (proj1 (proj2 (aggregate_means
           [outcome_of 10 "BUY" (Fin 1); outcome_of 20 "BUY" (Fin 2);
            outcome_of 30 "HOLD" (Fin 3)])) ltac:(discriminate))).
  vm_compute. discriminate.
Defined.

(** Scores 1, 2, 2 and prices 0.1, 0.2, 0.3: the average score is a float
    next to 5/3, and the final target price is not the mean of the three
    prices. *)
Lemma aggregate_means_not_exact :
  exists s a t p1 p2 p3,
    b64 (1 # 10) = Fin p1 /\ b64 (2 # 10) = Fin p2 /\ b64 (3 # 10) = Fin p3
    /\ summarize [outcome_of 1 "BUY" (Fin p1); outcome_of 2 "BUY" (Fin p2);
                  outcome_of 2 "BUY" (Fin p3)] = Ok s
    /\ float_value (s_average_score s) = Some a
    /\ ~ Qeq a (exact_mean [1; 2; 2])
    /\ float_value (s_final_target_price s) = Some t
    /\ ~ (t == (p1 + p2 + p3) / 3)%Q.
Proof.
  do 6 eexists.
  split; [vm_compute; reflexivity|]. split; [vm_compute; reflexivity|].
  split; [vm_compute; reflexivity|]. split; [vm_compute; reflexivity|].
  split; [reflexivity|]. split; [vm_compute; discriminate|].
  split; [reflexivity|]. vm_compute. discriminate.
Qed.

(** *** The prompt loader *)

Lemma log_events_spec (es : list event) (w : world) :
  log_events es w
  = {| db := db w; trace := trace w ++ es; chat_used := chat_used w;
       random_used := random_used w; uuid_used := uuid_used w;
       clock_used := clock_used w |}.
Proof.
  revert w. induction es as [|e es IH]; intros w; simpl.
  - rewrite app_nil_r. destruct w; reflexivity.
  - unfold log_events in *. simpl. rewrite IH. unfold log_event. simpl.
    rewrite <- app_assoc. reflexivity.
Qed.

Lemma load_files_spec (env : Env) (files : list (string * file)) :
  forall prompts w,
    load_files env files prompts w
    = (Ok (prompts ++ loaded_of env files),
       log_events (load_errors_of env files) w).
Proof.
  induction files as [|[n f] files IH]; intros prompts w; simpl.
  - rewrite app_nil_r. reflexivity.
  - unfold bind, try_except, lift, print, emit, ret. unfold bind.
    destruct (load_file env n f) as [p|e] eqn:E; simpl.
    + rewrite IH. rewrite <- app_assoc. reflexivity.
    + rewrite IH. reflexivity.
Qed.

Lemma load_prompts_spec (env : Env) (w : world) :
  load_prompts env w
  = if env_prompts_exists env
    then (Ok (loaded_of env (candidates env)),
          log_events (load_errors_of env (candidates env)) w)
    else (Ok [], w).
Proof.
  unfold load_prompts. destruct (env_prompts_exists env); simpl.
  - apply load_files_spec.
  - reflexivity.
Qed.

Lemma loaded_of_app (env : Env) (l1 l2 : list (string * file)) :
  loaded_of env (l1 ++ l2) = loaded_of env l1 ++ loaded_of env l2.
Proof. unfold loaded_of. apply flat_map_app. Qed.

Lemma from_dict_missing (env : Env) (d : pydict) (key : string) :
  In key required -> dict_mem d key = false ->
  exists msg, from_dict env d = Raise (ValueError msg).
Proof.
  intros Hin Hm. unfold from_dict.
  destruct (find (fun key => negb (dict_mem d key)) required) as [k|] eqn:E.
  - eauto.
  - exfalso. pose proof (find_none _ _ E key Hin) as H. simpl in H.
    rewrite Hm in H. discriminate.
Qed.

Lemma from_dict_ok (env : Env) (d : pydict) (pid nm v tv : pyval) (ver : Z) :
  dict_get d "prompt_id" = Some pid ->
  dict_get d "name" = Some nm ->
  dict_get d "version" = Some v ->
  py_int (env_python env) v = Ok ver ->
  dict_get d "template" = Some tv ->
  from_dict env d
  = Ok {| prompt_id := py_str (env_python env) pid;
          name := py_str (env_python env) nm; version := ver;
          template := py_str (env_python env) tv;
          schema := dict_get_default d "schema" PNone |}.
Proof.
  intros H1 H2 H3 H4 H5. unfold from_dict, required, dict_mem, dict_item.
  simpl find. rewrite H1, H2, H3, H5. simpl. rewrite H4. reflexivity.
Qed.

Lemma dict_get_set_same (d : pydict) (k : string) (v : pyval) :
  dict_get (dict_set d k v) k = Some v.
Proof.
  induction d as [|[k' v'] d IH]; simpl.
  - rewrite String.eqb_refl. reflexivity.
  - destruct (String.eqb k' k) eqn:E; simpl; rewrite E; [reflexivity|exact IH].
Qed.

Lemma dict_get_set_other (d : pydict) (k k' : string) (v : pyval) :
  k <> k' -> dict_get (dict_set d k v) k' = dict_get d k'.
Proof.
  intros Hne. induction d as [|[k0 v0] d IH]; simpl.
  - destruct (String.eqb k k') eqn:E; [apply String.eqb_eq in E; contradiction|reflexivity].
  - destruct (String.eqb k0 k) eqn:E; simpl.
    + apply String.eqb_eq in E. subst k0.
      destruct (String.eqb k k') eqn:E'; [apply String.eqb_eq in E'; contradiction|reflexivity].
    + rewrite IH. reflexivity.
Qed.

Lemma insert_by_name_perm (x : string * file) (l : list (string * file)) :
  Permutation (insert_by_name x l) (x :: l).
Proof.
  induction l as [|y l IH]; simpl; [reflexivity|].
  destruct (String.leb (fst x) (fst y)); [reflexivity|].
  rewrite IH. apply perm_swap.
Qed.

Lemma sort_by_name_perm (l : list (string * file)) :
  Permutation (fold_right insert_by_name [] l) l.
Proof.
  induction l as [|x l IH]; simpl; [reflexivity|].
  rewrite insert_by_name_perm. constructor. exact IH.
Qed.

Lemma substring_tail (s : string) :
  forall i m c t,
    substring i (S m) s = String c t -> substring (S i) m s = t.
Proof.
  induction s as [|a s IH]; intros i m c t H.
  - destruct i; discriminate.
  - destruct i as [|i].
    + cbn in H. injection H as _ <-. destruct m; reflexivity.
    + cbn in H. cbn. apply (IH i m c t H).
Qed.

(** No name ends both in [.yml] and in [.yaml]. *)
Lemma yml_not_yaml (n : string) :
  endswith n ".yml" && endswith n ".yaml" = false.
Proof.
  unfold endswith. cbn [String.length].
  destruct (5 <=? String.length n)%nat eqn:L5; [|apply andb_false_r].
  apply Nat.leb_le in L5.
  destruct (String.eqb (substring (String.length n - 5) 5 n) ".yaml") eqn:E5;
    [|apply andb_false_r].
  apply String.eqb_eq in E5. apply substring_tail in E5.
  replace (S (String.length n - 5)) with (String.length n - 4)%nat in E5 by lia.
  rewrite E5. cbn. rewrite andb_false_r. reflexivity.
Qed.

Lemma filter_disjoint_perm {A} (f g : A -> bool) (l : list A) :
  (forall x, f x && g x = false) ->
  Permutation (filter f l ++ filter g l) (filter (fun x => f x || g x) l).
Proof.
  intros H. induction l as [|x l IH]; simpl; [reflexivity|].
  specialize (H x). destruct (f x), (g x); simpl; try discriminate.
  - constructor. exact IH.
  - rewrite <- IH. symmetry. apply Permutation_middle.
  - exact IH.
Qed.

(** The files visited are the entries of the directory whose name ends in
    [.yml] or [.yaml], each once. *)
Lemma candidates_perm (env : Env) :
  Permutation (candidates env)
    (filter (fun e => prompt_file_name (fst e)) (env_prompts_dir env)).
Proof.
  unfold candidates, sorted_glob. rewrite !sort_by_name_perm.
  rewrite filter_disjoint_perm.
  - erewrite filter_ext; [reflexivity|].
    intros [n f]. unfold prompt_file_name. cbn [fst].
    destruct (endswith n ".yml"), (endswith n ".yaml"),
      (negb (contains_char "/" n)); reflexivity.
  - intros [n f]. pose proof (yml_not_yaml n) as Y.
    destruct (endswith n ".yml"), (endswith n ".yaml"); try discriminate;
      cbn; try reflexivity; apply andb_false_r.
Qed.

Lemma loaded_of_in (env : Env) (files : list (string * file)) (n : string)
    (f : file) (p : Prompt) :
  In (n, f) files -> load_file env n f = Ok p -> In p (loaded_of env files).
Proof.
  intros Hin Hp. unfold loaded_of. apply in_flat_map.
  exists (n, f). split; [assumption|]. rewrite Hp. left. reflexivity.
Qed.

(** A complete mapping without a template file loads. *)
Lemma load_file_complete (env : Env) (n : string) (f : file) (d : pydict)
    (pid nm v tv : pyval) (ver : Z) :
  file_yaml f = Ok (PDict d) ->
  py_truthy (dict_get_default d "template_file" PNone) = false ->
  dict_get d "prompt_id" = Some pid ->
  dict_get d "name" = Some nm ->
  dict_get d "version" = Some v ->
  py_int (env_python env) v = Ok ver ->
  dict_get d "template" = Some tv ->
  load_file env n f
  = Ok {| prompt_id := py_str (env_python env) pid;
          name := py_str (env_python env) nm; version := ver;
          template := py_str (env_python env) tv;
          schema := dict_get_default d "schema" PNone |}.
Proof.
  intros Hy Hf H1 H2 H3 H4 H5. unfold load_file. rewrite Hy. cbn [rbind].
  rewrite Hf. cbn [rbind]. apply from_dict_ok with (v := v); assumption.
Qed.

(** C8.  [load_prompts] never raises.  It visits every entry of the
    directory whose name ends in [.yml] or [.yaml], each once, and returns,
    in the order of the visit, exactly the prompts of the files that load;
    a file that fails is left out, alone, and adds one console line with
    its name and the reason.  A file that is not a mapping, a reference to
    a template file that does not exist, and a missing required key such
    as template each make the file fail; a mapping with the four required
    keys, a version that converts and no template file loads. *)
Theorem load_prompts_skips_bad_files (env : Env) (w : world) :
  (exists w',
     load_prompts env w
     = (Ok (if env_prompts_exists env then loaded_of env (candidates env) else []), w')
     /\ db w' = db w
     /\ trace w'
        = trace w ++ (if env_prompts_exists env
                      then load_errors_of env (candidates env) else []))
  /\ Permutation (candidates env)
       (filter (fun e => prompt_file_name (fst e)) (env_prompts_dir env))
  /\ (forall n f p,
        In (n, f) (env_prompts_dir env) -> prompt_file_name n = true ->
        load_file env n f = Ok p ->
        In p (loaded_of env (candidates env)))
  /\ (forall files1 n f files2 e,
        candidates env = files1 ++ (n, f) :: files2 ->
        load_file env n f = Raise e ->
        loaded_of env (candidates env)
        = loaded_of env files1 ++ loaded_of env files2
        /\ In (load_error_line env n e) (load_errors_of env (candidates env)))
  /\ (forall n f v,
        file_yaml f = Ok v -> (forall d, v <> PDict d) ->
        exists msg, load_file env n f = Raise (ValueError msg))
  /\ (forall n f d tf,
        file_yaml f = Ok (PDict d) ->
        dict_get d "template_file" = Some (PStr tf) -> tf <> "" ->
        assoc tf (env_prompts_dir env) = None ->
        exists msg, load_file env n f = Raise (FileNotFoundError msg))
  /\ (forall n f d key,
        file_yaml f = Ok (PDict d) ->
        py_truthy (dict_get_default d "template_file" PNone) = false ->
        In key required -> dict_mem d key = false ->
        exists msg, load_file env n f = Raise (ValueError msg))
  /\ (forall n f d pid nm v tv ver,
        file_yaml f = Ok (PDict d) ->
        py_truthy (dict_get_default d "template_file" PNone) = false ->
        dict_get d "prompt_id" = Some pid ->
        dict_get d "name" = Some nm ->
        dict_get d "version" = Some v ->
        py_int (env_python env) v = Ok ver ->
        dict_get d "template" = Some tv ->
        load_file env n f
        = Ok {| prompt_id := py_str (env_python env) pid;
                name := py_str (env_python env) nm; version := ver;
                template := py_str (env_python env) tv;
                schema := dict_get_default d "schema" PNone |}).
Proof.
  split; [|split; [|split; [|split; [|split; [|split; [|split]]]]]].
  - rewrite load_prompts_spec. destruct (env_prompts_exists env).
    + eexists. split; [reflexivity|]. rewrite log_events_spec. simpl. auto.
    + exists w. rewrite app_nil_r. auto.
  - apply candidates_perm.
  - intros n f p Hin Hn Hp. apply (loaded_of_in env _ n f); [|exact Hp].
    apply (Permutation_in _ (Permutation_sym (candidates_perm env))).
    apply filter_In. split; [exact Hin|exact Hn].
  - intros files1 n f files2 e Hc He. rewrite Hc. split.
    + rewrite loaded_of_app. f_equal.
      change ((n, f) :: files2) with ([(n, f)] ++ files2).
      rewrite loaded_of_app. unfold loaded_of at 1. simpl. rewrite He. reflexivity.
    + unfold load_errors_of. apply in_flat_map. exists (n, f).
      split; [apply in_or_app; right; left; reflexivity|].
      rewrite He. left. reflexivity.
  - intros n f v Hy Hnd. unfold load_file. rewrite Hy. simpl.
    destruct v; try (eexists; reflexivity). exfalso. apply (Hnd d). reflexivity.
  - intros n f d tf Hy Htf Hne Ha. unfold load_file. rewrite Hy. simpl.
    rewrite (dict_get_default_present _ _ _ _ Htf). simpl.
    destruct (String.eqb tf "") eqn:E; [apply String.eqb_eq in E; contradiction|].
    simpl. rewrite Ha. simpl. eexists. reflexivity.
  - intros n f d key Hy Hf Hin Hm. unfold load_file. rewrite Hy. simpl.
    rewrite Hf. simpl. apply from_dict_missing with (key := key); assumption.
  - intros n f d pid nm v tv ver. apply load_file_complete.
Qed.

Lemma load_prompts_skips_bad_files_witness :
  exists w',
    load_prompts (env_with mixed_dir None (Ok "")) initial_world
    = (Ok [prompt_of_id "b"; prompt_of_id "a"], w')
    /\ trace w'
       = [EvPrint "Error loading prompt from prompts/list.yml: YAML file list.yml must contain a mapping at top level";
          EvPrint "Error loading prompt from prompts/ref.yml: Template file 'missing.txt' referenced in ref.yml does not exist";
          EvPrint "Error loading prompt from prompts/nokey.yaml: Missing required key 'template' in prompt definition"].
Proof.
  destruct (proj1 (load_prompts_skips_bad_files (env_with mixed_dir None (Ok ""))
                     initial_world)) as (w' & H & _ & Ht).
  exists w'. split; [exact H|exact Ht].
Defined.

(** C10.  When a file gives both an inline template and a template_file
    that names a readable file, the loaded prompt carries the text of that
    file and the inline template is dropped. *)
Theorem template_file_takes_precedence (env : Env) (n : string) (f : file)
    (d : pydict) (inline : pyval) (tf : string) (t : file) (text : string) :
  file_yaml f = Ok (PDict d) ->
  dict_get d "template" = Some inline ->
  dict_get d "template_file" = Some (PStr tf) -> tf <> "" ->
  assoc tf (env_prompts_dir env) = Some t ->
  file_text t = Ok text ->
  load_file env n f = from_dict env (dict_set d "template" (PStr text))
  /\ (forall p, load_file env n f = Ok p -> template p = text)
  /\ (forall pid nm v ver,
        dict_get d "prompt_id" = Some pid ->
        dict_get d "name" = Some nm ->
        dict_get d "version" = Some v ->
        py_int (env_python env) v = Ok ver ->
        load_file env n f
        = Ok {| prompt_id := py_str (env_python env) pid;
                name := py_str (env_python env) nm; version := ver;
                template := text;
                schema := dict_get_default d "schema" PNone |}).
Proof.
  intros Hy Hin Htf Hne Ha Ht.
  assert (Hl : load_file env n f = from_dict env (dict_set d "template" (PStr text))).
  { unfold load_file. rewrite Hy. simpl.
    rewrite (dict_get_default_present _ _ _ _ Htf). simpl.
    destruct (String.eqb tf "") eqn:E; [apply String.eqb_eq in E; contradiction|].
    simpl. rewrite Ha. simpl. rewrite Ht. reflexivity. }
  split; [exact Hl|]. split.
  - intros p Hp. rewrite Hl in Hp. unfold from_dict in Hp.
    destruct (find _ required); [discriminate|].
    unfold dict_item in Hp. rewrite dict_get_set_same in Hp.
    destruct (dict_get (dict_set d "template" (PStr text)) "prompt_id"); [|discriminate].
    destruct (dict_get (dict_set d "template" (PStr text)) "name"); [|discriminate].
    destruct (dict_get (dict_set d "template" (PStr text)) "version"); [|discriminate].
    simpl in Hp. destruct (py_int (env_python env) p2); [|discriminate].
    simpl in Hp. injection Hp as <-. reflexivity.
  - intros pid nm v ver H1 H2 H3 H4. rewrite Hl.
    rewrite (from_dict_ok env _ pid nm v (PStr text) ver).
    + unfold dict_get_default. rewrite dict_get_set_other by discriminate. reflexivity.
    + rewrite dict_get_set_other by discriminate. assumption.
    + rewrite dict_get_set_other by discriminate. assumption.
    + rewrite dict_get_set_other by discriminate. assumption.
    + assumption.
    + apply dict_get_set_same.
Qed.

Lemma template_file_takes_precedence_witness :
  load_file both_templates_env "risk.yml" (yaml_file (PDict both_templates_yaml))
  = Ok {| prompt_id := "risk"; name := "Risk"; version := 2;
          template := "text of the file"; schema := PNone |}.
Proof.
  apply (proj2 (proj2 (template_file_takes_precedence both_templates_env
                         "risk.yml" (yaml_file (PDict both_templates_yaml))
                         both_templates_yaml (PStr "inline text") "risk.txt"
                         (text_file "text of the file") "text of the file"
                         eq_refl eq_refl eq_refl ltac:(discriminate)
                         eq_refl eq_refl))
           (PStr "risk") (PStr "Risk") (PInt 2) 2);
    reflexivity.
Defined.

(* ------------------------------------------------------------------ *)
(** *** Text the store accepts *)

Lemma utf8_chars_ascii (b : ascii) (r : list ascii) :
  (ord b < 128)%N -> utf8_chars (b :: r) = (ord b, [b]) :: utf8_chars r.
Proof.
  intros H. cbn [utf8_chars].
  assert (E0 : (ord b <? 128)%N = true) by (apply N.ltb_lt; exact H).
  assert (E1 : (192 <=? ord b)%N = false) by (apply N.leb_gt; lia).
  assert (E2 : (224 <=? ord b)%N = false) by (apply N.leb_gt; lia).
  assert (E3 : (240 <=? ord b)%N = false) by (apply N.leb_gt; lia).
  rewrite E0, E1, E2, E3. cbn [andb].
  destruct r as [|b1 [|b2 [|b3 r3]]]; reflexivity.
Qed.

Lemma ascii_bytes_chars (l : list ascii) :
  ascii_bytes l -> Forall (fun c => (fst c < 128)%N) (utf8_chars l).
Proof.
  induction 1 as [|b r Hb Hr IH]; [constructor|].
  rewrite (utf8_chars_ascii b r Hb). constructor; assumption.
Qed.

Lemma is_ascii_bytes (s : string) :
  is_ascii s = true <-> ascii_bytes (list_ascii_of_string s).
Proof.
  unfold is_ascii, ascii_bytes. rewrite forallb_forall, Forall_forall.
  split; intros H c Hc; [apply N.ltb_lt|apply N.ltb_lt]; auto.
Qed.

Lemma ascii_bytes_no_surrogate (s : string) :
  ascii_bytes (list_ascii_of_string s) -> has_surrogate s = false.
Proof.
  intros H. unfold has_surrogate, chars_of.
  apply ascii_bytes_chars in H. induction H as [|c l Hc Hl IH]; [reflexivity|].
  simpl. rewrite IH, orb_false_r.
  apply andb_false_iff. left. apply N.leb_gt. lia.
Qed.

Lemma is_ascii_no_surrogate (s : string) :
  is_ascii s = true -> has_surrogate s = false.
Proof. intros H. apply ascii_bytes_no_surrogate, is_ascii_bytes, H. Qed.

Lemma list_ascii_app (a b : string) :
  list_ascii_of_string (a ++ b)
  = list_ascii_of_string a ++ list_ascii_of_string b.
Proof. induction a as [|c a IH]; simpl; [reflexivity|]. rewrite IH. reflexivity. Qed.

Lemma ascii_bytes_app (a b : string) :
  ascii_bytes (list_ascii_of_string a) -> ascii_bytes (list_ascii_of_string b) ->
  ascii_bytes (list_ascii_of_string (a ++ b)).
Proof. intros Ha Hb. rewrite list_ascii_app. apply Forall_app. split; assumption. Qed.

Lemma ascii_bytes_of_list (l : list ascii) :
  ascii_bytes l -> ascii_bytes (list_ascii_of_string (string_of_list_ascii l)).
Proof. rewrite list_ascii_of_string_of_list_ascii. auto. Qed.

Lemma ascii_bytes_literal (s : string) :
  is_ascii s = true -> ascii_bytes (list_ascii_of_string s).
Proof. apply is_ascii_bytes. Qed.

Lemma ascii_bytes_uint (d : Decimal.uint) :
  ascii_bytes (list_ascii_of_string (NilEmpty.string_of_uint d)).
Proof.
  induction d; simpl; constructor; try assumption; vm_compute; reflexivity.
Qed.

Lemma ascii_bytes_string_of_Z (z : Z) :
  ascii_bytes (list_ascii_of_string (string_of_Z z)).
Proof.
  unfold string_of_Z, NilZero.string_of_int, NilZero.string_of_uint.
  destruct (Z.to_int z) as [d|d].
  - destruct d; try apply ascii_bytes_uint. repeat constructor.
  - simpl. constructor; [vm_compute; reflexivity|].
    destruct d; try apply ascii_bytes_uint. repeat constructor.
Qed.

Lemma ascii_bytes_strip_zeros (l : list ascii) :
  ascii_bytes l -> ascii_bytes (strip_trailing_zeros l).
Proof.
  induction 1 as [|c r Hc Hr IH]; simpl; [constructor|].
  destruct (Ascii.eqb c "0"); [assumption|constructor; assumption].
Qed.

Lemma ascii_bytes_zeros (n : Z) : ascii_bytes (zeros n).
Proof.
  unfold zeros, ascii_bytes. apply Forall_forall. intros c Hc.
  apply repeat_spec in Hc. subst c. vm_compute. reflexivity.
Qed.

Lemma ascii_bytes_two_digits (z : Z) :
  ascii_bytes (list_ascii_of_string (two_digits z)).
Proof.
  unfold two_digits. destruct (z <? 10).
  - apply ascii_bytes_app; [repeat constructor|apply ascii_bytes_string_of_Z].
  - apply ascii_bytes_string_of_Z.
Qed.

Lemma ascii_bytes_firstn (n : nat) (l : list ascii) :
  ascii_bytes l -> ascii_bytes (firstn n l).
Proof.
  intros H. rewrite <- (firstn_skipn n l) in H. apply Forall_app in H. apply H.
Qed.

Lemma ascii_bytes_skipn (n : nat) (l : list ascii) :
  ascii_bytes l -> ascii_bytes (skipn n l).
Proof.
  intros H. rewrite <- (firstn_skipn n l) in H. apply Forall_app in H. apply H.
Qed.

Lemma ascii_bytes_format_digits (ds : list ascii) (p : Z) :
  ascii_bytes ds -> ascii_bytes (list_ascii_of_string (format_digits ds p)).
Proof.
  intros H. unfold format_digits.
  destruct ((- 4 <? p) && (p <=? 16)).
  - destruct (p <=? 0).
    + apply ascii_bytes_app; [repeat constructor|].
      apply ascii_bytes_of_list, Forall_app. split; [apply ascii_bytes_zeros|exact H].
    + destruct (_ <=? p).
      * apply ascii_bytes_app; [|repeat constructor].
        apply ascii_bytes_of_list, Forall_app.
        split; [exact H|apply ascii_bytes_zeros].
      * apply ascii_bytes_app;
          [apply ascii_bytes_of_list, ascii_bytes_firstn, H|].
        apply ascii_bytes_app; [repeat constructor|].
        apply ascii_bytes_of_list, ascii_bytes_skipn, H.
  - apply ascii_bytes_app;
      [apply ascii_bytes_of_list, ascii_bytes_firstn, H|].
    apply ascii_bytes_app.
    + pose proof (ascii_bytes_skipn 1 ds H) as Hs.
      destruct (skipn 1 ds) as [|c r]; [constructor|].
      apply ascii_bytes_app; [repeat constructor|].
      apply ascii_bytes_of_list, Hs.
    + apply ascii_bytes_app; [repeat constructor|].
      apply ascii_bytes_app; [destruct (_ <? 0); repeat constructor|].
      apply ascii_bytes_two_digits.
Qed.

Lemma ascii_bytes_shortest_digits (q : Q) :
  ascii_bytes (fst (shortest_digits q)).
Proof.
  unfold shortest_digits. destruct (shortest_from 17 q (decimal_point q) 1) as [k n].
  cbn [fst]. apply Forall_rev, ascii_bytes_strip_zeros, Forall_rev.
  apply ascii_bytes_string_of_Z.
Qed.

Lemma ascii_bytes_float_repr (f : pyfloat) :
  ascii_bytes (list_ascii_of_string (float_repr f)).
Proof.
  destruct f as [q| |[|]|]; try (repeat constructor).
  unfold float_repr. destruct (Qeq_bool q 0); [repeat constructor|].
  pose proof (ascii_bytes_shortest_digits (Qabs q)) as H.
  destruct (shortest_digits (Qabs q)) as [ds p]. cbn [fst] in H.
  apply ascii_bytes_app; [destruct (_ <? 0); repeat constructor|].
  apply ascii_bytes_format_digits, H.
Qed.

Lemma ascii_bytes_json_float (f : pyfloat) :
  ascii_bytes (list_ascii_of_string (json_float f)).
Proof.
  destruct f as [q| |[|]|]; try (repeat constructor);
    apply ascii_bytes_float_repr.
Qed.

Lemma ord_chr (n : N) : (n < 256)%N -> ord (chr n) = n.
Proof. apply N_ascii_embedding. Qed.

Lemma ascii_bytes_hex_string (width : nat) :
  forall n, ascii_bytes (list_ascii_of_string (hex_string width n)).
Proof.
  induction width as [|w IH]; intros n; simpl; [constructor|].
  apply ascii_bytes_app; [apply IH|]. constructor; [|constructor].
  unfold hex_char. pose proof (N.mod_upper_bound n 16 ltac:(discriminate)) as Hm.
  destruct (N.ltb_spec (n mod 16) 10); rewrite ord_chr; lia.
Qed.

Lemma ascii_bytes_json_escape (cp : N) :
  ascii_bytes (list_ascii_of_string (json_escape cp)).
Proof.
  unfold json_escape.
  repeat match goal with
         | |- context [if (?a =? ?b)%N then _ else _] =>
             destruct (a =? b)%N; [repeat constructor|]
         end.
  destruct ((32 <=? cp) && (cp <=? 126))%N eqn:E.
  - apply andb_true_iff in E. destruct E as [E1 E2].
    apply N.leb_le in E1, E2. constructor; [|constructor].
    rewrite ord_chr; lia.
  - unfold hex4_string. destruct (cp <? 65536)%N.
    + apply ascii_bytes_app; [repeat constructor|apply ascii_bytes_hex_string].
    + apply ascii_bytes_app; [repeat constructor|].
      apply ascii_bytes_app; [apply ascii_bytes_hex_string|].
      apply ascii_bytes_app; [repeat constructor|apply ascii_bytes_hex_string].
Qed.

Lemma ascii_bytes_concat (l : list string) :
  Forall (fun s => ascii_bytes (list_ascii_of_string s)) l ->
  ascii_bytes (list_ascii_of_string (String.concat "" l)).
Proof.
  induction 1 as [|s r Hs Hr IH]; [constructor|].
  simpl. destruct r as [|s' r']; [exact Hs|].
  apply ascii_bytes_app; [exact Hs|]. exact IH.
Qed.

Lemma ascii_bytes_json_quote (s : string) :
  ascii_bytes (list_ascii_of_string (json_quote s)).
Proof.
  unfold json_quote. simpl. constructor; [vm_compute; reflexivity|].
  apply ascii_bytes_app; [|repeat constructor].
  apply ascii_bytes_concat, Forall_forall. intros t Ht.
  apply in_map_iff in Ht. destruct Ht as (cp & <- & _).
  apply ascii_bytes_json_escape.
Qed.

(** [json.dumps] of the stub and of the context of a run are ASCII text. *)
Lemma stub_text_storable (sc : Z) (r : string) (tp : pyfloat) :
  has_surrogate (json_dumps (stub_dict sc r tp)) = false.
Proof.
  apply ascii_bytes_no_surrogate. unfold stub_dict. cbn [json_dumps map join].
  repeat first
    [ apply ascii_bytes_json_quote | apply ascii_bytes_string_of_Z
    | apply ascii_bytes_json_float
    | apply ascii_bytes_app
    | solve [repeat constructor] ].
Qed.

Lemma context_text_storable (ticker : string) :
  sqlite_str (json_dumps (load_context ticker))
  = Ok (json_dumps (load_context ticker)).
Proof.
  unfold sqlite_str. rewrite ascii_bytes_no_surrogate; [reflexivity|].
  unfold load_context. cbn [json_dumps map join].
  repeat first
    [ apply ascii_bytes_json_quote | apply ascii_bytes_app
    | solve [repeat constructor] ].
Qed.

(* ------------------------------------------------------------------ *)
(** *** The steps of a run *)

Lemma quiet_step_refl (w : world) : quiet_step w w.
Proof. repeat split. Qed.

Lemma quiet_step_trans (w1 w2 w3 : world) :
  quiet_step w1 w2 -> quiet_step w2 w3 -> quiet_step w1 w3.
Proof. intros (A & B & C) (A' & B' & C'). repeat split; congruence. Qed.

Lemma invoke_cases (env : Env) (self : AIClient) (rendered : string) (w : world) :
  exists raw w',
    invoke env self rendered w = (Ok raw, w')
    /\ quiet_step w w'
    /\ (raw = None /\ trace w' = trace w
        \/ llm_available self = true
           /\ trace w' = trace w ++ [EvChat rendered]
           /\ match env_chat_completion env (chat_used w) rendered with
              | Ok content => raw = Some (strip content)
              | Raise _ => raw = None
              end).
Proof.
  unfold invoke, try_except, _call_openai, bind, ret, raise.
  assert (Hnone : exists raw w',
             (@Ok (option string) None, w) = (Ok raw, w') /\ quiet_step w w'
             /\ (raw = None /\ trace w' = trace w
                 \/ llm_available self = true
                    /\ trace w' = trace w ++ [EvChat rendered]
                    /\ match env_chat_completion env (chat_used w) rendered with
                       | Ok content => raw = Some (strip content)
                       | Raise _ => raw = None
                       end)).
  { exists None, w. split; [reflexivity|]. split; [apply quiet_step_refl|auto]. }
  destruct (llm_available self); [|exact Hnone].
  destruct (env_openai_installed env); [|exact Hnone]. clear Hnone.
  destruct (env_chat_completion env (chat_used w) rendered) eqn:E;
    eexists _, _; (split; [reflexivity|]); (split; [repeat split|]);
    right; auto.
Qed.

Lemma make_stub_quiet (env : Env) (w : world) :
  exists sc r tp w',
    make_stub env w
    = (Ok (stub_dict sc r tp, Some (json_dumps (stub_dict sc r tp))), w')
    /\ 1 <= sc <= 100 /\ threshold_rating sc r /\ stub_price tp
    /\ quiet_step w w' /\ trace w' = trace w /\ chat_used w' = chat_used w.
Proof.
  destruct (make_stub_spec env w)
    as (sc & r & tp & w' & H & A & B & C & D1 & D2 & D3 & D4 & D5).
  exists sc, r, tp, w'. unfold quiet_step. auto 10.
Qed.

Lemma parse_or_stub_cases (env : Env) (raw : option string) (w : world) :
  (exists e, parse_raw env raw = Raise e
             /\ parse_or_stub env raw w = (Raise e, w))
  \/ (exists v, parse_raw env raw = Ok v /\ py_truthy v = true
                /\ parse_or_stub env raw w = (Ok (v, raw), w))
  \/ (exists v sc r tp w',
        parse_raw env raw = Ok v /\ py_truthy v = false
        /\ parse_or_stub env raw w
           = (Ok (stub_dict sc r tp, Some (json_dumps (stub_dict sc r tp))), w')
        /\ 1 <= sc <= 100 /\ threshold_rating sc r /\ stub_price tp
        /\ quiet_step w w' /\ trace w' = trace w /\ chat_used w' = chat_used w).
Proof.
  destruct (parse_raw env raw) as [v|e] eqn:E.
  - rewrite (parse_or_stub_ok env raw v w E).
    destruct (py_truthy v) eqn:T; simpl.
    + right. left. eauto.
    + right. right.
      destruct (make_stub_quiet env w) as (sc & r & tp & w' & H & R).
      exists v, sc, r, tp, w'. auto.
  - left. exists e. split; [reflexivity|]. apply parse_or_stub_raise, E.
Qed.

Lemma check_schema_cases (env : Env) (p : Prompt) (parsed : pyval) (w : world) :
  (exists e, check_schema env p parsed w = (Raise e, w)
             /\ env_validate env parsed (schema p) = Raise e
             /\ forall msg, e <> ValidationError msg)
  \/ (exists warn w',
        check_schema env p parsed w = (Ok tt, w')
        /\ quiet_step w w' /\ trace w' = trace w ++ warn
        /\ chat_used w' = chat_used w
        /\ (warn = [] \/ exists msg, warn = [validation_warning p msg])).
Proof.
  unfold check_schema, print, emit, ret, raise.
  destruct (py_truthy (schema p)).
  - destruct (env_validate env parsed (schema p)) as [[]|e] eqn:E.
    + right. exists [], w. rewrite app_nil_r. repeat split; auto.
    + destruct e;
        try (left; eexists; split; [reflexivity|]; split; [reflexivity|];
             intros; discriminate).
      right. eexists [_], _. split; [reflexivity|]. repeat split.
      right. eexists. reflexivity.
  - right. exists [], w. rewrite app_nil_r. repeat split; auto.
Qed.

Lemma render_template_cases (env : Env) (t : string) (context : pyval) (w : world) :
  _render_template env t (PDict [("context", context)]) w
  = (env_jinja_render env t (template_variables context),
     log_event (EvRender t) w).
Proof. reflexivity. Qed.

(** What [generate] returns, and what it does on the way. *)
Lemma generate_cases (env : Env) (self : AIClient) (p : Prompt)
    (context : pyval) (w : world) :
  exists r w',
    generate env self p context w = (r, w')
    /\ quiet_step w w'
    /\ (forall x, r = Ok x ->
        exists chat warn,
          trace w' = trace w ++ EvRender (template p) :: chat ++ warn
          /\ (chat = []
              \/ exists text,
                   env_jinja_render env (template p) (template_variables context)
                   = Ok text
                   /\ chat = [EvChat text])
          /\ (warn = [] \/ exists msg, warn = [validation_warning p msg])).
Proof.
  unfold generate. unfold bind at 1. rewrite render_template_cases.
  destruct (env_jinja_render env (template p) (template_variables context))
    as [text|e] eqn:Er.
  2:{ eexists _, _. split; [reflexivity|]. split; [repeat split|discriminate]. }
  set (w0 := log_event (EvRender (template p)) w).
  destruct (invoke_cases env self text w0) as (raw & w1 & Hi & Q1 & Hc).
  unfold bind at 1. rewrite Hi.
  assert (Q0 : quiet_step w w0) by (repeat split).
  assert (Hchat : exists chat,
             trace w1 = trace w ++ EvRender (template p) :: chat
             /\ (chat = [] \/ exists text',
                   Ok text = Ok text' /\ chat = [EvChat text'])).
  { destruct Hc as [(_ & Ht)|(_ & Ht & _)]; rewrite Ht; unfold w0; cbn [trace log_event].
    - exists []. split; [reflexivity|auto].
    - exists [EvChat text]. split; [rewrite <- app_assoc; reflexivity|].
      right. eauto. }
  destruct Hchat as (chat & Ht1 & Hchat).
  unfold bind at 1.
  destruct (parse_or_stub_cases env raw w1)
    as [(e & _ & Hp)|[(v & _ & _ & Hp)|(v & sc & r & tp & w2 & _ & _ & Hp & _ & _ & _ & Q2 & Ht2 & _)]];
    rewrite Hp.
  - eexists _, _. split; [reflexivity|].
    split; [eapply quiet_step_trans; eassumption|discriminate].
  - unfold bind.
    destruct (check_schema_cases env p v w1)
      as [(e & Hs & _)|(warn & w3 & Hs & Q3 & Ht3 & _ & Hw)]; rewrite Hs.
    + eexists _, _. split; [reflexivity|].
      split; [eapply quiet_step_trans; eassumption|discriminate].
    + eexists _, _. split; [reflexivity|].
      split; [eauto using quiet_step_trans|].
      intros x _. exists chat, warn. rewrite Ht3, Ht1, <- app_assoc. auto.
  - unfold bind.
    destruct (check_schema_cases env p (stub_dict sc r tp) w2)
      as [(e & Hs & _)|(warn & w3 & Hs & Q3 & Ht3 & _ & Hw)]; rewrite Hs.
    + eexists _, _. split; [reflexivity|].
      split; [eauto using quiet_step_trans|discriminate].
    + eexists _, _. split; [reflexivity|].
      split; [eauto using quiet_step_trans|].
      intros x _. exists chat, warn. rewrite Ht3, Ht2, Ht1, <- app_assoc. auto.
Qed.

Lemma sqlite_str_ok (s s' : string) :
  sqlite_str s = Ok s' -> s' = s /\ has_surrogate s = false.
Proof.
  unfold sqlite_str. destruct (has_surrogate s); [discriminate|].
  intros H. injection H as <-. auto.
Qed.

Lemma sqlite_str_storable (s : string) :
  has_surrogate s = false -> sqlite_str s = Ok s.
Proof. unfold sqlite_str. intros ->. reflexivity. Qed.

Lemma sqlite_int_ok (z z' : Z) :
  sqlite_int z = Ok z' -> z' = z /\ - 2 ^ 63 <= z < 2 ^ 63.
Proof.
  unfold sqlite_int.
  destruct (Z.leb_spec (- 2 ^ 63) z) as [A|A];
    destruct (Z.ltb_spec z (2 ^ 63)) as [B|B];
    cbn [andb]; try discriminate.
  intros E. injection E as <-. auto.
Qed.

Lemma sqlite_int_fits (z : Z) : - 2 ^ 63 <= z < 2 ^ 63 -> sqlite_int z = Ok z.
Proof.
  intros H. unfold sqlite_int.
  destruct (Z.leb_spec (- 2 ^ 63) z); [|lia].
  destruct (Z.ltb_spec z (2 ^ 63)); [reflexivity|lia].
Qed.

Lemma sqlite_opt_str_ok (s s' : option string) :
  sqlite_opt_str s = Ok s' -> s' = s.
Proof.
  destruct s as [s|]; simpl.
  - destruct (sqlite_str s) as [t|e] eqn:E; simpl; [|discriminate].
    apply sqlite_str_ok in E. destruct E as [-> _]. intros H. injection H as <-.
    reflexivity.
  - intros H. injection H as <-. reflexivity.
Qed.

(** The row an accepted insertion writes. *)
Lemma insert_prompt_result_inv (env : Env) (run pid : string) (ver : Z)
    (nm : string) (sc : Z) (rt : string) (tp : pyfloat) (ra : pyval)
    (raw : option string) (now : string) (d d' : database) :
  insert_prompt_result env run pid ver nm sc rt tp ra raw now d = Ok d' ->
  exists ra',
    sqlite_text env ra = Ok ra'
    /\ - 2 ^ 63 <= sc < 2 ^ 63 /\ has_surrogate rt = false
    /\ d' = {| runs := runs d;
               prompt_results :=
                 prompt_results d ++
                 [{| pr_id := last_id d + 1; pr_run_id := run;
                     pr_prompt_id := pid; pr_prompt_version := ver;
                     pr_prompt_name := nm; pr_score := sc; pr_rating := rt;
                     pr_target_buy_price := sqlite_real tp;
                     pr_rationale := ra'; pr_raw_response := raw;
                     pr_created_at := now |}];
               last_id := last_id d + 1 |}.
Proof.
  unfold insert_prompt_result.
  destruct (sqlite_str pid) as [pid'|] eqn:E1; simpl; [|discriminate].
  destruct (sqlite_int ver) as [ver'|] eqn:E2; simpl; [|discriminate].
  destruct (sqlite_str nm) as [nm'|] eqn:E3; simpl; [|discriminate].
  destruct (sqlite_int sc) as [sc'|] eqn:E4; simpl; [|discriminate].
  destruct (sqlite_str rt) as [rt'|] eqn:E5; simpl; [|discriminate].
  destruct (sqlite_text env ra) as [ra'|] eqn:E6; simpl; [|discriminate].
  destruct (sqlite_opt_str raw) as [raw'|] eqn:E7; simpl; [|discriminate].
  apply sqlite_str_ok in E1, E3, E5. apply sqlite_int_ok in E2, E4.
  apply sqlite_opt_str_ok in E7.
  destruct E1 as [-> _], E2 as [-> _], E3 as [-> _], E4 as [-> H4], E5 as [-> H5].
  subst raw'. intros H. injection H as <-. exists ra'. auto.
Qed.

Lemma insert_prompt_result_accepts (env : Env) (run pid : string) (ver : Z)
    (nm : string) (sc : Z) (rt : string) (tp : pyfloat) (ra : pyval)
    (raw : option string) (now : string) (d : database) :
  has_surrogate pid = false -> - 2 ^ 63 <= ver < 2 ^ 63 ->
  has_surrogate nm = false -> - 2 ^ 63 <= sc < 2 ^ 63 ->
  has_surrogate rt = false -> is_ok (sqlite_text env ra) = true ->
  (forall t, raw = Some t -> has_surrogate t = false) ->
  exists d', insert_prompt_result env run pid ver nm sc rt tp ra raw now d = Ok d'.
Proof.
  intros H1 H2 H3 H4 H5 H6 H7. unfold insert_prompt_result.
  rewrite (sqlite_str_storable pid H1), (sqlite_int_fits ver H2),
    (sqlite_str_storable nm H3), (sqlite_int_fits sc H4),
    (sqlite_str_storable rt H5). simpl.
  destruct (sqlite_text env ra); [|discriminate]. simpl.
  destruct raw as [t|]; simpl; [|eauto].
  rewrite (sqlite_str_storable t (H7 t eq_refl)). simpl. eauto.
Qed.

Lemma process_prompt_unfold (env : Env) (self : AIClient) (context : pyval)
    (run : string) (p : Prompt) (acc : accumulators) (w : world) :
  process_prompt env self context run p acc w
  = match generate env self p context w with
    | (Ok (parsed, raw), w1) =>
        match coerce_outcome env parsed with
        | Ok o =>
            match insert_prompt_result env run (prompt_id p) (version p) (name p)
                    (score o) (rating o) (target_price o) (rationale o) raw
                    (env_utcnow env (clock_used w1)) (db w1) with
            | Ok d =>
                (Ok (acc_after acc p o),
                 log_event (EvSavePromptResult run (prompt_id p))
                   (set_db d (tick w1)))
            | Raise x => (Raise x, tick w1)
            end
        | Raise e => (Raise e, w1)
        end
    | (Raise e, w1) => (Raise e, w1)
    end.
Proof.
  unfold process_prompt. unfold bind at 1.
  destruct (generate env self p context w) as [[[parsed raw]|e] w1]; [|reflexivity].
  unfold lift, bind at 1. destruct (coerce_outcome env parsed) as [o|e]; [|reflexivity].
  unfold save_prompt_result, utcnow_isoformat, execute, bind, ret. cbn [db].
  fold (tick w1).
  destruct (insert_prompt_result _ _ _ _ _ _ _ _ _ _ _ _); reflexivity.
Qed.

(** One turn of the loop: it raises and writes nothing, or it writes
    exactly one row, after the work of this prompt only. *)
Lemma process_prompt_cases (env : Env) (self : AIClient) (context : pyval)
    (run : string) (p : Prompt) (acc : accumulators) (w : world) :
  (exists e w',
     process_prompt env self context run p acc w = (Raise e, w')
     /\ db w' = db w /\ uuid_used w' = uuid_used w)
  \/ (exists o raw seg row w',
        process_prompt env self context run p acc w = (Ok (acc_after acc p o), w')
        /\ trace w' = trace w ++ seg
        /\ prompt_segment env context run p seg
        /\ uuid_used w' = uuid_used w
        /\ runs (db w') = runs (db w)
        /\ prompt_results (db w') = prompt_results (db w) ++ [row]
        /\ last_id (db w') = last_id (db w) + 1
        /\ pr_id row = last_id (db w) + 1
        /\ row_matches env run p o raw row
        /\ - 2 ^ 63 <= score o < 2 ^ 63
        /\ has_surrogate (rating o) = false).
Proof.
  rewrite process_prompt_unfold.
  destruct (generate_cases env self p context w) as (r & w1 & Hg & (Hd & Hu & Hc) & Hx).
  rewrite Hg. destruct r as [[parsed raw]|e].
  2:{ left. eauto. }
  destruct (coerce_outcome env parsed) as [o|e] eqn:Ho.
  2:{ left. eauto. }
  destruct (insert_prompt_result env run (prompt_id p) (version p) (name p)
              (score o) (rating o) (target_price o) (rationale o) raw
              (env_utcnow env (clock_used w1)) (db w1)) as [d|e] eqn:Hi.
  2:{ left. eexists _, _. split; [reflexivity|]. auto. }
  destruct (insert_prompt_result_inv _ _ _ _ _ _ _ _ _ _ _ _ _ Hi)
    as (ra' & Hra & Hsc & Hrt & ->).
  destruct (Hx _ eq_refl) as (chat & warn & Ht & Hchat & Hwarn).
  right. eexists o, raw, _, _, _. split; [reflexivity|].
  cbn [trace log_event set_db tick db runs prompt_results last_id uuid_used pr_id].
  split.
  { rewrite Ht, <- app_assoc. cbn [app]. rewrite <- app_assoc. reflexivity. }
  split; [exists chat, warn; auto|].
  rewrite Hd. repeat split; auto; apply Hsc.
Qed.

Lemma acc_after_consistent (acc : accumulators) (p : Prompt) (o : outcome) :
  acc_consistent acc -> acc_consistent (acc_after acc p o).
Proof.
  intros (H1 & H2 & H3). unfold acc_consistent, acc_after. simpl.
  rewrite !map_app, H1, H2, H3. simpl. auto.
Qed.

Lemma acc_after_storable (acc : accumulators) (p : Prompt) (o : outcome) :
  - 2 ^ 63 <= score o < 2 ^ 63 -> has_surrogate (rating o) = false ->
  acc_storable acc -> acc_storable (acc_after acc p o).
Proof.
  intros Hs Hr (H1 & H2). unfold acc_storable, acc_after.
  cbn [scores ratings]. split; apply Forall_app; split; auto.
Qed.

(** The loop: it raises, having written the rows of the prompts before
    the failing one, or it returns one entry and one row per prompt, in
    order, the trace being one segment per prompt, in order. *)
Lemma run_prompts_cases (env : Env) (self : AIClient) (context : pyval)
    (run : string) (prompts : list Prompt) :
  forall acc w,
    (exists e w' n rows,
       run_prompts env self context run prompts acc w = (Raise e, w')
       /\ uuid_used w' = uuid_used w
       /\ runs (db w') = runs (db w)
       /\ (n < List.length prompts)%nat
       /\ prompt_results (db w') = prompt_results (db w) ++ rows
       /\ map pr_prompt_id rows = firstn n (map prompt_id prompts))
    \/ (exists acc' segs rows w',
          run_prompts env self context run prompts acc w = (Ok acc', w')
          /\ map entry_key (result_entries acc')
             = map entry_key (result_entries acc) ++ map entry_of_prompt prompts
          /\ (acc_consistent acc -> acc_consistent acc')
          /\ (acc_storable acc -> acc_storable acc')
          /\ trace w' = trace w ++ List.concat segs
          /\ Forall2 (prompt_segment env context run) prompts segs
          /\ uuid_used w' = uuid_used w
          /\ runs (db w') = runs (db w)
          /\ prompt_results (db w') = prompt_results (db w) ++ rows
          /\ map pr_prompt_id rows = map prompt_id prompts
          /\ Forall (fun r => pr_run_id r = run) rows
          /\ exists entries,
               result_entries acc' = result_entries acc ++ entries
               /\ Forall2 (entry_row env run) entries rows).
Proof.
  induction prompts as [|p ps IH]; intros acc w.
  - right. exists acc, [], [], w. simpl. rewrite !app_nil_r.
    split; [reflexivity|]. split; [reflexivity|]. split; [auto|]. split; [auto|].
    split; [reflexivity|]. split; [constructor|]. split; [reflexivity|].
    split; [reflexivity|]. split; [reflexivity|]. split; [reflexivity|].
    split; [constructor|].
    exists []. rewrite app_nil_r. split; [reflexivity|constructor].
  - simpl run_prompts.
    destruct (process_prompt_cases env self context run p acc w)
      as [(e & w1 & Hp & Hd & Hu)
         |(o & raw & seg & row & w1 & Hp & Ht & Hseg & Hu & Hr & Hpr & _ & _ & Hrow & Hsc & Hrt)].
    + left. exists e, w1, 0%nat, []. rewrite (bind_raise _ _ _ _ _ Hp), Hd, app_nil_r.
      repeat split; auto. simpl. lia.
    + rewrite (bind_ok _ _ _ _ _ Hp).
      destruct (IH (acc_after acc p o) w1)
        as [(e & w2 & n & rows & Hq & Hu2 & Hr2 & Hn & Hpr2 & Hid)
           |(acc' & segs & rows & w2 & Hq & Hk & Hc & Hst & Ht2 & Hs & Hu2 & Hr2 & Hpr2 & Hid & Hrun & es & Hes & Her)].
      * left. exists e, w2, (S n), (row :: rows).
        split; [exact Hq|]. split; [congruence|]. split; [congruence|].
        split; [simpl; lia|].
        split; [rewrite Hpr2, Hpr, <- app_assoc; reflexivity|].
        simpl. destruct Hrow as (_ & -> & _). rewrite Hid. reflexivity.
      * right. exists acc', (seg :: segs), (row :: rows), w2.
        split; [exact Hq|]. split.
        { rewrite Hk. unfold acc_after. simpl. rewrite map_app, <- app_assoc.
          reflexivity. }
        split; [intros H; apply Hc, acc_after_consistent, H|].
        split; [intros H; apply Hst, acc_after_storable; assumption|].
        split; [rewrite Ht2, Ht; simpl; rewrite <- app_assoc; reflexivity|].
        split; [constructor; assumption|].
        split; [congruence|]. split; [congruence|].
        split; [rewrite Hpr2, Hpr, <- app_assoc; reflexivity|].
        pose proof Hrow as (Hrun' & Hpid & _).
        split; [simpl; congruence|]. split; [constructor; assumption|].
        eexists (_ :: es). split.
        { rewrite Hes. unfold acc_after. cbn [result_entries].
          rewrite <- app_assoc. reflexivity. }
        constructor; [|exact Her].
        destruct Hrow as (R1 & R2 & R3 & R4 & R5 & R6 & R7 & R8 & _).
        repeat split; assumption.
Qed.

Lemma start_run_unfold (env : Env) (ticker : string) (w : world) :
  let rid := env_uuid4 env (uuid_used w) in
  let cj := json_dumps (load_context ticker) in
  let w1 := {| db := db w; trace := trace w; chat_used := chat_used w;
               random_used := random_used w; uuid_used := S (uuid_used w);
               clock_used := S (clock_used w) |} in
  start_run env ticker cj w
  = if has_surrogate ticker then (Raise (encode_error ticker), w1)
    else if existsb (fun r => String.eqb (run_id r) rid) (runs (db w))
    then (Raise taken_error, w1)
    else (Ok rid,
          log_event (EvStartRun rid)
            (set_db {| runs := runs (db w)
                         ++ [open_run rid ticker cj (env_utcnow env (clock_used w))];
                       prompt_results := prompt_results (db w);
                       last_id := last_id (db w) |} w1)).
Proof.
  cbv zeta. unfold start_run, uuid4, utcnow_isoformat, execute, insert_run, bind, ret.
  cbn [db clock_used]. rewrite context_text_storable. unfold sqlite_str.
  destruct (has_surrogate ticker); [reflexivity|]. cbn [rbind].
  destruct (existsb _ (runs (db w))); reflexivity.
Qed.

Lemma finish_run_unfold (env : Env) (rid : string) (a : pyfloat) (r : string)
    (t : pyfloat) (w : world) :
  finish_run env rid a r t w
  = if has_surrogate r then (Raise (encode_error r), tick w)
    else (Ok tt,
          log_event (EvFinishRun rid)
            (set_db {| runs := map (closed_run rid (env_utcnow env (clock_used w))
                                      a r t) (runs (db w));
                       prompt_results := prompt_results (db w);
                       last_id := last_id (db w) |} (tick w))).
Proof.
  unfold finish_run, utcnow_isoformat, execute, update_run, bind, sqlite_str.
  cbn [db]. destruct (has_surrogate r); reflexivity.
Qed.

Lemma total_bound (xs : list Z) (b : Z) :
  Forall (fun z => - b <= z <= b) xs ->
  - (Z.of_nat (List.length xs) * b) <= total xs <= Z.of_nat (List.length xs) * b.
Proof.
  induction 1 as [|x r Hx Hr IH]; [simpl; lia|].
  cbn [total fold_right List.length]. fold (total r). lia.
Qed.

(** The mean of scores the store accepted does not overflow. *)
Lemma mean_int_storable (xs : list Z) :
  xs <> [] -> Forall (fun z => - 2 ^ 63 <= z < 2 ^ 63) xs ->
  exists a, mean_int xs = Ok a.
Proof.
  intros Hne Hall.
  destruct (mean_int_spec xs (inject_Z (2 ^ 63)) Hne) as (a & v & H & _).
  - exists 1, 63. split; [reflexivity|]. split; [lia|].
    rewrite pow2_nat by lia. ring.
  - assert (Hb : Forall (fun z => - 2 ^ 63 <= z <= 2 ^ 63) xs).
    { eapply Forall_impl; [|exact Hall]. simpl. intros; lia. }
    apply total_bound in Hb. unfold exact_mean.
    assert (Hl : (0 < List.length xs)%nat) by (destruct xs; [congruence|simpl; lia]).
    apply Qabs_Qle_condition. unfold Qle, Qopp, inject_Z. cbn [Qnum Qden].
    assert (E : Z.pos (Pos.of_nat (List.length xs)) = Z.of_nat (List.length xs)).
    { destruct (List.length xs) as [|n]; [lia|]. rewrite <- Pos.of_nat_succ. lia. }
    rewrite E. lia.
  - eauto.
Qed.

(** The summary of a loop that returned over a non-empty catalog. *)
Lemma aggregate_storable (acc : accumulators) :
  result_entries acc <> [] -> acc_consistent acc -> acc_storable acc ->
  exists s,
    aggregate (scores acc) (ratings acc) (targets acc) = Ok s
    /\ has_surrogate (s_final_rating s) = false.
Proof.
  intros Hne (C1 & C2 & C3) (S1 & S2).
  assert (N1 : scores acc <> []).
  { rewrite C1. destruct (result_entries acc); [congruence|discriminate]. }
  assert (N2 : ratings acc <> []).
  { rewrite C2. destruct (result_entries acc); [congruence|discriminate]. }
  assert (N3 : targets acc <> []).
  { rewrite C3. destruct (result_entries acc); [congruence|discriminate]. }
  destruct (mean_int_storable _ N1 S1) as [a Ha].
  destruct (mean_float_nonempty _ N3) as (t & Ht & _).
  unfold aggregate. rewrite Ha, Ht. cbn [rbind].
  destruct (final_rating_cases _ N2)
    as [(r & Hin & _ & Hf)|(_ & _ & _ & _ & _ & _ & _ & Hf)]; rewrite Hf; cbn [rbind].
  - eexists. split; [reflexivity|]. cbn [s_final_rating].
    exact (proj1 (Forall_forall _ _) S2 r Hin).
  - eexists. split; [reflexivity|]. reflexivity.
Qed.

(* ------------------------------------------------------------------ *)
(** *** A whole run *)

Lemma load_prompts_catalog (env : Env) (w : world) :
  load_prompts env w = (Ok (catalog env), after_load env w).
Proof.
  rewrite load_prompts_spec. unfold catalog, after_load.
  destruct (env_prompts_exists env); reflexivity.
Qed.

Lemma after_load_spec (env : Env) (w : world) :
  db (after_load env w) = db w
  /\ uuid_used (after_load env w) = uuid_used w
  /\ clock_used (after_load env w) = clock_used w
  /\ chat_used (after_load env w) = chat_used w
  /\ exists lines,
       trace (after_load env w) = trace w ++ lines
       /\ forallb is_print lines = true.
Proof.
  unfold after_load. destruct (env_prompts_exists env).
  - rewrite log_events_spec. simpl. repeat split.
    exists (load_errors_of env (candidates env)). split; [reflexivity|].
    unfold load_errors_of. induction (candidates env) as [|[n f] l IH]; [reflexivity|].
    simpl. rewrite forallb_app, IH.
    destruct (load_file env n f); reflexivity.
  - repeat split. exists []. rewrite app_nil_r. auto.
Qed.

Lemma run_analysis_empty (env : Env) (ticker : string) (w : world) :
  catalog env = [] ->
  run_analysis env ticker w = (Raise no_prompts, after_load env w).
Proof.
  intros H. unfold run_analysis.
  rewrite (bind_ok _ _ _ _ _ (load_prompts_catalog env w)), H. reflexivity.
Qed.

(** A run over a non-empty catalog, step by step. *)
Lemma run_analysis_unfold (env : Env) (ticker : string) (w : world) :
  catalog env <> [] ->
  run_analysis env ticker w
  = match start_run env ticker (json_dumps (load_context ticker))
            (after_load env w) with
    | (Ok rid, w2) =>
        match run_prompts env (AIClient_init env) (load_context ticker) rid
                (catalog env) empty_acc w2 with
        | (Ok acc, w3) =>
            match aggregate (scores acc) (ratings acc) (targets acc) with
            | Ok s =>
                match finish_run env rid (s_average_score s) (s_final_rating s)
                        (s_final_target_price s) w3 with
                | (Ok _, w4) => (Ok (result_entries acc, s), w4)
                | (Raise e, w4) => (Raise e, w4)
                end
            | Raise e => (Raise e, w3)
            end
        | (Raise e, w3) => (Raise e, w3)
        end
    | (Raise e, w2) => (Raise e, w2)
    end.
Proof.
  intros Hne. unfold run_analysis.
  rewrite (bind_ok _ _ _ _ _ (load_prompts_catalog env w)).
  destruct (catalog env) as [|p ps] eqn:Hc; [congruence|].
  rewrite (bind_ok _ _ _ tt (after_load env w)) by reflexivity.
  unfold bind at 1.
  destruct (start_run env ticker _ (after_load env w)) as [[rid|e] w2]; [|reflexivity].
  fold empty_acc. unfold bind at 1.
  destruct (run_prompts env _ _ rid (p :: ps) empty_acc w2) as [[acc|e] w3];
    [|reflexivity].
  unfold bind at 1, lift.
  destruct (aggregate (scores acc) (ratings acc) (targets acc)) as [s|e];
    [|reflexivity].
  unfold bind, ret.
  destruct (finish_run env rid _ _ _ w3) as [[[]|e] w4]; reflexivity.
Qed.

(** The three ways a run over a non-empty catalog can end: the header row
    is refused, the loop raises, or the run returns. *)
Lemma run_analysis_cases (env : Env) (ticker : string) (w : world) :
  catalog env <> [] ->
  let rid := env_uuid4 env (uuid_used w) in
  let header :=
    open_run rid ticker (json_dumps (load_context ticker))
      (env_utcnow env (clock_used w)) in
  (exists e w',
     run_analysis env ticker w = (Raise e, w') /\ db w' = db w
     /\ (has_surrogate ticker = true /\ e = encode_error ticker
         \/ has_surrogate ticker = false
            /\ existsb (fun r => String.eqb (run_id r) rid) (runs (db w)) = true
            /\ e = taken_error))
  \/ (exists e w' n rows,
        run_analysis env ticker w = (Raise e, w')
        /\ has_surrogate ticker = false
        /\ existsb (fun r => String.eqb (run_id r) rid) (runs (db w)) = false
        /\ runs (db w') = runs (db w) ++ [header]
        /\ (n < List.length (catalog env))%nat
        /\ prompt_results (db w') = prompt_results (db w) ++ rows
        /\ map pr_prompt_id rows = firstn n (map prompt_id (catalog env)))
  \/ (exists results s w' segs rows now,
        run_analysis env ticker w = (Ok (results, s), w')
        /\ has_surrogate ticker = false
        /\ existsb (fun r => String.eqb (run_id r) rid) (runs (db w)) = false
        /\ map entry_key results = map entry_of_prompt (catalog env)
        /\ aggregate (map e_score results) (map e_rating results)
             (map e_target_buy_price results) = Ok s
        /\ trace w'
           = trace (after_load env w) ++ [EvStartRun rid] ++ List.concat segs
               ++ [EvFinishRun rid]
        /\ Forall2 (prompt_segment env (load_context ticker) rid) (catalog env) segs
        /\ prompt_results (db w') = prompt_results (db w) ++ rows
        /\ map pr_prompt_id rows = map prompt_id (catalog env)
        /\ Forall2 (entry_row env rid) results rows
        /\ runs (db w')
           = map (closed_run rid now (s_average_score s) (s_final_rating s)
                    (s_final_target_price s))
               (runs (db w) ++ [header])).
Proof.
  intros Hne rid header. rewrite (run_analysis_unfold env ticker w Hne).
  destruct (after_load_spec env w) as (Hdb & Hu & Hck & _ & _).
  rewrite start_run_unfold. cbv zeta. rewrite Hu, Hck, Hdb. fold rid.
  destruct (has_surrogate ticker) eqn:Hs.
  { left. eexists _, _. split; [reflexivity|]. cbn [db]. auto. }
  destruct (existsb _ (runs (db w))) eqn:Hex.
  { left. eexists _, _. split; [reflexivity|]. cbn [db]. auto. }
  fold header.
  match goal with
  | |- context [run_prompts _ _ _ _ _ _ ?w2] => set (w2' := w2)
  end.
  destruct (run_prompts_cases env (AIClient_init env) (load_context ticker) rid
              (catalog env) empty_acc w2')
    as [(e & w3 & n & rows & Hr & _ & Hruns & Hn & Hpr & Hid)
       |(acc & segs & rows & w3 & Hr & Hk & Hcons & Hst & Ht3 & Hseg & _ & Hruns
         & Hpr & Hid & _ & es & Hes & Her)]; rewrite Hr.
  { right. left. exists e, w3, n, rows. split; [reflexivity|].
    rewrite Hruns, Hpr. unfold w2'. cbn. auto 10. }
  right. right.
  destruct (Hcons (conj eq_refl (conj eq_refl eq_refl))) as (C1 & C2 & C3).
  assert (Hres : result_entries acc <> []).
  { intros H. rewrite H in Hk. destruct (catalog env); [congruence|discriminate]. }
  destruct (aggregate_storable acc Hres (conj C1 (conj C2 C3)))
    as (s & Ha & Hfr).
  { apply Hst. split; constructor. }
  rewrite Ha, finish_run_unfold, Hfr.
  exists (result_entries acc), s. eexists _, segs, rows, _.
  split; [reflexivity|].
  cbn [trace log_event set_db tick db prompt_results runs].
  split; [reflexivity|]. split; [reflexivity|]. split; [exact Hk|].
  split; [rewrite <- C1, <- C2, <- C3; exact Ha|].
  split; [rewrite Ht3; unfold w2'; cbn; rewrite <- !app_assoc; reflexivity|].
  split; [exact Hseg|].
  split; [rewrite Hpr; unfold w2'; reflexivity|].
  split; [exact Hid|].
  split; [rewrite Hes; exact Her|].
  rewrite Hruns. unfold w2'. reflexivity.
Qed.

(** C4.  With an empty catalog the run fails with the RuntimeError of
    [run_analysis], the configuration error, before the store is touched:
    the database is unchanged, no identifier and no clock reading is
    drawn, the backend is not called, and the only new events are the
    console lines of the loader, so that neither [start_run] nor
    [save_prompt_result] nor [finish_run] was called. *)
Theorem empty_catalog_is_a_configuration_error (env : Env) (ticker : string)
    (w : world) :
  fst (load_prompts env w) = Ok [] ->
  exists w',
    run_analysis env ticker w = (Raise no_prompts, w')
    /\ db w' = db w
    /\ uuid_used w' = uuid_used w
    /\ clock_used w' = clock_used w
    /\ chat_used w' = chat_used w
    /\ exists lines,
         trace w' = trace w ++ lines /\ forallb is_print lines = true.
Proof.
  rewrite load_prompts_catalog. simpl fst.
  intros H. injection H as H. exists (after_load env w).
  split; [apply run_analysis_empty; exact H|]. apply after_load_spec.
Qed.

Lemma empty_catalog_is_a_configuration_error_witness :
  exists w',
    run_analysis
      (env_with [("broken.yml", yaml_file (PList []))] (Some "sk-test") (Ok "{}"))
      "AAPL" initial_world
    = (Raise no_prompts, w')
    /\ db w' = db initial_world
    /\ uuid_used w' = uuid_used initial_world
    /\ clock_used w' = clock_used initial_world
    /\ chat_used w' = chat_used initial_world
    /\ exists lines,
         trace w' = trace initial_world ++ lines
         /\ forallb is_print lines = true.
Proof.
  apply (empty_catalog_is_a_configuration_error _ "AAPL" initial_world).
  reflexivity.
Defined.

(* ------------------------------------------------------------------ *)
(** *** Runs that complete *)

Lemma stub_storable (env : Env) (sc : Z) (r : string) (tp : pyfloat) :
  1 <= sc <= 100 -> threshold_rating sc r ->
  storable env {| score := sc; rating := r; target_price := tp;
                  rationale := PStr stub_rationale |}.
Proof.
  intros Hs Hr. unfold storable. cbn [score rating rationale].
  split; [lia|]. split.
  - destruct (threshold_rating_literal sc r Hr) as [->|[->| ->]]; reflexivity.
  - reflexivity.
Qed.

Lemma json_loads_empty (py : Python) : json_loads py "" = Raise not_json.
Proof. reflexivity. Qed.

(** What [generate] returns when the prompt can be processed and the raw
    text is none, unusable, or usable as it is. *)
Lemma parse_or_stub_ready (env : Env) (raw : option string) (w : world) :
  raw = None
  \/ (exists t, raw = Some t
                /\ (no_usable_reply env (Some t) \/ usable_reply env t)) ->
  exists parsed raw' o w',
    parse_or_stub env raw w = (Ok (parsed, raw'), w')
    /\ quiet_step w w' /\ trace w' = trace w
    /\ coerce_outcome env parsed = Ok o /\ storable env o
    /\ (forall t, raw' = Some t -> has_surrogate t = false).
Proof.
  intros Hraw.
  assert (Hc : (exists v, parse_raw env raw = Ok v /\ py_truthy v = false)
               \/ (exists t v o,
                     raw = Some t /\ parse_raw env raw = Ok v
                     /\ py_truthy v = true /\ coerce_outcome env v = Ok o
                     /\ storable env o /\ has_surrogate t = false)).
  { destruct Hraw as [->|(t & -> & [Hn|(v & o & Hj & Ht & Ho & Hs & Hsur)])].
    - left. apply no_usable_reply_falsy. left. reflexivity.
    - left. apply no_usable_reply_falsy, Hn.
    - right. exists t, v, o. split; [reflexivity|].
      split; [|auto]. apply parse_raw_some; [|exact Hj].
      intros ->. rewrite json_loads_empty in Hj. discriminate. }
  destruct (parse_or_stub_cases env raw w)
    as [(e & Hp & _)|[(v & Hp & Ht & Hq)|(v & sc & r & tp & w' & Hp & Ht & Hq & Hsc & Hr & _ & Q & Htr & _)]].
  - exfalso. destruct Hc as [(v & Hv & _)|(t & v & o & _ & Hv & _)]; congruence.
  - destruct Hc as [(v' & Hv & Hf)|(t & v' & o & -> & Hv & _ & Ho & Hs & Hsur)].
    + exfalso. congruence.
    + assert (v' = v) by congruence. subst v'.
      exists v, (Some t), o, w. split; [exact Hq|].
      split; [apply quiet_step_refl|]. split; [reflexivity|].
      split; [exact Ho|]. split; [exact Hs|].
      intros t' E. injection E as <-. exact Hsur.
  - eexists _, _, _, w'. split; [exact Hq|]. split; [exact Q|]. split; [exact Htr|].
    split; [apply coerce_stub_dict, Hr|]. split; [apply stub_storable; assumption|].
    intros t E. injection E as <-. apply stub_text_storable.
Qed.

Lemma generate_ready (env : Env) (self : AIClient) (p : Prompt)
    (context : pyval) (w : world) :
  prompt_ready env context p ->
  (forall n rendered content,
     env_chat_completion env n rendered = Ok content ->
     no_usable_reply env (Some (strip content))
     \/ usable_reply env (strip content)) ->
  exists parsed raw o w1,
    generate env self p context w = (Ok (parsed, raw), w1)
    /\ coerce_outcome env parsed = Ok o /\ storable env o
    /\ (forall t, raw = Some t -> has_surrogate t = false).
Proof.
  intros ((text & Hr) & Hv & _) Hchat.
  unfold generate. unfold bind at 1. rewrite render_template_cases, Hr.
  set (w0 := log_event (EvRender (template p)) w).
  destruct (invoke_cases env self text w0) as (raw & w1 & Hi & _ & Hc).
  unfold bind at 1. rewrite Hi.
  assert (Hraw : raw = None
                 \/ exists t, raw = Some t
                      /\ (no_usable_reply env (Some t) \/ usable_reply env t)).
  { destruct Hc as [(-> & _)|(_ & _ & Hc)]; [auto|].
    destruct (env_chat_completion env (chat_used w0) text) as [content|e] eqn:E;
      [|auto].
    right. exists (strip content). split; [exact Hc|]. eapply Hchat, E. }
  destruct (parse_or_stub_ready env raw w1 Hraw)
    as (parsed & raw' & o & w2 & Hp & _ & _ & Ho & Hs & Hsur).
  unfold bind at 1. rewrite Hp. unfold bind.
  destruct (check_schema_cases env p parsed w2)
    as [(e & _ & He & Hne)|(warn & w3 & Hck & _)].
  - exfalso. destruct (Hv _ _ He) as [msg ->]. apply (Hne msg). reflexivity.
  - rewrite Hck. exists parsed, raw', o, w3. auto.
Qed.

Lemma process_prompt_ready (env : Env) (self : AIClient) (context : pyval)
    (run : string) (p : Prompt) (acc : accumulators) (w : world) :
  prompt_ready env context p ->
  (forall n rendered content,
     env_chat_completion env n rendered = Ok content ->
     no_usable_reply env (Some (strip content))
     \/ usable_reply env (strip content)) ->
  exists acc' w', process_prompt env self context run p acc w = (Ok acc', w').
Proof.
  intros Hp Hchat. rewrite process_prompt_unfold.
  destruct (generate_ready env self p context w Hp Hchat)
    as (parsed & raw & o & w1 & Hg & Ho & (S1 & S2 & S3) & Hsur).
  destruct Hp as (_ & _ & P1 & P2 & P3).
  rewrite Hg, Ho.
  destruct (insert_prompt_result_accepts env run (prompt_id p) (version p) (name p)
              (score o) (rating o) (target_price o) (rationale o) raw
              (env_utcnow env (clock_used w1)) (db w1) P1 P3 P2 S1 S2 S3 Hsur)
    as [d ->].
  eauto.
Qed.

Lemma run_prompts_ready (env : Env) (self : AIClient) (context : pyval)
    (run : string) (prompts : list Prompt) :
  (forall p, In p prompts -> prompt_ready env context p) ->
  (forall n rendered content,
     env_chat_completion env n rendered = Ok content ->
     no_usable_reply env (Some (strip content))
     \/ usable_reply env (strip content)) ->
  forall acc w,
  exists acc' w', run_prompts env self context run prompts acc w = (Ok acc', w').
Proof.
  intros Hp Hchat. induction prompts as [|p ps IH]; intros acc w.
  - simpl. unfold ret. eauto.
  - destruct (process_prompt_ready env self context run p acc w
                (Hp p (or_introl eq_refl)) Hchat) as (acc1 & w1 & H1).
    simpl. rewrite (bind_ok _ _ _ _ _ H1).
    apply IH. intros q Hq. apply Hp. right. exact Hq.
Qed.

Lemma run_analysis_ready (env : Env) (ticker : string) (w : world) :
  catalog env <> [] -> run_ready env ticker w ->
  exists results s w', run_analysis env ticker w = (Ok (results, s), w').
Proof.
  intros Hne (Hs & Hfresh & Hp & Hchat).
  destruct (run_analysis_cases env ticker w Hne)
    as [(e & w' & _ & _ & [(H & _)|(_ & H & _)])
       |[(e & w' & n & rows & Hrun & _)
        |(results & s & w' & _ & _ & _ & Hrun & _)]];
    [congruence|congruence| |eauto].
  exfalso. revert Hrun. rewrite (run_analysis_unfold env ticker w Hne).
  destruct (after_load_spec env w) as (Hdb & Hu & _).
  rewrite start_run_unfold. cbv zeta. rewrite Hu, Hdb, Hs, Hfresh.
  match goal with
  | |- context [run_prompts _ _ _ ?rid _ _ ?w2] =>
      destruct (run_prompts_ready env (AIClient_init env) (load_context ticker) rid
                  (catalog env) Hp Hchat empty_acc w2) as (acc & w3 & Hr);
      pose proof (run_prompts_cases env (AIClient_init env) (load_context ticker)
                    rid (catalog env) empty_acc w2) as Hcases
  end.
  rewrite Hr in *.
  destruct Hcases
    as [(e1 & w4 & n1 & rows1 & Hr' & _)
       |(acc' & segs & rows' & w4 & Hr' & Hk & Hcons & Hst & _)]; [discriminate|].
  injection Hr' as <- <-.
  destruct (Hcons (conj eq_refl (conj eq_refl eq_refl))) as (C1 & C2 & C3).
  assert (Hres : result_entries acc <> []).
  { intros H. rewrite H in Hk. destruct (catalog env); [congruence|discriminate]. }
  destruct (aggregate_storable acc Hres (conj C1 (conj C2 C3)))
    as (s & Ha & Hfr).
  { apply Hst. split; constructor. }
  rewrite Ha, finish_run_unfold, Hfr. discriminate.
Qed.

(** A prompt whose template does not render stops the loop. *)
Lemma run_prompts_render_fails (env : Env) (self : AIClient) (context : pyval)
    (run : string) (prompts : list Prompt) (p : Prompt) (e : exn) :
  In p prompts ->
  env_jinja_render env (template p) (template_variables context) = Raise e ->
  forall acc w,
  exists e' w', run_prompts env self context run prompts acc w = (Raise e', w').
Proof.
  intros Hin Hr. induction prompts as [|q qs IH]; intros acc w; [destruct Hin|].
  simpl.
  destruct (process_prompt env self context run q acc w) as [[acc1|e1] w1] eqn:Hq.
  - rewrite (bind_ok _ _ _ _ _ Hq). destruct Hin as [->|Hin]; [|apply IH, Hin].
    exfalso. revert Hq. rewrite process_prompt_unfold.
    unfold generate. unfold bind at 1. rewrite render_template_cases, Hr.
    discriminate.
  - rewrite (bind_raise _ _ _ _ _ Hq). eauto.
Qed.

(** C9, as the code has it.  Over a non-empty catalog, a run that returns
    gives exactly one entry per loaded prompt, in catalog order, and its
    trace is the opening of the run, then for each prompt in catalog order
    the rendering of its own template, the call of the backend with that
    text if there is one, the warning of its own validation if there is
    one, and the write of its own row, then the closing of the run: all of
    a prompt, its row included, comes before anything of the next.  A run
    returns whenever it is ready ([run_ready]), with or without a backend;
    it raises, returning no entry, whenever the template of a loaded
    prompt does not render. *)
Theorem run_analysis_one_entry_per_prompt (env : Env) (ticker : string)
    (w : world) :
  catalog env <> [] ->
  (forall results s w',
     run_analysis env ticker w = (Ok (results, s), w') ->
     map entry_key results = map entry_of_prompt (catalog env)
     /\ List.length results = List.length (catalog env)
     /\ aggregate (map e_score results) (map e_rating results)
          (map e_target_buy_price results) = Ok s
     /\ exists segs rows,
          let rid := env_uuid4 env (uuid_used w) in
          trace w'
          = trace (after_load env w) ++ [EvStartRun rid] ++ List.concat segs
              ++ [EvFinishRun rid]
          /\ Forall2 (prompt_segment env (load_context ticker) rid)
               (catalog env) segs
          /\ prompt_results (db w') = prompt_results (db w) ++ rows
          /\ map pr_prompt_id rows = map prompt_id (catalog env))
  /\ (run_ready env ticker w ->
      exists results s w', run_analysis env ticker w = (Ok (results, s), w'))
  /\ (forall p e,
        In p (catalog env) ->
        env_jinja_render env (template p)
          (template_variables (load_context ticker)) = Raise e ->
        exists e' w', run_analysis env ticker w = (Raise e', w')).
Proof.
  intros Hne. split; [|split].
  - intros results s w' Hrun.
    destruct (run_analysis_cases env ticker w Hne)
      as [(e & w2 & Hr & _)
         |[(e & w2 & n & rows & Hr & _)
          |(results' & s' & w2 & segs & rows & now & Hr & _ & _ & Hk & Ha & Ht
            & Hs & Hp & Hi & _)]];
      [rewrite Hr in Hrun; discriminate|rewrite Hr in Hrun; discriminate|].
    rewrite Hr in Hrun. injection Hrun as -> -> ->.
    split; [exact Hk|]. split.
    { rewrite <- (length_map entry_key), Hk, length_map. reflexivity. }
    split; [exact Ha|]. exists segs, rows. auto.
  - apply run_analysis_ready. exact Hne.
  - intros p e Hin Hr. rewrite (run_analysis_unfold env ticker w Hne).
    destruct (start_run env ticker _ (after_load env w)) as [[rid|e0] w2]; [|eauto].
    destruct (run_prompts_render_fails env (AIClient_init env) (load_context ticker)
                rid (catalog env) p e Hin Hr empty_acc w2) as (e' & w3 & ->).
    eauto.
Qed.

Lemma run_analysis_one_entry_per_prompt_witness :
  exists results s w',
    run_analysis (sample_env (Some "sk-test") (Ok example_reply)) "AAPL"
      initial_world
    = (Ok (results, s), w').
Proof.
  apply (proj1 (proj2 (run_analysis_one_entry_per_prompt
                         (sample_env (Some "sk-test") (Ok example_reply))
                         "AAPL" initial_world ltac:(discriminate)))).
  unfold run_ready. split; [reflexivity|]. split; [reflexivity|]. split.
  - intros p [<-|[]]. unfold prompt_ready.
    split; [eexists; reflexivity|]. split; [intros parsed e; discriminate|].
    split; [reflexivity|]. split; [reflexivity|]. simpl. lia.
  - intros n rendered content H. injection H as <-. right.
    exists (PDict [("score", PInt 85); ("rating", PStr "buy");
                   ("target_buy_price", PFloat (Fin (85 # 2)));
                   ("rationale", PStr "x")]),
           {| score := 85; rating := "BUY"; target_price := Fin (85 # 2);
              rationale := PStr "x" |}.
    split; [vm_compute; reflexivity|]. split; [reflexivity|].
    split; [vm_compute; reflexivity|].
    split; [|vm_compute; reflexivity].
    unfold storable. cbn [score rating rationale].
    split; [lia|]. split; vm_compute; reflexivity.
Defined.

(** A catalog with one valid prompt and a backend that answers with a score
    that is not a number: the run raises and returns no entry at all. *)
Lemma run_analysis_can_abort :
  fst (load_prompts (sample_env (Some "sk-test") (Ok (dq "{'score': 'high'}")))
         initial_world) = Ok [sample_prompt]
  /\ fst (run_analysis (sample_env (Some "sk-test") (Ok (dq "{'score': 'high'}")))
            "AAPL" initial_world)
     = Raise (ValueError "invalid literal for int() with base 10: 'high'").
Proof. split; vm_compute; reflexivity. Qed.

(* ------------------------------------------------------------------ *)
(** *** From raw text to outcome, and errors on the way *)

Lemma run_prompts_app (env : Env) (self : AIClient) (context : pyval)
    (run : string) (before rest : list Prompt) :
  forall acc w acc1 w1,
    run_prompts env self context run before acc w = (Ok acc1, w1) ->
    run_prompts env self context run (before ++ rest) acc w
    = run_prompts env self context run rest acc1 w1.
Proof.
  induction before as [|q qs IH]; intros acc w acc1 w1 H.
  - simpl in H. injection H as <- <-. reflexivity.
  - simpl in *.
    destruct (process_prompt env self context run q acc w) as [[a|e] w2] eqn:Hq.
    + rewrite (bind_ok _ _ _ _ _ Hq) in H. rewrite (bind_ok _ _ _ _ _ Hq).
      apply IH, H.
    + rewrite (bind_raise _ _ _ _ _ Hq) in H. discriminate.
Qed.

(** The page [index] renders for a request. *)
Lemma index_post (env : Env) (req : request) (w : world) :
  method req = POST -> form_ticker env req <> "" ->
  index env req w
  = match run_analysis env (form_ticker env req) w with
    | (Ok (results, s), w') =>
        (env_render_template env "index.html"
           (results_page (form_ticker env req) results s), w')
    | (Raise e, w') =>
        (env_render_template env "index.html"
           (error_page (form_ticker env req) e), w')
    end.
Proof.
  intros Hm Ht. unfold index. rewrite Hm. fold (form_ticker env req).
  apply String.eqb_neq in Ht. rewrite Ht.
  unfold bind at 1, try_except. unfold bind at 1.
  destruct (run_analysis env (form_ticker env req) w) as [[[results s]|e] w'];
    reflexivity.
Qed.

(** C2, as the code has it.  Resolving a raw reply raises nothing when
    there is no usable reply (the stub is used), nor when the reply parses
    to a non-empty JSON object whose score converts with [int] and whose
    target_buy_price converts with [float]; the rating conversion cannot
    fail.  When the reply parses to a non-empty JSON object whose score or
    target_buy_price does not convert, the error of the conversion is the
    result, with the state untouched; in a run it leaves [run_analysis],
    and [index] catches it and renders its message in place of results. *)
Theorem resolve_outcome_error_paths (env : Env) :
  (forall raw w,
     no_usable_reply env raw ->
     exists o text w', resolve_outcome env raw w = (Ok (o, Some text), w'))
  /\ (forall raw w d s t,
        parse_raw env raw = Ok (PDict d) -> d <> [] ->
        py_int (env_python env) (dict_get_default d "score" (PInt 0)) = Ok s ->
        py_float (env_python env) (dict_get_default d "target_buy_price" (PInt 0))
        = Ok t ->
        resolve_outcome env raw w
        = (Ok ({| score := s;
                  rating := upper (env_python env)
                              (py_str (env_python env)
                                 (dict_get_default d "rating" (PStr "")));
                  target_price := t;
                  rationale := dict_get_default d "rationale" (PStr "") |},
               raw), w))
  /\ (forall raw w d e,
        parse_raw env raw = Ok (PDict d) -> d <> [] ->
        py_int (env_python env) (dict_get_default d "score" (PInt 0)) = Raise e
        \/ ((exists s,
               py_int (env_python env) (dict_get_default d "score" (PInt 0)) = Ok s)
            /\ py_float (env_python env)
                 (dict_get_default d "target_buy_price" (PInt 0)) = Raise e) ->
        coerce_outcome env (PDict d) = Raise e
        /\ resolve_outcome env raw w = (Raise e, w))
  /\ (forall ticker w before p after rid w2 acc w3 d raw w4 e,
        catalog env = before ++ p :: after ->
        start_run env ticker (json_dumps (load_context ticker)) (after_load env w)
        = (Ok rid, w2) ->
        run_prompts env (AIClient_init env) (load_context ticker) rid before
          empty_acc w2 = (Ok acc, w3) ->
        generate env (AIClient_init env) p (load_context ticker) w3
        = (Ok (PDict d, raw), w4) ->
        coerce_outcome env (PDict d) = Raise e ->
        run_analysis env ticker w = (Raise e, w4)
        /\ forall req,
             method req = POST -> form_ticker env req = ticker -> ticker <> "" ->
             index env req w
             = (env_render_template env "index.html"
                  {| page_results := None; page_summary := None;
                     page_ticker := Some ticker;
                     page_error := Some (exn_str e) |}, w4)).
Proof.
  split; [|split; [|split]].
  - intros raw w Hn. apply no_usable_reply_falsy in Hn.
    destruct (resolve_stub env raw w Hn) as (sc & r & tp & w' & _ & Hr & _).
    eauto.
  - intros raw w d s t Hd Hne Hs Ht.
    rewrite (resolve_usable env raw (PDict d) w Hd)
      by (destruct d; [congruence|reflexivity]).
    rewrite coerce_outcome_dict, Hs, Ht. reflexivity.
  - intros raw w d e Hd Hne H.
    assert (Hc : coerce_outcome env (PDict d) = Raise e).
    { rewrite coerce_outcome_dict.
      destruct H as [Hs|[[s Hs] Ht]]; rewrite Hs; [reflexivity|].
      simpl. rewrite Ht. reflexivity. }
    split; [exact Hc|].
    rewrite (resolve_usable env raw (PDict d) w Hd)
      by (destruct d; [congruence|reflexivity]).
    rewrite Hc. reflexivity.
  - intros ticker w before p after rid w2 acc w3 d raw w4 e Hcat Hs Hb Hg Hc.
    assert (Hrun : run_analysis env ticker w = (Raise e, w4)).
    { rewrite run_analysis_unfold by (rewrite Hcat; destruct before; discriminate).
      rewrite Hs, Hcat, (run_prompts_app _ _ _ _ _ _ _ _ _ _ Hb).
      simpl run_prompts. unfold bind at 1.
      rewrite process_prompt_unfold, Hg, Hc. reflexivity. }
    split; [exact Hrun|].
    intros req Hm Ht Hne. subst ticker.
    rewrite (index_post env req w Hm Hne), Hrun. reflexivity.
Qed.

Lemma resolve_outcome_error_paths_witness :
  (exists o text w',
     resolve_outcome (sample_env None (Ok "")) None initial_world
     = (Ok (o, Some text), w'))
  /\ resolve_outcome (sample_env None (Ok ""))
       (Some (dq "{'score': '85', 'target_buy_price': 3}")) initial_world
     = (Ok ({| score := 85; rating := ""; target_price := Fin 3;
               rationale := PStr "" |},
            Some (dq "{'score': '85', 'target_buy_price': 3}")), initial_world)
  /\ resolve_outcome (sample_env None (Ok ""))
       (Some (dq "{'score': 1, 'target_buy_price': 'cheap'}")) initial_world
     = (Raise (ValueError "could not convert string to float: 'cheap'"),
        initial_world)
  /\ exists w',
       run_analysis (sample_env (Some "sk-test") (Ok (dq "{'score': 'high'}")))
         "AAPL" initial_world
       = (Raise (ValueError "invalid literal for int() with base 10: 'high'"), w')
       /\ index (sample_env (Some "sk-test") (Ok (dq "{'score': 'high'}")))
            {| method := POST; form := [("ticker", " aapl ")] |} initial_world
          = (Ok "index.html", w').
Proof.
  split; [|split; [|split]].
  - apply (proj1 (resolve_outcome_error_paths (sample_env None (Ok "")))).
    left. reflexivity.
  - apply (proj1 (proj2 (resolve_outcome_error_paths (sample_env None (Ok ""))))
             _ _ [("score", PStr "85"); ("target_buy_price", PInt 3)]);
      (vm_compute; reflexivity) || discriminate.
  - apply (proj1 (proj2 (proj2 (resolve_outcome_error_paths
                                  (sample_env None (Ok "")))))
             _ _ [("score", PInt 1); ("target_buy_price", PStr "cheap")]);
      [vm_compute; reflexivity|discriminate|].
    right. split; [exists 1; reflexivity|vm_compute; reflexivity].
  - eexists.
    pose proof (proj2 (proj2 (proj2 (resolve_outcome_error_paths
                  (sample_env (Some "sk-test") (Ok (dq "{'score': 'high'}"))))))
                  "AAPL" initial_world [] sample_prompt []) as H.
    edestruct H as [Hrun Hidx];
      [vm_compute; reflexivity|vm_compute; reflexivity|vm_compute; reflexivity
      |vm_compute; reflexivity|vm_compute; reflexivity|].
    split; [exact Hrun|].
    apply (Hidx {| method := POST; form := [("ticker", " aapl ")] |});
      [reflexivity|vm_compute; reflexivity|discriminate].
Defined.

(** Replies that parse and still raise: a score that is not a number, a
    price that is null.  The claim that no error leaves the resolution
    fails on each, and the error leaves the run. *)
Lemma resolve_outcome_can_raise :
  resolve_outcome (sample_env (Some "sk-test") (Ok ""))
    (Some (dq "{'score': 'high'}")) initial_world
  = (Raise (ValueError "invalid literal for int() with base 10: 'high'"),
     initial_world)
  /\ resolve_outcome (sample_env (Some "sk-test") (Ok ""))
       (Some (dq "{'score': 1, 'target_buy_price': null}")) initial_world
     = (Raise (TypeError "float() argument must be a string or a real number, not 'NoneType'"),
        initial_world)
  /\ fst (run_analysis (sample_env (Some "sk-test") (Ok (dq "{'score': 'high'}")))
            "AAPL" initial_world)
     = Raise (ValueError "invalid literal for int() with base 10: 'high'").
Proof. repeat split; vm_compute; reflexivity. Qed.

(* ################################################################## *)
(** * Further properties of the code *)

(* ------------------------------------------------------------------ *)
(** *** The vote does not depend on the order of the ratings *)

Lemma final_rating_strict_winner (ratings : list string) (r : string) :
  In r ratings ->
  (forall x, x <> r -> (occurrences ratings x < occurrences ratings r)%nat) ->
  final_rating ratings = Ok r.
Proof.
  intros Hin Hr.
  assert (Hne : ratings <> []) by (intros ->; contradiction).
  destruct (final_rating_cases ratings Hne)
    as [(r' & Hin' & Hr' & Hf)|(r1 & r2 & Hd & H1 & H2 & He & Hm & Hf)].
  - destruct (string_dec r' r) as [->|Hd]; [assumption|].
    pose proof (Hr _ Hd). pose proof (Hr' r (not_eq_sym Hd)). lia.
  - exfalso. destruct (string_dec r1 r) as [->|Hd1].
    + pose proof (Hr r2 (not_eq_sym Hd)). lia.
    + pose proof (Hr r1 Hd1). pose proof (Hm r). lia.
Qed.

Lemma final_rating_top_tie (ratings : list string) (r1 r2 : string) :
  r1 <> r2 -> In r1 ratings -> In r2 ratings ->
  occurrences ratings r1 = occurrences ratings r2 ->
  (forall x, (occurrences ratings x <= occurrences ratings r1)%nat) ->
  final_rating ratings = Ok "HOLD".
Proof.
  intros Hd H1 H2 He Hm.
  assert (Hne : ratings <> []) by (intros ->; contradiction).
  destruct (final_rating_cases ratings Hne)
    as [(r & Hin & Hr & Hf)|(_ & _ & _ & _ & _ & _ & _ & Hf)]; [|assumption].
  exfalso. destruct (string_dec r1 r) as [->|Hd1].
  - pose proof (Hr r2 (not_eq_sym Hd)). lia.
  - pose proof (Hr r1 Hd1). pose proof (Hm r). lia.
Qed.

Lemma occurrences_perm (l1 l2 : list string) (r : string) :
  Permutation l1 l2 -> occurrences l1 r = occurrences l2 r.
Proof.
  intros H. unfold occurrences.
  apply (proj1 (Permutation_count_occ string_dec l1 l2) H).
Qed.

(** X1.  The final rating depends only on how often each rating occurs:
    two sequences that are permutations of each other get the same final
    rating (or fail alike when empty). *)
Theorem final_rating_order_independent (l1 l2 : list string) :
  Permutation l1 l2 -> final_rating l1 = final_rating l2.
Proof.
  intros Hp. destruct l1 as [|x l1'].
  - apply Permutation_nil in Hp. subst. reflexivity.
  - assert (Hne : x :: l1' <> []) by discriminate.
    destruct (final_rating_cases _ Hne)
      as [(r & Hin & Hr & Hf)|(r1 & r2 & Hd & H1 & H2 & He & Hm & Hf)];
      rewrite Hf; symmetry.
    + apply final_rating_strict_winner.
      * eapply Permutation_in; eassumption.
      * intros y Hy. rewrite <- !(occurrences_perm _ _ _ Hp). auto.
    + apply final_rating_top_tie with (r1 := r1) (r2 := r2);
        try (eapply Permutation_in; eassumption); try assumption.
      * rewrite <- !(occurrences_perm _ _ _ Hp). assumption.
      * intros y. rewrite <- !(occurrences_perm _ _ _ Hp). auto.
Qed.

Lemma final_rating_order_independent_witness :
  final_rating ["SELL"; "BUY"; "BUY"] = final_rating ["BUY"; "SELL"; "BUY"].
Proof.
  apply final_rating_order_independent.
  apply perm_swap.
Defined.

(** X2.  The final rating of a non-empty sequence is one of its ratings or
    the literal HOLD, and it is never an error; on the empty sequence the
    vote itself fails with IndexError. *)
Theorem final_rating_is_a_vote_or_hold (ratings : list string) :
  (ratings <> [] ->
   exists r, final_rating ratings = Ok r /\ (In r ratings \/ r = "HOLD"))
  /\ (ratings = [] ->
      final_rating ratings = Raise (IndexError "list index out of range")).
Proof.
  split.
  - intros Hne. destruct (final_rating_cases _ Hne)
      as [(r & Hin & _ & Hf)|(r1 & r2 & _ & _ & _ & _ & _ & Hf)]; eauto.
  - intros ->. reflexivity.
Qed.

Lemma final_rating_is_a_vote_or_hold_witness :
  exists r, final_rating ["buy"; "Strong Buy"] = Ok r
            /\ (In r ["buy"; "Strong Buy"] \/ r = "HOLD").
Proof.
  apply (proj1 (final_rating_is_a_vote_or_hold ["buy"; "Strong Buy"])).
  discriminate.
Defined.

(* ------------------------------------------------------------------ *)
(** *** [Prompt.from_dict] *)

Lemma find_first {A} (f : A -> bool) (before : list A) (x : A) (after : list A) :
  (forall y, In y before -> f y = false) -> f x = true ->
  find f (before ++ x :: after) = Some x.
Proof.
  intros Hb Hx. induction before as [|y before IH]; simpl.
  - rewrite Hx. reflexivity.
  - rewrite (Hb y) by (left; reflexivity). apply IH.
    intros z Hz. apply Hb. right. assumption.
Qed.

Lemma dict_mem_get (d : pydict) (k : string) :
  dict_mem d k = true -> exists v, dict_get d k = Some v.
Proof.
  unfold dict_mem. destruct (dict_get d k); [eauto|discriminate].
Qed.

(** X3.  [Prompt.from_dict] succeeds exactly when the four required keys
    are present and the version converts with [int]; the prompt then holds
    [str] of the identifier, name and template, [int] of the version and
    the schema entry or None.  When keys are missing the ValueError names
    the first missing one in the order prompt_id, name, version, template;
    when only the version fails to convert, that conversion error is the
    result. *)
Theorem from_dict_spec (env : Env) (d : pydict) :
  (forall p,
     from_dict env d = Ok p <->
     exists pid nm v tv,
       dict_get d "prompt_id" = Some pid /\ dict_get d "name" = Some nm
       /\ dict_get d "version" = Some v /\ dict_get d "template" = Some tv
       /\ py_int (env_python env) v = Ok (version p)
       /\ p = {| prompt_id := py_str (env_python env) pid; name := py_str (env_python env) nm;
                 version := version p; template := py_str (env_python env) tv;
                 schema := dict_get_default d "schema" PNone |})
  /\ (forall before key after,
        required = before ++ key :: after ->
        (forall k, In k before -> dict_mem d k = true) ->
        dict_mem d key = false ->
        from_dict env d
        = Raise (ValueError ("Missing required key '" ++ key
                               ++ "' in prompt definition")))
  /\ (forall v e,
        (forall k, In k required -> dict_mem d k = true) ->
        dict_get d "version" = Some v -> py_int (env_python env) v = Raise e ->
        from_dict env d = Raise e).
Proof.
  split; [|split].
  - intros p. split.
    + intros H. unfold from_dict in H.
      destruct (find (fun key => negb (dict_mem d key)) required) eqn:E;
        [discriminate|].
      pose proof (find_none _ _ E) as Hall. simpl in Hall.
      assert (Hk : forall k, In k required -> exists v, dict_get d k = Some v).
      { intros k Hin. apply dict_mem_get. specialize (Hall k Hin).
        destruct (dict_mem d k); [reflexivity|discriminate]. }
      destruct (Hk "prompt_id") as [pid Hpid]; [simpl; auto|].
      destruct (Hk "name") as [nm Hnm]; [simpl; auto|].
      destruct (Hk "version") as [v Hv]; [simpl; auto|].
      destruct (Hk "template") as [tv Htv]; [simpl; auto 6|].
      unfold dict_item in H. rewrite Hpid, Hnm, Hv, Htv in H. simpl in H.
      destruct (py_int (env_python env) v) as [ver|] eqn:Hi; [|discriminate].
      simpl in H. injection H as <-. exists pid, nm, v, tv. simpl. auto 10.
    + intros (pid & nm & v & tv & H1 & H2 & H3 & H4 & H5 & Hp).
      rewrite Hp. apply (from_dict_ok env d pid nm v tv (version p)); assumption.
  - intros before key after Hreq Hb Hk. unfold from_dict. rewrite Hreq.
    rewrite (find_first _ before key after).
    + reflexivity.
    + intros y Hy. rewrite (Hb y Hy). reflexivity.
    + rewrite Hk. reflexivity.
  - intros v e Hall Hv Hi. unfold from_dict.
    destruct (find (fun key => negb (dict_mem d key)) required) as [k|] eqn:E.
    + apply find_some in E. destruct E as [Hin Hf].
      rewrite (Hall k Hin) in Hf. discriminate.
    + destruct (dict_mem_get d "prompt_id") as [pid Hpid]; [apply Hall; simpl; auto|].
      destruct (dict_mem_get d "name") as [nm Hnm]; [apply Hall; simpl; auto|].
      unfold dict_item. rewrite Hpid, Hnm, Hv. simpl. rewrite Hi. reflexivity.
Qed.

Lemma from_dict_spec_witness :
  from_dict (sample_env None (Ok "")) [("prompt_id", PStr "p"); ("template", PStr "t")]
  = Raise (ValueError "Missing required key 'name' in prompt definition")
  /\ from_dict (sample_env None (Ok "")) [("prompt_id", PInt 7); ("name", PStr "n");
                ("version", PStr "x"); ("template", PStr "t")]
     = Raise (ValueError "invalid literal for int() with base 10: 'x'").
Proof.
  split.
  - apply (proj1 (proj2 (from_dict_spec (sample_env None (Ok ""))
                           [("prompt_id", PStr "p"); ("template", PStr "t")]))
             ["prompt_id"] "name" ["version"; "template"]).
    + reflexivity.
    + intros k [<-|[]]. reflexivity.
    + reflexivity.
  - apply (proj2 (proj2 (from_dict_spec (sample_env None (Ok ""))
                           [("prompt_id", PInt 7); ("name", PStr "n");
                            ("version", PStr "x"); ("template", PStr "t")]))
             (PStr "x")).
    + intros k [<-|[<-|[<-|[<-|[]]]]]; reflexivity.
    + reflexivity.
    + reflexivity.
Defined.

(* ------------------------------------------------------------------ *)
(** *** Template files *)

(** X4.  For a file that holds a mapping: a template_file that is absent,
    null or empty is ignored and the mapping is used as it is; a
    template_file naming a readable file supplies the template even when
    the mapping has no template key; a template_file naming a file that
    cannot be read fails the entry with the error of the read; and a
    template_file that is a non-empty value other than a string fails the
    entry with a TypeError. *)
Theorem template_file_variants (env : Env) (n : string) (f : file) (d : pydict) :
  file_yaml f = Ok (PDict d) ->
  (py_truthy (dict_get_default d "template_file" PNone) = false ->
   load_file env n f = from_dict env d)
  /\ (forall tf t text pid nm v ver,
        dict_get d "template_file" = Some (PStr tf) -> tf <> "" ->
        assoc tf (env_prompts_dir env) = Some t -> file_text t = Ok text ->
        dict_get d "template" = None ->
        dict_get d "prompt_id" = Some pid -> dict_get d "name" = Some nm ->
        dict_get d "version" = Some v -> py_int (env_python env) v = Ok ver ->
        load_file env n f
        = Ok {| prompt_id := py_str (env_python env) pid;
                name := py_str (env_python env) nm; version := ver;
                template := text;
                schema := dict_get_default d "schema" PNone |})
  /\ (forall tf t e,
        dict_get d "template_file" = Some (PStr tf) -> tf <> "" ->
        assoc tf (env_prompts_dir env) = Some t -> file_text t = Raise e ->
        load_file env n f = Raise e)
  /\ (forall v,
        dict_get d "template_file" = Some v -> py_truthy v = true ->
        (forall s, v <> PStr s) ->
        load_file env n f
        = Raise (TypeError ("unsupported operand type(s) for /: 'PosixPath' and '"
                              ++ type_name v ++ "'"))).
Proof.
  intros Hy. unfold load_file. rewrite Hy. simpl rbind.
  split; [|split; [|split]].
  - intros Hf. rewrite Hf. reflexivity.
  - intros tf t text pid nm v ver Htf Hne Ha Ht Hnone H1 H2 H3 H4.
    rewrite (dict_get_default_present _ _ _ _ Htf). simpl py_truthy.
    destruct (String.eqb tf "") eqn:E; [apply String.eqb_eq in E; contradiction|].
    simpl. rewrite Ha, Ht. simpl.
    rewrite (from_dict_ok env _ pid nm v (PStr text) ver);
      try (rewrite dict_get_set_other by discriminate; assumption);
      try assumption; try apply dict_get_set_same.
    unfold dict_get_default. rewrite dict_get_set_other by discriminate.
    reflexivity.
  - intros tf t e Htf Hne Ha Ht.
    rewrite (dict_get_default_present _ _ _ _ Htf). simpl py_truthy.
    destruct (String.eqb tf "") eqn:E; [apply String.eqb_eq in E; contradiction|].
    simpl. rewrite Ha, Ht. reflexivity.
  - intros v Hv Htr Hns.
    rewrite (dict_get_default_present _ _ _ _ Hv), Htr.
    destruct v; try reflexivity. exfalso. apply (Hns s). reflexivity.
Qed.

Lemma template_file_variants_witness :
  load_file both_templates_env "solo.yml"
    (yaml_file (PDict [("prompt_id", PStr "solo"); ("name", PStr "Solo");
                       ("version", PInt 3); ("template_file", PStr "risk.txt")]))
  = Ok {| prompt_id := "solo"; name := "Solo"; version := 3;
          template := "text of the file"; schema := PNone |}.
Proof.
  apply (proj1 (proj2 (template_file_variants both_templates_env "solo.yml"
                         (yaml_file (PDict [("prompt_id", PStr "solo");
                                            ("name", PStr "Solo");
                                            ("version", PInt 3);
                                            ("template_file", PStr "risk.txt")]))
                         _ eq_refl))
           "risk.txt" (text_file "text of the file") "text of the file"
           (PStr "solo") (PStr "Solo") (PInt 3) 3);
    (reflexivity || discriminate).
Defined.

(* ------------------------------------------------------------------ *)
(** *** The order in which prompt files are visited *)

Lemma ascii_compare_lt_trans (a b c : ascii) :
  Ascii.compare a b = Lt -> Ascii.compare b c = Lt -> Ascii.compare a c = Lt.
Proof.
  unfold Ascii.compare. rewrite !N.compare_lt_iff. apply N.lt_trans.
Qed.

Lemma ascii_compare_eq (a b : ascii) : Ascii.compare a b = Eq -> a = b.
Proof.
  unfold Ascii.compare. intros H. apply N.compare_eq in H.
  rewrite <- (ascii_N_embedding a), <- (ascii_N_embedding b), H. reflexivity.
Qed.

Lemma ascii_compare_refl (a : ascii) : Ascii.compare a a = Eq.
Proof. unfold Ascii.compare. apply N.compare_refl. Qed.

Lemma string_compare_trans (c : comparison) (s1 : string) :
  forall s2 s3,
    String.compare s1 s2 = c -> String.compare s2 s3 = c ->
    String.compare s1 s3 = c.
Proof.
  induction s1 as [|a s1 IH]; intros [|b s2] [|d s3]; simpl; try congruence.
  intros H1 H2.
  destruct (Ascii.compare a b) eqn:E1; destruct (Ascii.compare b d) eqn:E2.
  - apply ascii_compare_eq in E1, E2. subst b d. rewrite ascii_compare_refl.
    eapply IH; eassumption.
  - apply ascii_compare_eq in E1. subst b. rewrite E2. exact H2.
  - apply ascii_compare_eq in E1. subst b. rewrite E2. exact H2.
  - apply ascii_compare_eq in E2. subst d. rewrite E1. exact H1.
  - rewrite (ascii_compare_lt_trans _ _ _ E1 E2). exact H1.
  - congruence.
  - apply ascii_compare_eq in E2. subst d. rewrite E1. exact H1.
  - congruence.
  - assert (H : Ascii.compare d a = Lt).
    { apply (ascii_compare_lt_trans d b a).
      - unfold Ascii.compare in *. rewrite N.compare_antisym, E2. reflexivity.
      - unfold Ascii.compare in *. rewrite N.compare_antisym, E1. reflexivity. }
    unfold Ascii.compare in *. rewrite N.compare_antisym, H. exact H1.
Qed.

Lemma string_leb_trans (s1 s2 s3 : string) :
  String.leb s1 s2 = true -> String.leb s2 s3 = true -> String.leb s1 s3 = true.
Proof.
  unfold String.leb. intros H1 H2.
  destruct (String.compare s1 s2) eqn:E1; try discriminate;
    destruct (String.compare s2 s3) eqn:E2; try discriminate.
  - rewrite (string_compare_trans Eq _ _ _ E1 E2). reflexivity.
  - apply String.compare_eq_iff in E1. subst. rewrite E2. reflexivity.
  - apply String.compare_eq_iff in E2. subst. rewrite E1. reflexivity.
  - rewrite (string_compare_trans Lt _ _ _ E1 E2). reflexivity.
Qed.

Lemma insert_by_name_sorted (x : string * file) (l : list (string * file)) :
  StronglySorted name_le l -> StronglySorted name_le (insert_by_name x l).
Proof.
  induction l as [|y l IH]; simpl; intros Hs.
  - repeat constructor.
  - inversion Hs; subst. destruct (String.leb (fst x) (fst y)) eqn:E.
    + constructor; [assumption|]. constructor; [exact E|].
      eapply Forall_impl; [|eassumption]. unfold name_le. intros z Hz.
      eapply string_leb_trans; eassumption.
    + constructor; [auto|].
      eapply Permutation_Forall; [symmetry; apply insert_by_name_perm|].
      constructor; [|assumption]. unfold name_le.
      destruct (String.leb_total (fst x) (fst y)); congruence.
Qed.

Lemma sort_by_name_spec (l : list (string * file)) :
  Permutation (fold_right insert_by_name [] l) l
  /\ StronglySorted name_le (fold_right insert_by_name [] l).
Proof.
  induction l as [|x l [IHp IHs]]; simpl.
  - split; constructor.
  - split; [rewrite insert_by_name_perm; constructor; assumption|].
    apply insert_by_name_sorted. assumption.
Qed.

Lemma in_same_name (l : list (string * file)) (x y : string * file) :
  NoDup (map fst l) -> In x l -> In y l -> fst x = fst y -> x = y.
Proof.
  induction l as [|z l IH]; simpl; intros Hnd Hx Hy He; [contradiction|].
  inversion Hnd; subst.
  destruct Hx as [->|Hx]; destruct Hy as [->|Hy]; auto.
  - exfalso. apply H1. rewrite He. apply in_map. assumption.
  - exfalso. apply H1. rewrite <- He. apply in_map. assumption.
Qed.

Lemma sorted_perm_unique (l1 : list (string * file)) :
  forall l2,
    NoDup (map fst l1) -> Permutation l1 l2 ->
    StronglySorted name_le l1 -> StronglySorted name_le l2 -> l1 = l2.
Proof.
  induction l1 as [|x l1 IH]; intros l2 Hnd Hp Hs1 Hs2.
  - apply Permutation_nil in Hp. auto.
  - destruct l2 as [|y l2]; [symmetry in Hp; apply Permutation_nil in Hp; discriminate|].
    inversion Hs1; subst. inversion Hs2; subst.
    assert (Hxy : x = y).
    { assert (Hx : In x (y :: l2)) by (eapply Permutation_in; [exact Hp|left; reflexivity]).
      assert (Hy : In y (x :: l1))
        by (eapply Permutation_in; [symmetry; exact Hp|left; reflexivity]).
      apply (in_same_name (x :: l1)); [assumption|left; reflexivity|assumption|].
      destruct Hx as [->|Hx]; [reflexivity|].
      destruct Hy as [->|Hy]; [reflexivity|].
      apply String.leb_antisym.
      - rewrite Forall_forall in H2. apply (H2 _ Hy).
      - rewrite Forall_forall in H4. apply (H4 _ Hx). }
    subst y. f_equal. apply IH; try assumption.
    + inversion Hnd; assumption.
    + eapply Permutation_cons_inv. exact Hp.
Qed.

Lemma filter_perm {A} (f : A -> bool) (l1 l2 : list A) :
  Permutation l1 l2 -> Permutation (filter f l1) (filter f l2).
Proof.
  induction 1; simpl.
  - constructor.
  - destruct (f x); [constructor|]; assumption.
  - destruct (f x); destruct (f y); try reflexivity; try apply perm_swap.
  - etransitivity; eassumption.
Qed.

Lemma NoDup_names_filter (f : string * file -> bool) (l : list (string * file)) :
  NoDup (map fst l) -> NoDup (map fst (filter f l)).
Proof.
  induction l as [|x l IH]; simpl; intros Hnd; [constructor|].
  inversion Hnd; subst. destruct (f x); simpl; [|auto].
  constructor; [|auto]. intros Hin. apply H1.
  apply in_map_iff in Hin. destruct Hin as (y & Hy & Hin).
  apply filter_In in Hin. rewrite <- Hy. apply in_map. tauto.
Qed.

Lemma sorted_glob_perm_invariant (env : Env) (dir : list (string * file))
    (suffix : string) :
  NoDup (map fst (env_prompts_dir env)) ->
  Permutation dir (env_prompts_dir env) ->
  sorted_glob (with_dir env dir) suffix = sorted_glob env suffix.
Proof.
  intros Hnd Hp. unfold sorted_glob. simpl env_prompts_dir.
  set (f := fun '(n, _) => endswith n suffix && negb (contains_char "/" n)).
  destruct (sort_by_name_spec (filter f dir)) as [P1 S1].
  destruct (sort_by_name_spec (filter f (env_prompts_dir env))) as [P2 S2].
  apply sorted_perm_unique; try assumption.
  - eapply Permutation_NoDup.
    + apply Permutation_map. symmetry. etransitivity; [exact P1|].
      apply filter_perm. exact Hp.
    + apply NoDup_names_filter. exact Hnd.
  - etransitivity; [exact P1|]. etransitivity; [|symmetry; exact P2].
    apply filter_perm. exact Hp.
Qed.

Lemma assoc_in (l : list (string * file)) (k : string) (v : file) :
  NoDup (map fst l) -> In (k, v) l -> assoc k l = Some v.
Proof.
  induction l as [|[k' v'] l IH]; simpl; intros Hnd Hin; [contradiction|].
  inversion Hnd; subst. destruct Hin as [Heq|Hin].
  - inversion Heq; subst. rewrite String.eqb_refl. reflexivity.
  - destruct (String.eqb k' k) eqn:E; [|auto].
    apply String.eqb_eq in E. subst. exfalso. apply H1.
    change k with (fst (k, v)). apply in_map. assumption.
Qed.

Lemma assoc_none (l : list (string * file)) (k : string) :
  ~ In k (map fst l) -> assoc k l = None.
Proof.
  induction l as [|[k' v'] l IH]; simpl; intros Hn; [reflexivity|].
  destruct (String.eqb k' k) eqn:E.
  - apply String.eqb_eq in E. subst. exfalso. auto.
  - apply IH. intros H. apply Hn. auto.
Qed.

Lemma assoc_some_in (l : list (string * file)) (k : string) (v : file) :
  assoc k l = Some v -> In (k, v) l.
Proof.
  induction l as [|[k' v'] l IH]; simpl; [discriminate|].
  destruct (String.eqb k' k) eqn:E.
  - apply String.eqb_eq in E. subst. intros H; injection H as <-. auto.
  - auto.
Qed.

Lemma assoc_perm_invariant (l1 l2 : list (string * file)) (k : string) :
  NoDup (map fst l2) -> Permutation l1 l2 -> assoc k l1 = assoc k l2.
Proof.
  intros Hnd Hp.
  assert (Hnd1 : NoDup (map fst l1)).
  { eapply Permutation_NoDup; [apply Permutation_map; symmetry; exact Hp|exact Hnd]. }
  destruct (assoc k l2) as [v|] eqn:E.
  - apply assoc_in; [assumption|].
    eapply Permutation_in; [symmetry; exact Hp|]. apply assoc_some_in. assumption.
  - destruct (assoc k l1) as [v|] eqn:E1; [|reflexivity].
    apply assoc_some_in in E1.
    rewrite (assoc_in l2 k v Hnd) in E; [discriminate|].
    eapply Permutation_in; eassumption.
Qed.

(** X5.  The catalog does not depend on the order in which the operating
    system lists the prompts directory: with distinct file names, any
    relisting of the same entries gives the same visited files, in the same
    order, and the same loaded prompts.  The visited files are the names
    ending in .yml sorted by name, followed by those ending in .yaml sorted
    by name. *)
Theorem catalog_independent_of_listing_order (env : Env)
    (dir : list (string * file)) :
  NoDup (map fst (env_prompts_dir env)) ->
  Permutation dir (env_prompts_dir env) ->
  candidates (with_dir env dir) = candidates env
  /\ catalog (with_dir env dir) = catalog env
  /\ StronglySorted name_le (sorted_glob env ".yml")
  /\ StronglySorted name_le (sorted_glob env ".yaml")
  /\ (forall suffix n f,
        In (n, f) (sorted_glob env suffix) <->
        In (n, f) (env_prompts_dir env)
        /\ endswith n suffix = true /\ contains_char "/" n = false)
  /\ (forall n f,
        In (n, f) (candidates env) <->
        In (n, f) (env_prompts_dir env) /\ prompt_file_name n = true).
Proof.
  intros Hnd Hp.
  assert (Hc : candidates (with_dir env dir) = candidates env).
  { unfold candidates. rewrite !sorted_glob_perm_invariant by assumption.
    reflexivity. }
  split; [exact Hc|]. split; [|split; [|split; [|split]]].
  - unfold catalog. simpl env_prompts_exists. rewrite Hc.
    destruct (env_prompts_exists env); [|reflexivity].
    unfold loaded_of. apply flat_map_ext. intros [n f].
    replace (load_file (with_dir env dir) n f) with (load_file env n f); [reflexivity|].
    unfold load_file. destruct (file_yaml f) as [[| | | | | |d]|]; try reflexivity.
    cbn [rbind]. destruct (py_truthy (dict_get_default d "template_file" PNone));
      [|reflexivity].
    destruct (dict_get_default d "template_file" PNone); try reflexivity.
    cbn [env_prompts_dir with_dir].
    rewrite (assoc_perm_invariant dir (env_prompts_dir env) s Hnd Hp). reflexivity.
  - apply sort_by_name_spec.
  - apply sort_by_name_spec.
  - intros suffix n f. unfold sorted_glob.
    destruct (sort_by_name_spec
                (filter (fun '(n, _) => endswith n suffix && negb (contains_char "/" n))
                        (env_prompts_dir env))) as [P _].
    split.
    + intros Hin. apply (Permutation_in _ P) in Hin.
      apply filter_In in Hin. destruct Hin as [Hin Hf].
      apply andb_true_iff in Hf. destruct Hf as [H1 H2].
      apply negb_true_iff in H2. auto.
    + intros (Hin & H1 & H2). apply (Permutation_in _ (Permutation_sym P)).
      apply filter_In. split; [assumption|]. rewrite H1, H2. reflexivity.
  - intros n f. pose proof (candidates_perm env) as P. split.
    + intros Hin. apply (Permutation_in _ P) in Hin.
      apply filter_In in Hin. exact Hin.
    + intros Hin. apply (Permutation_in _ (Permutation_sym P)).
      apply filter_In. exact Hin.
Qed.

Lemma catalog_independent_of_listing_order_witness :
  catalog (with_dir (env_with mixed_dir None (Ok "")) (rev mixed_dir))
  = catalog (env_with mixed_dir None (Ok ""))
  /\ In ("a.yaml", yaml_file (prompt_yaml "a"))
        (candidates (env_with mixed_dir None (Ok "")))
  /\ In ("b.yml", yaml_file (prompt_yaml "b"))
        (candidates (env_with mixed_dir None (Ok ""))).
Proof.
  destruct (catalog_independent_of_listing_order (env_with mixed_dir None (Ok ""))
              (rev mixed_dir))
    as (_ & Hc & _ & _ & _ & Hin).
  - simpl. repeat constructor; simpl; intuition discriminate.
  - symmetry. apply Permutation_rev.
  - split; [exact Hc|].
    split; apply Hin; (split; [simpl; tauto|reflexivity]).
Defined.

(* ------------------------------------------------------------------ *)
(* ------------------------------------------------------------------ *)
(** *** What [generate] returns *)

Lemma parse_raw_truthy (env : Env) (raw : option string) (v : pyval) :
  parse_raw env raw = Ok v -> py_truthy v = true ->
  exists text,
    raw = Some text /\ text <> "" /\ json_loads (env_python env) text = Ok v.
Proof.
  unfold parse_raw. destruct raw as [t|].
  2:{ intros H. injection H as <-. discriminate. }
  destruct (String.eqb t "") eqn:E; simpl.
  { intros H. injection H as <-. discriminate. }
  destruct (json_loads (env_python env) t) as [x|e] eqn:Hl.
  - intros H _. injection H as <-. exists t. split; [reflexivity|].
    split; [|exact Hl]. intros ->. discriminate.
  - destruct e; try discriminate. intros H. injection H as <-. discriminate.
Qed.

Lemma parse_or_stub_result (env : Env) (raw0 : option string) (w : world)
    (parsed : pyval) (raw : option string) (w' : world) :
  parse_or_stub env raw0 w = (Ok (parsed, raw), w') ->
  py_truthy parsed = true
  /\ exists text,
       raw = Some text /\ text <> ""
       /\ ((raw0 = Some text /\ json_loads (env_python env) text = Ok parsed)
           \/ (text = json_dumps parsed
               /\ exists sc r tp,
                    parsed = stub_dict sc r tp
                    /\ 1 <= sc <= 100 /\ threshold_rating sc r)).
Proof.
  intros H.
  destruct (parse_or_stub_cases env raw0 w)
    as [(e & _ & Hp)|[(v & Hv & Ht & Hp)|(v & sc & r & tp & w1 & _ & _ & Hp & Hsc & Hr & _)]];
    rewrite Hp in H; [discriminate| |].
  - injection H as <- <- <-. split; [exact Ht|].
    destruct (parse_raw_truthy env raw0 v Hv Ht) as (text & -> & Hne & Hl).
    exists text. auto.
  - injection H as <- <- <-.
    split; [reflexivity|]. eexists. split; [reflexivity|]. split; [discriminate|].
    right. split; [reflexivity|]. exists sc, r, tp. auto.
Qed.

(** X6.  Whatever [generate] returns is usable and documented: the parsed
    data is never empty, the raw text is never none nor empty, and either
    the raw text is the reply of the model and parses to exactly the parsed
    data, or the parsed data is a stub within its ranges and the raw text is
    its JSON form. *)
Theorem generate_returns_matching_raw_text (env : Env) (self : AIClient)
    (p : Prompt) (context : pyval) (w : world)
    (parsed : pyval) (raw : option string) (w' : world) :
  generate env self p context w = (Ok (parsed, raw), w') ->
  py_truthy parsed = true
  /\ exists text,
       raw = Some text /\ text <> ""
       /\ (json_loads (env_python env) text = Ok parsed
           \/ (text = json_dumps parsed
               /\ exists sc r tp,
                    parsed = stub_dict sc r tp
                    /\ 1 <= sc <= 100 /\ threshold_rating sc r)).
Proof.
  unfold generate. intros H.
  apply bind_inv_ok in H. destruct H as (rendered & w0 & _ & H).
  apply bind_inv_ok in H. destruct H as (raw0 & w1 & _ & H).
  apply bind_inv_ok in H. destruct H as ([parsed1 raw1] & w2 & Hp & H).
  apply bind_inv_ok in H. destruct H as ([] & w3 & _ & H).
  unfold ret in H. injection H as <- <- <-.
  destruct (parse_or_stub_result env raw0 w1 parsed1 raw1 w2 Hp)
    as (Ht & text & Hr & Hne & Hcase).
  split; [exact Ht|]. exists text. split; [exact Hr|]. split; [exact Hne|].
  destruct Hcase as [[_ Hl]|Hs]; auto.
Qed.

Lemma generate_returns_matching_raw_text_witness :
  py_truthy (PDict [("score", PInt 85)]) = true
  /\ exists text,
       Some (dq "{'score': 85}") = Some text /\ text <> ""
       /\ (json_loads sample_python text = Ok (PDict [("score", PInt 85)])
           \/ (text = json_dumps (PDict [("score", PInt 85)])
               /\ exists sc r tp,
                    PDict [("score", PInt 85)] = stub_dict sc r tp
                    /\ 1 <= sc <= 100 /\ threshold_rating sc r)).
Proof.
  apply (generate_returns_matching_raw_text
           (sample_env (Some "sk-test") (Ok (dq "  {'score': 85} ")))
           (AIClient_init (sample_env (Some "sk-test") (Ok (dq "  {'score': 85} "))))
           sample_prompt (load_context "AAPL") initial_world
           (PDict [("score", PInt 85)]) (Some (dq "{'score': 85}"))
           {| db := empty_db;
              trace := [EvRender "Assess {{ context }}";
                        EvChat "Assess {{ context }}"];
              chat_used := 1; random_used := 0; uuid_used := 0;
              clock_used := 0 |}).
  vm_compute. reflexivity.
Defined.

(* ------------------------------------------------------------------ *)
(** *** The page handler *)

(** X8.  [index] renders the page template exactly once, as its last
    step, and returns or raises what that rendering does; nothing else of
    it raises.  A GET (or HEAD) renders the blank page and changes
    nothing.  A POST whose ticker is blank after stripping, Unicode white
    space included, renders the request for a ticker and does not start a
    run.  Any other POST runs the analysis on the stripped, upper-cased
    ticker and renders either its results and summary without error, or no
    results and the text of the exception; with an empty catalog that text
    is the message of [run_analysis]. *)
Theorem index_renders_page (env : Env) (req : request) (w : world) :
  exists vars w',
    index env req w = (env_render_template env "index.html" vars, w')
    /\ (method req <> POST -> vars = blank_page /\ w' = w)
    /\ (method req = POST ->
        page_ticker vars = Some (form_ticker env req)
        /\ (form_ticker env req = "" ->
            page_error vars = Some "Please enter a stock ticker."
            /\ page_results vars = None /\ page_summary vars = None /\ w' = w)
        /\ (form_ticker env req <> "" ->
            w' = snd (run_analysis env (form_ticker env req) w)
            /\ (forall results s,
                  fst (run_analysis env (form_ticker env req) w) = Ok (results, s) ->
                  vars = results_page (form_ticker env req) results s)
            /\ (forall e,
                  fst (run_analysis env (form_ticker env req) w) = Raise e ->
                  vars = error_page (form_ticker env req) e)
            /\ (catalog env = [] ->
                page_error vars
                = Some "No prompt definitions found in the prompts directory."))).
Proof.
  destruct (method req) eqn:Hm.
  - exists blank_page, w. unfold index. rewrite Hm.
    split; [reflexivity|]. split; [auto|discriminate].
  - exists blank_page, w. unfold index. rewrite Hm.
    split; [reflexivity|]. split; [auto|discriminate].
  - destruct (String.eqb (form_ticker env req) "") eqn:E.
    + apply String.eqb_eq in E. eexists _, w. split.
      { unfold index. rewrite Hm. fold (form_ticker env req). rewrite E.
        reflexivity. }
      split; [intros H; congruence|]. intros _. simpl.
      split; [rewrite E; reflexivity|].
      split; [auto|]. intros H. contradiction.
    + assert (Hne : form_ticker env req <> "").
      { intros H. rewrite H in E. discriminate. }
      rewrite (index_post env req w Hm Hne).
      pose proof (run_analysis_empty env (form_ticker env req) w) as Hempty.
      destruct (run_analysis env (form_ticker env req) w) as [[[results s]|e] w1].
      * eexists _, w1. split; [reflexivity|]. split; [intros H; congruence|].
        intros _. simpl. split; [reflexivity|]. split; [contradiction|].
        intros _. split; [reflexivity|]. split.
        { intros r s' H. injection H as <- <-. reflexivity. }
        split; [discriminate|]. intros Hc. specialize (Hempty Hc). discriminate.
      * eexists _, w1. split; [reflexivity|]. split; [intros H; congruence|].
        intros _. simpl. split; [reflexivity|]. split; [contradiction|].
        intros _. split; [reflexivity|]. split; [discriminate|]. split.
        { intros e' H. injection H as <-. reflexivity. }
        intros Hc. specialize (Hempty Hc). injection Hempty as -> _. reflexivity.
Qed.

Lemma index_renders_page_witness :
  exists vars w',
    index (sample_env None (Ok ""))
      {| method := POST;
         form := [("ticker", String (chr 194) (String (chr 160) "  "))] |}
      initial_world
    = (Ok "index.html", w')
    /\ page_error vars = Some "Please enter a stock ticker."
    /\ w' = initial_world.
Proof.
  destruct (index_renders_page (sample_env None (Ok ""))
              {| method := POST;
                 form := [("ticker", String (chr 194) (String (chr 160) "  "))] |}
              initial_world)
    as (vars & w' & Hi & _ & Hpost).
  exists vars, w'. split; [exact Hi|].
  destruct (Hpost eq_refl) as (_ & Hblank & _).
  destruct (Hblank eq_refl) as (He & _ & _ & Hw). auto.
Defined.

(* ------------------------------------------------------------------ *)
(** *** Invariants of the database *)

Section Keeps.

Variable P : database -> Prop.

Lemma keeps_ret {A} (a : A) : keeps P (ret a).
Proof. intros w r w' H. injection H as <- <-. auto. Qed.

Lemma keeps_raise {A} (e : exn) : keeps P (@raise A e).
Proof. intros w r w' H. injection H as <- <-. auto. Qed.

Lemma keeps_lift {A} (x : result A) : keeps P (lift x).
Proof. intros w r w' H. injection H as <- <-. auto. Qed.

Lemma keeps_bind {A B} (m : M A) (k : A -> M B) :
  keeps P m -> (forall a, keeps P (k a)) -> keeps P (bind m k).
Proof.
  intros Hm Hk w r w' H Hw. unfold bind in H.
  destruct (m w) as [[a|e] w1] eqn:E.
  - eapply Hk; [exact H|]. eapply Hm; eassumption.
  - injection H as <- <-. eapply Hm; eassumption.
Qed.

Lemma keeps_try_except {A} (m : M A) (h : exn -> M A) :
  keeps P m -> (forall e, keeps P (h e)) -> keeps P (try_except m h).
Proof.
  intros Hm Hh w r w' H Hw. unfold try_except in H.
  destruct (m w) as [[a|e] w1] eqn:E.
  - injection H as <- <-. eapply Hm; eassumption.
  - eapply Hh; [exact H|]. eapply Hm; eassumption.
Qed.

Lemma keeps_same_db {A} (m : M A) :
  (forall w r w', m w = (r, w') -> db w' = db w) -> keeps P m.
Proof. intros H w r w' Hm Hw. rewrite (H _ _ _ Hm). exact Hw. Qed.

Lemma keeps_execute (stmt : database -> result database) (e : event) :
  (forall d d', stmt d = Ok d' -> P d -> P d') -> keeps P (execute stmt e).
Proof.
  intros Hs w r w' H Hw. unfold execute in H.
  destruct (stmt (db w)) as [d|x] eqn:E; injection H as <- <-.
  - simpl. eapply Hs; eassumption.
  - exact Hw.
Qed.

End Keeps.

Lemma insert_run_wf (rid ticker cj now : string) (d d' : database) :
  insert_run rid ticker cj now d = Ok d' -> db_wf d -> db_wf d'.
Proof.
  unfold insert_run.
  destruct (sqlite_str ticker) as [t|]; [|discriminate].
  destruct (sqlite_str cj) as [c|]; [|discriminate]. cbn [rbind].
  destruct (existsb _ (runs d)) eqn:E; [discriminate|].
  intros H (H1 & H2 & H3). injection H as <-. repeat split; simpl; try assumption.
  rewrite map_app. simpl. apply NoDup_app; [assumption|repeat constructor; intros []|].
  intros x Hx [<-|[]]. apply in_map_iff in Hx. destruct Hx as (r & Hr & Hin).
  assert (Hex : existsb (fun r0 => String.eqb (run_id r0) rid) (runs d) = true).
  { apply existsb_exists. exists r. split; [assumption|]. rewrite Hr. apply String.eqb_refl. }
  congruence.
Qed.

Lemma update_run_wf (rid now : string) (a : pyfloat) (r : string) (t : pyfloat)
    (d d' : database) :
  update_run rid now a r t d = Ok d' -> db_wf d -> db_wf d'.
Proof.
  unfold update_run. destruct (sqlite_str r) as [r'|]; [|discriminate].
  cbn [rbind]. intros H (H1 & H2 & H3). injection H as <-.
  repeat split; simpl; try assumption.
  rewrite map_map.
  erewrite map_ext; [exact H3|].
  intros x. simpl. destruct (String.eqb (run_id x) rid); reflexivity.
Qed.

Lemma sorted_snoc (l : list prompt_result_row) (x : prompt_result_row) (b : Z) :
  StronglySorted id_lt l -> Forall (fun r => pr_id r <= b) l -> b < pr_id x ->
  StronglySorted id_lt (l ++ [x]).
Proof.
  intros Hs Hb Hx. induction l as [|y l IH]; simpl.
  - repeat constructor.
  - inversion Hs; subst. inversion Hb; subst. constructor; [auto|].
    apply Forall_app. split; [assumption|]. repeat constructor.
    unfold id_lt. lia.
Qed.

Lemma insert_prompt_result_wf (env : Env) (run pid : string) (ver : Z) (nm : string)
    (sc : Z) (rt : string) (tp : pyfloat) (ra : pyval) (raw : option string)
    (now : string) (d d' : database) :
  insert_prompt_result env run pid ver nm sc rt tp ra raw now d = Ok d' ->
  db_wf d -> db_wf d'.
Proof.
  intros H (H1 & H2 & H3).
  destruct (insert_prompt_result_inv _ _ _ _ _ _ _ _ _ _ _ _ _ H)
    as (ra' & _ & _ & _ & ->).
  repeat split; simpl; try assumption.
  - apply (sorted_snoc _ _ (last_id d)); [assumption|assumption|simpl; lia].
  - apply Forall_app. split.
    + eapply Forall_impl; [|exact H2]. simpl. intros; lia.
    + repeat constructor. simpl. lia.
Qed.

Lemma keeps_generate (P : database -> Prop) (env : Env) (self : AIClient)
    (p : Prompt) (context : pyval) :
  keeps P (generate env self p context).
Proof.
  apply keeps_same_db. intros w r w' H.
  destruct (generate_cases env self p context w) as (r0 & w0 & H0 & (Hd & _) & _).
  rewrite H0 in H. injection H as _ <-. exact Hd.
Qed.

Lemma keeps_utcnow (P : database -> Prop) (env : Env) :
  keeps P (utcnow_isoformat env).
Proof. apply keeps_same_db. intros w r w' H. injection H as _ <-. reflexivity. Qed.

Lemma keeps_uuid4 (P : database -> Prop) (env : Env) : keeps P (uuid4 env).
Proof. apply keeps_same_db. intros w r w' H. injection H as _ <-. reflexivity. Qed.

Lemma keeps_load_prompts (P : database -> Prop) (env : Env) :
  keeps P (load_prompts env).
Proof.
  apply keeps_same_db. intros w r w' H. rewrite load_prompts_catalog in H.
  injection H as _ <-. apply after_load_spec.
Qed.

Lemma start_run_wf (env : Env) (ticker context_json : string) :
  keeps db_wf (start_run env ticker context_json).
Proof.
  unfold start_run.
  apply keeps_bind; [apply keeps_uuid4|intros rid].
  apply keeps_bind; [apply keeps_utcnow|intros now].
  apply keeps_bind; [|intros; apply keeps_ret].
  apply keeps_execute. intros d d'. apply insert_run_wf.
Qed.

Lemma finish_run_wf (env : Env) (rid : string) (a : pyfloat) (r : string)
    (t : pyfloat) :
  keeps db_wf (finish_run env rid a r t).
Proof.
  unfold finish_run. apply keeps_bind; [apply keeps_utcnow|intros now].
  apply keeps_execute. intros d d'. apply update_run_wf.
Qed.

Lemma save_prompt_result_wf (env : Env) (run pid : string) (ver : Z)
    (nm : string) (sc : Z) (rt : string) (tp : pyfloat) (ra : pyval)
    (raw : option string) :
  keeps db_wf (save_prompt_result env run pid ver nm sc rt tp ra raw).
Proof.
  unfold save_prompt_result. apply keeps_bind; [apply keeps_utcnow|intros now].
  apply keeps_execute. intros d d'. apply insert_prompt_result_wf.
Qed.

Lemma process_prompt_wf (env : Env) (self : AIClient) (context : pyval)
    (run : string) (p : Prompt) (acc : accumulators) :
  keeps db_wf (process_prompt env self context run p acc).
Proof.
  unfold process_prompt.
  apply keeps_bind; [apply keeps_generate|intros [parsed raw]].
  apply keeps_bind; [apply keeps_lift|intros o].
  apply keeps_bind; [apply save_prompt_result_wf|intros; apply keeps_ret].
Qed.

Lemma run_prompts_wf (env : Env) (self : AIClient) (context : pyval)
    (run : string) (prompts : list Prompt) :
  forall acc, keeps db_wf (run_prompts env self context run prompts acc).
Proof.
  induction prompts as [|p ps IH]; intros acc; simpl.
  - apply keeps_ret.
  - apply keeps_bind; [apply process_prompt_wf|exact IH].
Qed.

Lemma run_analysis_wf (env : Env) (ticker : string) :
  keeps db_wf (run_analysis env ticker).
Proof.
  unfold run_analysis.
  apply keeps_bind; [apply keeps_load_prompts|intros prompts].
  apply keeps_bind; [destruct prompts; [apply keeps_raise|apply keeps_ret]|intros _].
  apply keeps_bind; [apply start_run_wf|intros rid].
  apply keeps_bind; [apply run_prompts_wf|intros acc].
  apply keeps_bind; [apply keeps_lift|intros s].
  apply keeps_bind; [apply finish_run_wf|intros; apply keeps_ret].
Qed.

(** X9.  Runs keep the database well formed, whether they return or raise
    and whatever the page handler is asked: result rows keep strictly
    increasing ids below the table's counter, and no two runs share an id.
    The empty database is well formed. *)
Theorem database_stays_well_formed (env : Env) (w : world) :
  db_wf empty_db
  /\ (db_wf (db w) ->
      (forall ticker, db_wf (db (snd (run_analysis env ticker w))))
      /\ (forall req, db_wf (db (snd (index env req w))))).
Proof.
  split.
  - repeat split; constructor.
  - intros Hw. split.
    + intros ticker. destruct (run_analysis env ticker w) as [r w'] eqn:E.
      eapply run_analysis_wf; eassumption.
    + intros req. destruct (index env req w) as [r w'] eqn:E. simpl.
      revert E Hw. apply (fun H => H w r w').
      change (keeps db_wf (index env req)).
      unfold index. apply keeps_bind; [|intros vars; apply keeps_lift].
      destruct (method req); try apply keeps_ret.
      destruct (String.eqb _ ""); [apply keeps_ret|].
      apply keeps_try_except.
      * apply keeps_bind; [apply run_analysis_wf|intros [results s]; apply keeps_ret].
      * intros e. apply keeps_ret.
Qed.

Lemma database_stays_well_formed_witness :
  db_wf (db (snd (run_analysis (sample_env None (Ok "")) "AAPL" initial_world))).
Proof.
  apply (proj1 (proj2 (database_stays_well_formed (sample_env None (Ok ""))
                         initial_world)
                  (proj1 (database_stays_well_formed (sample_env None (Ok ""))
                            initial_world)))).
Defined.

(* ------------------------------------------------------------------ *)

(* ------------------------------------------------------------------ *)
(** *** Reading back what a run stored *)

Lemma StronglySorted_app_r {A} (R : A -> A -> Prop) (l1 l2 : list A) :
  StronglySorted R (l1 ++ l2) -> StronglySorted R l2.
Proof.
  induction l1 as [|x l1 IH]; simpl; [auto|].
  intros H. inversion H; subst. auto.
Qed.

Lemma order_by_id_sorted (l : list prompt_result_row) :
  StronglySorted id_lt l -> order_by_id l = l.
Proof.
  induction l as [|x l IH]; simpl; intros H; [reflexivity|].
  inversion H; subst. rewrite (IH H2).
  destruct l as [|y l']; [reflexivity|]. simpl.
  inversion H3; subst. unfold id_lt in H4.
  destruct (Z.ltb_spec (pr_id x) (pr_id y)); [reflexivity|lia].
Qed.

Lemma filter_all {A} (f : A -> bool) (l : list A) :
  Forall (fun x => f x = true) l -> filter f l = l.
Proof.
  induction 1 as [|x l Hx _ IH]; simpl; [reflexivity|].
  rewrite Hx, IH. reflexivity.
Qed.

Lemma filter_none {A} (f : A -> bool) (l : list A) :
  Forall (fun x => f x = false) l -> filter f l = [].
Proof.
  induction 1 as [|x l Hx _ IH]; simpl; [reflexivity|].
  rewrite Hx, IH. reflexivity.
Qed.

Lemma run_analysis_ok_nonempty (env : Env) (ticker : string) (w : world)
    (x : list result_entry * summary) (w' : world) :
  run_analysis env ticker w = (Ok x, w') -> catalog env <> [].
Proof.
  intros H Hc. rewrite (run_analysis_empty env ticker w Hc) in H. discriminate.
Qed.

(** X10.  After a run that returned, on a well-formed database that held
    no row under the new run id, [get_prompt_results] for that id gives
    back exactly one row per returned entry, in the order of the entries
    (the catalog order), and it changes nothing.  Each row carries the
    prompt, score and rating of its entry, and of the target price and the
    rationale what the column keeps: a NaN price is read back as NULL, a
    negative zero as [0.0], any other price as itself, a rationale that is
    an integer as its text, a null rationale as NULL. *)
Theorem get_prompt_results_after_run (env : Env) (ticker : string) (w : world)
    (results : list result_entry) (s : summary) (w' : world) :
  db_wf (db w) ->
  Forall (fun r => pr_run_id r <> env_uuid4 env (uuid_used w))
         (prompt_results (db w)) ->
  run_analysis env ticker w = (Ok (results, s), w') ->
  exists rows,
    get_prompt_results (env_uuid4 env (uuid_used w)) w' = (Ok rows, w')
    /\ Forall2 (entry_row env (env_uuid4 env (uuid_used w))) results rows
    /\ map pr_prompt_id rows = map prompt_id (catalog env)
    /\ Forall2 (fun e row =>
                  (e_target_buy_price e = NaN -> pr_target_buy_price row = None)
                  /\ (e_target_buy_price e = NegZero ->
                      pr_target_buy_price row = Some (Fin 0))
                  /\ (forall q, e_target_buy_price e = Fin q ->
                      pr_target_buy_price row = Some (Fin q))
                  /\ (forall s, e_target_buy_price e = Inf s ->
                      pr_target_buy_price row = Some (Inf s))
                  /\ (forall t, e_rationale e = PStr t -> pr_rationale row = Some t)
                  /\ (forall z, e_rationale e = PInt z ->
                      pr_rationale row = Some (string_of_Z z))
                  /\ (e_rationale e = PNone -> pr_rationale row = None))
         results rows.
Proof.
  intros Hwf Hstale Hrun.
  assert (Hwf' : db_wf (db w')).
  { eapply run_analysis_wf; eassumption. }
  pose proof (run_analysis_ok_nonempty _ _ _ _ _ Hrun) as Hne.
  set (rid := env_uuid4 env (uuid_used w)) in *.
  destruct (run_analysis_cases env ticker w Hne)
    as [(e & w2 & Hr & _)
       |[(e & w2 & n & rows & Hr & _)
        |(results' & s' & w2 & segs & rows & now & Hr & _ & _ & _ & _ & _ & _
          & Hall & Hid & F1 & _)]];
    rewrite Hr in Hrun; try discriminate.
  injection Hrun as <- <- <-. fold rid in F1.
  exists rows. split; [|split; [|split]].
  - unfold get_prompt_results. f_equal. f_equal. rewrite Hall, filter_app.
    rewrite (filter_none _ (prompt_results (db w))).
    + simpl. rewrite filter_all.
      * apply order_by_id_sorted. destruct Hwf' as (Hsorted & _).
        rewrite Hall in Hsorted. eapply StronglySorted_app_r. exact Hsorted.
      * clear -F1. induction F1 as [|e r es rs Her _ IH]; constructor; [|exact IH].
        destruct Her as (-> & _). apply String.eqb_refl.
    + eapply Forall_impl; [|exact Hstale]. intros r Hr'. simpl.
      destruct (String.eqb (pr_run_id r) rid) eqn:E; [|reflexivity].
      apply String.eqb_eq in E. contradiction.
  - exact F1.
  - exact Hid.
  - clear -F1. induction F1 as [|e r es rs Her _ IH]; constructor; [|exact IH].
    destruct Her as (_ & _ & _ & _ & _ & _ & Hp & Hra).
    split; [intros E; rewrite Hp, E; reflexivity|].
    split; [intros E; rewrite Hp, E; reflexivity|].
    split; [intros q E; rewrite Hp, E; reflexivity|].
    split; [intros s E; rewrite Hp, E; reflexivity|].
    split.
    { intros t E. rewrite E in Hra. simpl in Hra.
      destruct (sqlite_str t) as [t'|] eqn:Et; [|discriminate].
      apply sqlite_str_ok in Et. destruct Et as [-> _]. simpl in Hra. congruence. }
    split.
    { intros z E. rewrite E in Hra. simpl in Hra.
      destruct (sqlite_int z) as [z'|] eqn:Ez; [|discriminate].
      apply sqlite_int_ok in Ez. destruct Ez as [-> _]. simpl in Hra. congruence. }
    intros E. rewrite E in Hra. simpl in Hra. congruence.
Qed.

Lemma get_prompt_results_after_run_witness :
  exists rows,
    get_prompt_results "run-0"
      (snd (run_analysis (sample_env (Some "sk-test")
                            (Ok (dq "{'score': 7, 'target_buy_price': NaN, 'rationale': 5}")))
              "AAPL" initial_world))
    = (Ok rows,
       snd (run_analysis (sample_env (Some "sk-test")
                            (Ok (dq "{'score': 7, 'target_buy_price': NaN, 'rationale': 5}")))
              "AAPL" initial_world))
    /\ map pr_prompt_id rows = ["valuation"]
    /\ map pr_target_buy_price rows = [None]
    /\ map pr_rationale rows = [Some "5"].
Proof.
  destruct (run_analysis (sample_env (Some "sk-test")
                            (Ok (dq "{'score': 7, 'target_buy_price': NaN, 'rationale': 5}")))
              "AAPL" initial_world)
    as [[[results s]|e] w'] eqn:E; [|vm_compute in E; discriminate].
  destruct (get_prompt_results_after_run
              (sample_env (Some "sk-test")
                 (Ok (dq "{'score': 7, 'target_buy_price': NaN, 'rationale': 5}")))
              "AAPL" initial_world results s w')
    as (rows & H1 & H2 & H3 & H4).
  - repeat split; constructor.
  - constructor.
  - exact E.
  - exists rows. split; [exact H1|]. split; [exact H3|].
    assert (Hres : map e_target_buy_price results = [NaN]
                   /\ map e_rationale results = [PInt 5]).
    { vm_compute in E. injection E as <- _ _. split; reflexivity. }
    destruct Hres as [Hp Hr]. clear E H1 H2 H3.
    destruct H4 as [|e r es rs (A & _ & _ & _ & _ & B & _) H4]; [discriminate|].
    destruct H4; [|discriminate].
    simpl in Hp, Hr. injection Hp as Hp. injection Hr as Hr.
    simpl. rewrite (A Hp), (B 5 Hr). split; reflexivity.
Defined.

(* ------------------------------------------------------------------ *)
(** *** The header row of a run *)

Lemma closed_run_other (rid now : string) (a : pyfloat) (r : string)
    (t : pyfloat) (rows : list run_row) :
  existsb (fun x => String.eqb (run_id x) rid) rows = false ->
  map (closed_run rid now a r t) rows = rows.
Proof.
  induction rows as [|x rows IH]; simpl; intros H; [reflexivity|].
  apply orb_false_iff in H. destruct H as [Hx Hr].
  unfold closed_run at 1. rewrite Hx, (IH Hr). reflexivity.
Qed.

Lemma b64_not_nan (q : Q) : b64 q <> NaN.
Proof.
  unfold b64. destruct q as [[|n|n] d]; cbn [Qnum Qden]; try discriminate;
    destruct (b64_mag n d) as [v|]; try discriminate.
  destruct (Qeq_bool v 0); discriminate.
Qed.

(** X11.  A run that returned leaves, after the header rows that were
    there (unchanged), exactly one new header row: it carries the run id,
    the ticker, the JSON of the context, a finish time, the final rating
    of the returned summary, and of its average score and final target
    price what the column keeps: the number itself, [0.0] for a negative
    zero, and NULL for a NaN, which the average score never is. *)
Theorem run_header_matches_summary (env : Env) (ticker : string) (w : world)
    (results : list result_entry) (s : summary) (w' : world) :
  run_analysis env ticker w = (Ok (results, s), w') ->
  exists row,
    runs (db w') = runs (db w) ++ [row]
    /\ run_id row = env_uuid4 env (uuid_used w)
    /\ run_ticker row = ticker
    /\ run_context_json row = json_dumps (load_context ticker)
    /\ (exists now, run_finished_at row = Some now)
    /\ run_final_rating row = Some (s_final_rating s)
    /\ run_average_score row = sqlite_real (s_average_score s)
    /\ s_average_score s <> NaN
    /\ (forall q, s_average_score s = Fin q -> run_average_score row = Some (Fin q))
    /\ run_final_target_price row = sqlite_real (s_final_target_price s)
    /\ (s_final_target_price s = NaN -> run_final_target_price row = None)
    /\ (s_final_target_price s = NegZero ->
        run_final_target_price row = Some (Fin 0))
    /\ (forall q, s_final_target_price s = Fin q ->
        run_final_target_price row = Some (Fin q))
    /\ (forall sg, s_final_target_price s = Inf sg ->
        run_final_target_price row = Some (Inf sg)).
Proof.
  intros Hrun.
  pose proof (run_analysis_ok_nonempty _ _ _ _ _ Hrun) as Hne.
  set (rid := env_uuid4 env (uuid_used w)) in *.
  destruct (run_analysis_cases env ticker w Hne)
    as [(e & w2 & Hr & _)
       |[(e & w2 & n & rows & Hr & _)
        |(results' & s' & w2 & segs & rows & now & Hr & _ & Hfresh & _ & Ha & _ & _
          & _ & _ & _ & Hruns)]];
    rewrite Hr in Hrun; try discriminate.
  injection Hrun as -> -> ->. fold rid in Hfresh, Hruns.
  rewrite Hruns, map_app, (closed_run_other _ _ _ _ _ _ Hfresh).
  cbn [map]. unfold closed_run, open_run. cbn [run_id]. rewrite String.eqb_refl.
  eexists. split; [reflexivity|].
  cbn [run_id run_ticker run_context_json run_finished_at run_average_score
       run_final_rating run_final_target_price].
  assert (Hav : s_average_score s <> NaN).
  { unfold aggregate in Ha.
    destruct (mean_int (map e_score results)) as [a|] eqn:Hm; [|discriminate].
    apply mean_int_ok_inv in Hm. destruct Hm as [_ Hm].
    cbn [rbind] in Ha.
    destruct (final_rating (map e_rating results)); [|discriminate].
    cbn [rbind] in Ha.
    destruct (mean_float (map e_target_buy_price results)); [|discriminate].
    injection Ha as <-. cbn [s_average_score]. subst a. apply b64_not_nan. }
  repeat split; eauto.
  - intros q ->. reflexivity.
  - intros ->. reflexivity.
  - intros ->. reflexivity.
  - intros q ->. reflexivity.
  - intros sg ->. reflexivity.
Qed.

Lemma run_header_matches_summary_witness :
  exists row,
    runs (db (snd (run_analysis (sample_env None (Ok "")) "AAPL" initial_world)))
    = [] ++ [row]
    /\ run_id row = "run-0"
    /\ run_ticker row = "AAPL"
    /\ run_context_json row = dq "{'ticker': 'AAPL'}".
Proof.
  destruct (run_analysis (sample_env None (Ok "")) "AAPL" initial_world)
    as [[[results s]|e] w'] eqn:E; [|vm_compute in E; discriminate].
  destruct (run_header_matches_summary (sample_env None (Ok "")) "AAPL"
              initial_world results s w' E)
    as (row & H1 & H2 & H3 & H4 & _).
  exists row. simpl. auto.
Defined.

(* ------------------------------------------------------------------ *)
(** *** Runs that abort *)

(** X12.  A run over a non-empty catalog that raises after its header row
    was written (that is, when the store accepted the ticker and the run
    id drawn was new) leaves that header row open, with no finish time and
    no summary, and the rows of the prompts processed before the failure,
    a strict prefix of the catalog; it is never closed by [finish_run].
    If the run id was already taken the run raises IntegrityError, and if
    the store cannot encode the ticker it raises UnicodeEncodeError; the
    database is unchanged in both cases. *)
Theorem aborted_run_leaves_open_header (env : Env) (ticker : string) (w : world)
    (e : exn) (w' : world) :
  catalog env <> [] ->
  run_analysis env ticker w = (Raise e, w') ->
  let rid := env_uuid4 env (uuid_used w) in
  (has_surrogate ticker = false ->
   existsb (fun r => String.eqb (run_id r) rid) (runs (db w)) = false ->
   exists row n rows,
     runs (db w') = runs (db w) ++ [row]
     /\ run_id row = rid /\ run_ticker row = ticker
     /\ run_finished_at row = None /\ run_average_score row = None
     /\ run_final_rating row = None /\ run_final_target_price row = None
     /\ (n < List.length (catalog env))%nat
     /\ prompt_results (db w') = prompt_results (db w) ++ rows
     /\ map pr_prompt_id rows = firstn n (map prompt_id (catalog env)))
  /\ (has_surrogate ticker = false ->
      existsb (fun r => String.eqb (run_id r) rid) (runs (db w)) = true ->
      e = IntegrityError "UNIQUE constraint failed: runs.run_id"
      /\ db w' = db w)
  /\ (has_surrogate ticker = true ->
      e = encode_error ticker /\ db w' = db w).
Proof.
  intros Hne Hrun rid.
  destruct (run_analysis_cases env ticker w Hne)
    as [(e0 & w2 & Hr & Hdb & Hc)
       |[(e0 & w2 & n & rows & Hr & Hs & Hfresh & Hruns & Hn & Hpr & Hid)
        |(results & s & w2 & segs & rows & now & Hr & _)]];
    rewrite Hr in Hrun; try discriminate; injection Hrun as <- <-.
  - fold rid in Hc. split; [|split].
    + intros Hs Hf. destruct Hc as [(Hs' & _)|(_ & Hf' & _)]; congruence.
    + intros Hs Hf. destruct Hc as [(Hs' & _)|(_ & _ & ->)]; [congruence|auto].
    + intros Hs. destruct Hc as [(_ & ->)|(Hs' & _)]; [auto|congruence].
  - fold rid in Hfresh, Hruns. split; [|split].
    + intros _ _. eexists _, n, rows. split; [exact Hruns|].
      cbn. auto 12.
    + intros _ Hf. congruence.
    + intros Hs'. congruence.
Qed.

Lemma aborted_run_leaves_open_header_witness :
  exists row n rows,
    runs (db (snd (run_analysis
                     (sample_env (Some "sk-test") (Ok (dq "{'score': 'high'}")))
                     "AAPL" initial_world)))
    = [] ++ [row]
    /\ run_id row = "run-0" /\ run_ticker row = "AAPL"
    /\ run_finished_at row = None /\ run_average_score row = None
    /\ run_final_rating row = None /\ run_final_target_price row = None
    /\ (n < 1)%nat
    /\ prompt_results
         (db (snd (run_analysis
                     (sample_env (Some "sk-test") (Ok (dq "{'score': 'high'}")))
                     "AAPL" initial_world)))
       = [] ++ rows
    /\ map pr_prompt_id rows = firstn n ["valuation"].
Proof.
  destruct (run_analysis (sample_env (Some "sk-test") (Ok (dq "{'score': 'high'}")))
              "AAPL" initial_world) as [[r|e] w'] eqn:E;
    [vm_compute in E; discriminate|].
  apply (proj1 (aborted_run_leaves_open_header
                  (sample_env (Some "sk-test") (Ok (dq "{'score': 'high'}")))
                  "AAPL" initial_world e w' ltac:(discriminate) E));
    reflexivity.
Defined.

(* ------------------------------------------------------------------ *)
(** *** Ratings are upper-case *)

Lemma upper_char_not_lower (c : ascii) : is_lower (upper_char c) = false.
Proof.
  unfold upper_char, is_lower, ord, chr.
  destruct ((97 <=? N_of_ascii c) && (N_of_ascii c <=? 122))%N eqn:E.
  - apply andb_true_iff in E. destruct E as [H1 H2].
    apply N.leb_le in H1, H2.
    rewrite N_ascii_embedding by lia.
    apply andb_false_iff. left. apply N.leb_gt. lia.
  - exact E.
Qed.

Lemma upper_char_ascii (c : ascii) : (ord c < 128)%N -> (ord (upper_char c) < 128)%N.
Proof.
  intros H. unfold upper_char.
  destruct ((97 <=? ord c) && (ord c <=? 122))%N eqn:E; [|exact H].
  apply andb_true_iff in E. destruct E as [H1 H2]. apply N.leb_le in H1, H2.
  rewrite ord_chr; lia.
Qed.

Lemma upper_char_idem (c : ascii) : upper_char (upper_char c) = upper_char c.
Proof.
  pose proof (upper_char_not_lower c) as H. unfold is_lower in H.
  unfold upper_char at 1. rewrite H. reflexivity.
Qed.

Lemma high_byte_not_lower (b : ascii) : (128 <= ord b)%N -> is_lower b = false.
Proof.
  intros H. unfold is_lower. apply andb_false_iff. right. apply N.leb_gt. lia.
Qed.

Lemma upper_char_high (b : ascii) : (128 <= ord b)%N -> upper_char b = b.
Proof.
  intros H. unfold upper_char.
  destruct ((97 <=? ord b) && (ord b <=? 122))%N eqn:E; [|reflexivity].
  apply andb_true_iff in E. destruct E as [_ H2]. apply N.leb_le in H2. lia.
Qed.

Lemma chars_of_ascii (l : list ascii) :
  ascii_bytes l -> utf8_chars l = map (fun b => (ord b, [b])) l.
Proof.
  induction 1 as [|b r Hb Hr IH]; [reflexivity|].
  rewrite (utf8_chars_ascii b r Hb), IH. reflexivity.
Qed.

(** On ASCII text [upper] is the upper-casing of ASCII. *)
Lemma upper_ascii (py : Python) (s : string) :
  is_ascii s = true ->
  upper py s = string_of_list_ascii (map upper_char (list_ascii_of_string s)).
Proof.
  intros H. apply is_ascii_bytes in H. unfold upper, chars_of.
  rewrite (chars_of_ascii _ H). f_equal.
  induction H as [|b r Hb Hr IH]; [reflexivity|].
  cbn [map flat_map]. rewrite IH. unfold upper_bytes.
  apply N.ltb_lt in Hb. rewrite Hb. reflexivity.
Qed.

Lemma has_lower_bytes (l : list ascii) :
  Forall (fun b => is_lower b = false) l ->
  has_lower (string_of_list_ascii l) = false.
Proof.
  intros H. unfold has_lower. rewrite list_ascii_of_string_of_list_ascii.
  induction H as [|b r Hb Hr IH]; [reflexivity|]. simpl. rewrite Hb, IH. reflexivity.
Qed.

(** The characters of a text: an ASCII byte, or bytes from 128 up. *)
Lemma utf8_chars_shape (k : nat) :
  forall l, (List.length l <= k)%nat ->
  Forall (fun c => (fst c < 2097152)%N
                   /\ ((exists b, snd c = [b] /\ fst c = ord b /\ (ord b < 128)%N)
                       \/ Forall (fun b => (128 <= ord b)%N) (snd c)))
         (utf8_chars l).
Proof.
  induction k as [|k IH]; intros l Hl.
  - destruct l; [constructor|simpl in Hl; lia].
  - destruct l as [|b0 r]; [constructor|].
    assert (Hb0 : (ord b0 < 256)%N) by apply N_ascii_bounded.
    assert (Hsingle :
      Forall (fun c => (fst c < 2097152)%N
                   /\ ((exists b, snd c = [b] /\ fst c = ord b /\ (ord b < 128)%N)
                       \/ Forall (fun b => (128 <= ord b)%N) (snd c)))
        (((if (ord b0 <? 128)%N then ord b0 else (56320 + ord b0)%N), [b0])
           :: utf8_chars r)).
    { constructor; [|apply IH; simpl in Hl; lia].
      cbn [fst snd]. destruct (N.ltb_spec (ord b0) 128).
      - split; [lia|]. left. exists b0. auto.
      - split; [lia|]. right. repeat constructor. assumption. }
    assert (Hcont : forall b, ((128 <=? ord b) && (ord b <? 192))%N = true ->
                              (128 <= ord b)%N /\ (ord b mod 64 < 64)%N).
    { intros b H. apply andb_true_iff in H. destruct H as [H1 _].
      apply N.leb_le in H1. split; [exact H1|]. apply N.mod_lt. discriminate. }
    cbn [utf8_chars].
    destruct r as [|b1 r1]; [exact Hsingle|].
    destruct (((192 <=? ord b0) && (ord b0 <? 224))%N
              && ((128 <=? ord b1) && (ord b1 <? 192))%N) eqn:E2.
    { apply andb_true_iff in E2. destruct E2 as [E0 E1].
      apply andb_true_iff in E0. destruct E0 as [A0 A1].
      apply N.leb_le in A0. apply N.ltb_lt in A1.
      destruct (Hcont b1 E1) as [C1 M1].
      constructor; [|apply IH; simpl in Hl |- *; lia].
      cbn [fst snd]. split; [nia|]. right. repeat constructor; lia. }
    destruct r1 as [|b2 r2]; [exact Hsingle|].
    destruct (((224 <=? ord b0) && (ord b0 <? 240))%N
              && ((128 <=? ord b1) && (ord b1 <? 192))%N
              && ((128 <=? ord b2) && (ord b2 <? 192))%N) eqn:E3.
    { apply andb_true_iff in E3. destruct E3 as [E3 E2'].
      apply andb_true_iff in E3. destruct E3 as [E0 E1].
      apply andb_true_iff in E0. destruct E0 as [A0 A1].
      apply N.leb_le in A0. apply N.ltb_lt in A1.
      destruct (Hcont b1 E1) as [C1 M1]. destruct (Hcont b2 E2') as [C2 M2].
      constructor; [|apply IH; simpl in Hl |- *; lia].
      cbn [fst snd]. split; [nia|]. right. repeat constructor; lia. }
    destruct r2 as [|b3 r3]; [exact Hsingle|].
    destruct (((240 <=? ord b0) && (ord b0 <? 248))%N
              && ((128 <=? ord b1) && (ord b1 <? 192))%N
              && ((128 <=? ord b2) && (ord b2 <? 192))%N
              && ((128 <=? ord b3) && (ord b3 <? 192))%N) eqn:E4; [|exact Hsingle].
    apply andb_true_iff in E4. destruct E4 as [E4 E3'].
    apply andb_true_iff in E4. destruct E4 as [E4 E2'].
    apply andb_true_iff in E4. destruct E4 as [E0 E1].
    apply andb_true_iff in E0. destruct E0 as [A0 A1].
    apply N.leb_le in A0. apply N.ltb_lt in A1.
    destruct (Hcont b1 E1) as [C1 M1]. destruct (Hcont b2 E2') as [C2 M2].
    destruct (Hcont b3 E3') as [C3 M3].
    constructor; [|apply IH; simpl in Hl |- *; lia].
    cbn [fst snd]. split; [nia|]. right. repeat constructor; lia.
Qed.

Lemma utf8_encode_not_lower (cp : N) :
  (cp < 2097152)%N -> ~ (97 <= cp <= 122)%N ->
  Forall (fun b => is_lower b = false) (utf8_encode cp).
Proof.
  intros Hb Hn. unfold utf8_encode.
  assert (M1 : (cp mod 64 < 64)%N) by (apply N.mod_lt; discriminate).
  assert (M2 : ((cp / 64) mod 64 < 64)%N) by (apply N.mod_lt; discriminate).
  assert (M3 : ((cp / 4096) mod 64 < 64)%N) by (apply N.mod_lt; discriminate).
  assert (Q1 : (cp < 2048 -> cp / 64 < 32)%N)
    by (intros; apply N.Div0.div_lt_upper_bound; lia).
  assert (Q2 : (cp < 65536 -> cp / 4096 < 16)%N)
    by (intros; apply N.Div0.div_lt_upper_bound; lia).
  assert (Q3 : (cp / 262144 < 8)%N)
    by (apply N.Div0.div_lt_upper_bound; lia).
  set (m1 := (cp mod 64)%N) in *. set (m2 := ((cp / 64) mod 64)%N) in *.
  set (m3 := ((cp / 4096) mod 64)%N) in *. set (q1 := (cp / 64)%N) in *.
  set (q2 := (cp / 4096)%N) in *. set (q3 := (cp / 262144)%N) in *.
  clearbody m1 m2 m3 q1 q2 q3.
  destruct (N.ltb_spec cp 128).
  - repeat constructor. unfold is_lower. rewrite ord_chr by lia.
    destruct (N.leb_spec 97 cp); [|reflexivity].
    destruct (N.leb_spec cp 122); [lia|reflexivity].
  - destruct (N.ltb_spec cp 2048).
    + specialize (Q1 ltac:(assumption)).
      repeat (apply Forall_cons; [apply high_byte_not_lower; rewrite ord_chr; lia|]);
        apply Forall_nil.
    + destruct (N.ltb_spec cp 65536).
      * specialize (Q2 ltac:(assumption)).
        repeat (apply Forall_cons; [apply high_byte_not_lower; rewrite ord_chr; lia|]);
          apply Forall_nil.
      * repeat (apply Forall_cons; [apply high_byte_not_lower; rewrite ord_chr; lia|]);
          apply Forall_nil.
Qed.

Lemma upper_has_no_lower (py : Python) (s : string) :
  upper_table_ok py -> has_lower (upper py s) = false.
Proof.
  intros Hok. unfold upper. apply has_lower_bytes.
  pose proof (utf8_chars_shape _ (list_ascii_of_string s) (Nat.le_refl _)) as Hs.
  fold (chars_of s) in Hs.
  induction Hs as [|[n bytes] cs (Hn & Hc) _ IH]; [constructor|].
  cbn [flat_map]. apply Forall_app. split; [|exact IH].
  cbn [fst snd] in Hn, Hc. unfold upper_bytes.
  destruct (N.ltb_spec n 128).
  - destruct Hc as [(b & -> & _ & _)|Hc].
    + repeat constructor. apply upper_char_not_lower.
    + apply Forall_forall. intros b Hb. apply in_map_iff in Hb.
      destruct Hb as (b' & <- & Hb').
      apply upper_char_not_lower.
  - destruct (eqb_codes (unicode_upper py n) [n]).
    + destruct Hc as [(b & -> & -> & Hb)|Hc]; [lia|].
      eapply Forall_impl; [|exact Hc]. intros b. apply high_byte_not_lower.
    + apply Forall_forall. intros b Hb. apply in_flat_map in Hb.
      destruct Hb as (c & Hc' & Hb).
      destruct (Hok n c (conj H Hn) Hc') as [B1 B2].
      exact (proj1 (Forall_forall _ _) (utf8_encode_not_lower c B1 B2) b Hb).
Qed.

Lemma coerce_outcome_rating (env : Env) (d : pydict) (o : outcome) :
  coerce_outcome env (PDict d) = Ok o ->
  rating o = upper (env_python env)
               (py_str (env_python env) (dict_get_default d "rating" (PStr ""))).
Proof.
  rewrite coerce_outcome_dict.
  destruct (py_int _ _); [|discriminate]. destruct (py_float _ _); [|discriminate].
  simpl. intros H. injection H as <-. reflexivity.
Qed.

(** X7.  The rating of an outcome is the upper-cased text of what the
    parsed data holds as rating.  With upper-case tables that map no
    character to a lower-case ASCII letter, as those of Unicode do, it has
    no lower-case ASCII letter.  When the rating of the reply is ASCII
    text, whatever the tables, the rating of the outcome is its ASCII
    upper-casing: it has no lower-case letter, upper-casing it again
    changes nothing, and replies whose ratings differ only in ASCII case
    give the same rating, so they count as the same vote. *)
Theorem outcome_rating_is_upper_case (env : Env) (d : pydict) (o : outcome) :
  coerce_outcome env (PDict d) = Ok o ->
  (upper_table_ok (env_python env) -> has_lower (rating o) = false)
  /\ (forall r,
        dict_get d "rating" = Some (PStr r) -> is_ascii r = true ->
        rating o = string_of_list_ascii (map upper_char (list_ascii_of_string r))
        /\ has_lower (rating o) = false
        /\ upper (env_python env) (rating o) = rating o
        /\ forall d' r' o',
             dict_get d' "rating" = Some (PStr r') -> is_ascii r' = true ->
             map upper_char (list_ascii_of_string r')
             = map upper_char (list_ascii_of_string r) ->
             coerce_outcome env (PDict d') = Ok o' -> rating o' = rating o).
Proof.
  intros H. pose proof (coerce_outcome_rating env d o H) as Hr. split.
  - intros Hok. rewrite Hr. apply upper_has_no_lower, Hok.
  - intros r Hd Ha.
    rewrite (dict_get_default_present _ _ _ _ Hd) in Hr. cbn [py_str] in Hr.
    rewrite (upper_ascii _ r Ha) in Hr.
    split; [exact Hr|]. split; [|split].
    + rewrite Hr. apply has_lower_bytes. apply Forall_forall. intros b Hb.
      apply in_map_iff in Hb. destruct Hb as (b' & <- & _).
      apply upper_char_not_lower.
    + rewrite Hr, upper_ascii.
      * rewrite list_ascii_of_string_of_list_ascii, map_map. f_equal.
        apply map_ext. intros b. apply upper_char_idem.
      * apply is_ascii_bytes. rewrite list_ascii_of_string_of_list_ascii.
        apply is_ascii_bytes in Ha. apply Forall_forall. intros b Hb.
        apply in_map_iff in Hb. destruct Hb as (b' & <- & Hb').
        apply upper_char_ascii.
        exact (proj1 (Forall_forall _ _) Ha b' Hb').
    + intros d' r' o' Hd' Ha' Heq H'.
      rewrite (coerce_outcome_rating env d' o' H').
      rewrite (dict_get_default_present _ _ _ _ Hd'). cbn [py_str].
      rewrite (upper_ascii _ r' Ha'), Heq, Hr. reflexivity.
Qed.

Lemma outcome_rating_is_upper_case_witness :
  upper_table_ok sample_python
  /\ has_lower "STRONG BUY" = false
  /\ upper sample_python "STRONG BUY" = "STRONG BUY"
  /\ forall d' r' o',
       dict_get d' "rating" = Some (PStr r') -> is_ascii r' = true ->
       map upper_char (list_ascii_of_string r')
       = map upper_char (list_ascii_of_string "Strong Buy") ->
       coerce_outcome (sample_env None (Ok "")) (PDict d') = Ok o' ->
       rating o' = "STRONG BUY".
Proof.
  assert (Hok : upper_table_ok sample_python).
  { intros n c Hn Hc. unfold sample_python in Hc. cbn [unicode_upper] in Hc.
    destruct (n =? 223)%N; [destruct Hc as [<-|[<-|[]]]; lia|].
    destruct (n =? 181)%N; [destruct Hc as [<-|[]]; lia|].
    destruct (n =? 255)%N; [destruct Hc as [<-|[]]; lia|].
    destruct ((224 <=? n) && (n <=? 254) && negb (n =? 247))%N eqn:E.
    - apply andb_true_iff in E. destruct E as [E _].
      apply andb_true_iff in E. destruct E as [E1 E2].
      apply N.leb_le in E1, E2. destruct Hc as [<-|[]]. lia.
    - destruct Hc as [<-|[]]. lia. }
  split; [exact Hok|].
  pose proof (outcome_rating_is_upper_case (sample_env None (Ok ""))
                [("rating", PStr "Strong Buy")]
                {| score := 0; rating := "STRONG BUY"; target_price := Fin 0;
                   rationale := PStr "" |} eq_refl) as [H0 H].
  destruct (H "Strong Buy" eq_refl eq_refl) as (_ & _ & H3 & H4).
  split; [exact (H0 Hok)|]. split; [exact H3|exact H4].
Defined.
